(** * Incremental sync of the Andhra Pradesh CCP API into BigQuery

    A shallow embedding of [api_export.py] and [src/andhra_pradesh_ccp.py]:
    the authenticated API client with token-expiry recovery, the content
    fingerprint [dict_hash], the watermark resolver [get_dates], the
    normalisation of raw records into tables and the warehouse load.

    Conventions.
    - A Python [str] is a [string]; each character is a code point below 256.
    - A value decoded from JSON is a [json]; a Python [dict] keeps its
      insertion order and is an association list with distinct keys.
      Floating-point numbers are left out.
    - A [date] is its proleptic Gregorian ordinal ([date.toordinal()]), a
      [timedelta] a number of days; the bounds of Python's [date] type
      (years 1 to 9999) are not modelled.
    - Code that raises returns [Raise e]; code with effects is a function of
      the [world] (the warehouse, the remote API, the clock, the log of
      requests sent). A worker pool runs its units one after the other, in
      the order of the work list, and stops at the first one that raises. *)

From Stdlib Require Import ZArith QArith Lia Ascii DecimalString DecimalZ.
From stdpp Require Import gmap strings list sorting.

Local Open Scope string_scope.
Local Open Scope list_scope.
Local Open Scope Z_scope.

(** ** Python values, exceptions and the result of a call *)

Module Py.

Set Warnings "-register-all".

Inductive json : Type :=
  | JNull
  | JBool (b : bool)
  | JInt (n : Z)
  | JStr (s : string)
  | JArr (l : list json)
  | JObj (o : list (string * json)).

(** Decidable equality on [json], through the nested lists. *)
Fixpoint json_eqb (x y : json) {struct x} : bool :=
  match x, y with
  | JNull, JNull => true
  | JBool a, JBool b => bool_decide (a = b)
  | JInt a, JInt b => bool_decide (a = b)
  | JStr a, JStr b => bool_decide (a = b)
  | JArr l1, JArr l2 =>
      (fix go (l1 l2 : list json) : bool :=
         match l1, l2 with
         | [], [] => true
         | a :: l1, b :: l2 => json_eqb a b && go l1 l2
         | _, _ => false
         end) l1 l2
  | JObj o1, JObj o2 =>
      (fix go (o1 o2 : list (string * json)) : bool :=
         match o1, o2 with
         | [], [] => true
         | (k1, a) :: o1, (k2, b) :: o2 =>
             bool_decide (k1 = k2) && json_eqb a b && go o1 o2
         | _, _ => false
         end) o1 o2
  | _, _ => false
  end.

Lemma json_nested_ind (P : json -> Prop) :
  P JNull -> (forall b, P (JBool b)) -> (forall n, P (JInt n)) ->
  (forall s, P (JStr s)) ->
  (forall l, Forall P l -> P (JArr l)) ->
  (forall o, Forall (fun kv => P kv.2) o -> P (JObj o)) ->
  forall j, P j.
Proof.
  intros Hnull Hbool Hint Hstr Harr Hobj. fix IH 1.
  intros [|b|n|s|l|o];
    [apply Hnull | apply Hbool | apply Hint | apply Hstr | |].
  - apply Harr. induction l as [|a l IHl]; constructor; [apply IH | apply IHl].
  - apply Hobj.
    induction o as [|[k v] o IHo]; constructor; [apply IH | apply IHo].
Qed.

Lemma json_eqb_eq (x y : json) : json_eqb x y = true <-> x = y.
Proof.
  revert y. induction x as [| | | |l IH|o IH] using json_nested_ind;
    intros [| | | |l'|o']; simpl;
    rewrite ?bool_decide_eq_true; try (split; congruence).
  - revert l'. induction IH as [|a l Ha _ IHl]; intros [|b l'];
      try (split; congruence).
    rewrite andb_true_iff, Ha. specialize (IHl l').
    split.
    + intros [-> Hl]. apply IHl in Hl. congruence.
    + intros [= -> ->]. split; [done|]. by apply IHl.
  - revert o'. induction IH as [|[k a] o Ha _ IHo]; intros [|[k' b] o'];
      try (split; congruence).
    rewrite !andb_true_iff, bool_decide_eq_true. simpl in Ha.
    rewrite Ha. specialize (IHo o').
    split.
    + intros [[-> ->] Ho]. apply IHo in Ho. congruence.
    + intros [= -> -> ->]. repeat split. by apply IHo.
Qed.

Global Instance json_eq_dec : EqDecision json.
Proof.
  intros x y. destruct (json_eqb x y) eqn:E.
  - left. by apply json_eqb_eq.
  - right. intros H. apply json_eqb_eq in H. congruence.
Defined.

(** The exceptions the two scripts can raise or let through. *)
Inductive exn : Type :=
  | Exception (msg : string)          (* raise Exception(msg) *)
  | AssertionError (msg : string)
  | KeyError (key : string)
  | TypeError
  | IndexError
  | AttributeError
  | UnboundLocalError (name : string)
  | RecursionError
  | HTTPError (status : Z)            (* response.raise_for_status() *)
  | ConnectionError                   (* requests.exceptions.ConnectionError *)
  | RetryError                        (* requests.exceptions.RetryError *)
  | JSONDecodeError                   (* response.json() on a malformed body *)
  | NoDataError                       (* polars: no data, cannot infer schema *)
  | ColumnNotFoundError (col : string)
  | InvalidOperationError             (* polars: a strict cast or parse failed *)
  | ValueError
  | NotFound (table : string)         (* BigQuery: table not found *)
  | Conflict (table : string)         (* BigQuery: WRITE_EMPTY on a table with rows *)
  | SlackApiError (response : json)
  | SlackClientError.                 (* any other failure of the Slack client *)

Inductive result (A : Type) : Type :=
  | Ok (a : A)
  | Raise (e : exn).
Global Arguments Ok {A} a.
Global Arguments Raise {A} e.

Definition is_ok {A} (r : result A) : bool :=
  match r with Ok _ => true | Raise _ => false end.

Definition rbind {A B} (r : result A) (k : A -> result B) : result B :=
  match r with
  | Ok a => k a
  | Raise e => Raise e
  end.

Fixpoint rmap {A B} (f : A -> result B) (l : list A) : result (list B) :=
  match l with
  | [] => Ok []
  | a :: l =>
      rbind (f a) (fun b => rbind (rmap f l) (fun bs => Ok (b :: bs)))
  end.

(** *** Dicts *)

Abbreviation dict := (list (string * json)).

Fixpoint dict_get {V} (d : list (string * V)) (k : string) : option V :=
  match d with
  | [] => None
  | (k', v) :: d => if decide (k' = k) then Some v else dict_get d k
  end.

(** [d[k]] *)
Definition dict_item {V} (d : list (string * V)) (k : string) : result V :=
  match dict_get d k with
  | Some v => Ok v
  | None => Raise (KeyError k)
  end.

(** [d[k] = v]: an existing key keeps its place, a new one goes last. *)
Fixpoint dict_set {V} (d : list (string * V)) (k : string) (v : V)
  : list (string * V) :=
  match d with
  | [] => [(k, v)]
  | (k', v') :: d =>
      if decide (k' = k) then (k, v) :: d else (k', v') :: dict_set d k v
  end.

Definition dict_keys {V} (d : list (string * V)) : list string := d.*1.

(** [x[k]] on any value: only a dict can be indexed by a string. *)
Definition getitem (x : json) (k : string) : result json :=
  match x with
  | JObj d => dict_item d k
  | _ => Raise TypeError
  end.

(** Truth value of [x] in a condition. *)
Definition truthy (x : json) : bool :=
  match x with
  | JNull => false
  | JBool b => b
  | JInt n => negb (Z.eqb n 0)
  | JStr s => negb (bool_decide (s = ""))
  | JArr l => negb (bool_decide (l = []))
  | JObj d => negb (bool_decide (d = []))
  end.

Fixpoint str_chars (s : string) : list string :=
  match s with
  | EmptyString => []
  | String a s => String a EmptyString :: str_chars s
  end.

(** [for y in x]: a list gives its elements, a dict its keys, a string its
    characters; anything else is not iterable. *)
Definition py_iter (x : json) : result (list json) :=
  match x with
  | JArr l => Ok l
  | JObj d => Ok (JStr <$> dict_keys d)
  | JStr s => Ok (JStr <$> str_chars s)
  | _ => Raise TypeError
  end.

(** [[x2 for x1 in nested for x2 in x1]] *)
Fixpoint flatten (nested : list json) : result (list json) :=
  match nested with
  | [] => Ok []
  | x1 :: nested =>
      rbind (py_iter x1) (fun xs =>
      rbind (flatten nested) (fun ys => Ok (xs ++ ys)))
  end.

End Py.

(** ** [json.dumps] and the content fingerprint *)

Module Json.
Import Py.

(** Characters that cannot be written inside a string literal here. *)
Definition dquote : ascii := ascii_of_nat 34.
Definition backslash : ascii := ascii_of_nat 92.

Definition hex_digit (n : N) : ascii :=
  if (n <? 10)%N then ascii_of_N (48 + n) else ascii_of_N (87 + n).

(** One character of [py_encode_basestring_ascii]: the two-character
    escapes of [ESCAPE_DCT], [\u00xx] for every other character outside
    the printable ASCII range, the character itself otherwise. *)
Definition escape_char (a : ascii) : string :=
  let n := N_of_ascii a in
  if (n =? 92)%N then String backslash (String backslash "")
  else if (n =? 34)%N then String backslash (String dquote "")
  else if (n =? 8)%N then String backslash "b"
  else if (n =? 12)%N then String backslash "f"
  else if (n =? 10)%N then String backslash "n"
  else if (n =? 13)%N then String backslash "r"
  else if (n =? 9)%N then String backslash "t"
  else if (n <? 32)%N || (126 <? n)%N then
    String backslash
      (String "u" (String "0" (String "0"
         (String (hex_digit (n / 16)) (String (hex_digit (n mod 16)) "")))))
  else String a "".

Fixpoint escape_chars (s : string) : string :=
  match s with
  | EmptyString => ""
  | String a s => escape_char a +:+ escape_chars s
  end.

Definition encode_basestring_ascii (s : string) : string :=
  String dquote (escape_chars s +:+ String dquote "").

(** [repr] of an [int]. *)
Definition int_repr (n : Z) : string :=
  DecimalString.NilZero.string_of_int (Z.to_int n).

(** [", ".join(parts)] *)
Fixpoint join_comma (parts : list string) : string :=
  match parts with
  | [] => ""
  | [p] => p
  | p :: parts => p +:+ ", " +:+ join_comma parts
  end.

(** [sorted(items)] on the items of a dict: by key, in the order of the
    code points. Python's sort is stable and so is this insertion sort;
    the keys of a dict are distinct, which leaves one sorted order. *)
Fixpoint insert_item {V} (x : string * V) (l : list (string * V))
  : list (string * V) :=
  match l with
  | [] => [x]
  | y :: l' =>
      if decide (String.le x.1 y.1) then x :: y :: l' else y :: insert_item x l'
  end.

Definition sort_items {V} (l : list (string * V)) : list (string * V) :=
  foldr insert_item [] l.

(** An item of a dict whose value is already encoded. *)
Definition encode_item (kv : string * string) : string :=
  encode_basestring_ascii kv.1 +:+ ": " +:+ kv.2.

(** [json.dumps(x, sort_keys=sort_keys)] with the default separators and
    [ensure_ascii=True]. With [sort_keys] the items of every dict, at any
    depth, are written in the order of their keys. *)
Fixpoint dumps (sort_keys : bool) (x : json) : string :=
  match x with
  | JNull => "null"
  | JBool true => "true"
  | JBool false => "false"
  | JInt n => int_repr n
  | JStr s => encode_basestring_ascii s
  | JArr l => "[" +:+ join_comma (map (dumps sort_keys) l) +:+ "]"
  | JObj o =>
      let items := map (fun kv => (kv.1, dumps sort_keys kv.2)) o in
      let items := if sort_keys then sort_items items else items in
      "{" +:+ join_comma (map encode_item items) +:+ "}"
  end.

(** The value with the items of every dict in sorted order. *)
Fixpoint canon (x : json) : json :=
  match x with
  | JArr l => JArr (map canon l)
  | JObj o => JObj (sort_items (map (fun kv => (kv.1, canon kv.2)) o))
  | _ => x
  end.

Definition codes (s : string) : list nat :=
  (fix go s := match s with
               | EmptyString => []
               | String a s => nat_of_ascii a :: go s
               end) s.

End Json.

(** ** Calendar dates *)

Module Dates.
Import Py Json.

(** A [datetime.date], as its ordinal: day 1 is 0001-01-01. *)
Abbreviation date := Z (only parsing).

Definition is_leap (year : Z) : bool :=
  (year mod 4 =? 0) && (negb (year mod 100 =? 0) || (year mod 400 =? 0)).

Definition days_before_year (year : Z) : Z :=
  let y := year - 1 in y * 365 + y / 4 - y / 100 + y / 400.

Definition days_in_month_table : list Z :=
  [31; 28; 31; 30; 31; 30; 31; 31; 30; 31; 30; 31].

Definition days_in_month (year month : Z) : Z :=
  if (month =? 2) && is_leap year then 29
  else nth (Z.to_nat (month - 1)) days_in_month_table 0.

(** Days of the year before the first day of [month]. *)
Definition days_before_month (year month : Z) : Z :=
  nth (Z.to_nat (month - 1)) [0; 31; 59; 90; 120; 151; 181; 212; 243; 273; 304; 334] 0
  + (if (2 <? month) && is_leap year then 1 else 0).

(** [dt.date(year, month, day)] *)
Definition ymd2ord (year month day : Z) : date :=
  days_before_year year + days_before_month year month + day.

(** The inverse, [(date.year, date.month, date.day)]. *)
Definition ord2ymd (ord : date) : Z * Z * Z :=
  let n := ord - 1 in
  let n400 := n / 146097 in
  let n := n mod 146097 in
  let n100 := n / 36524 in
  let n := n mod 36524 in
  let n4 := n / 1461 in
  let n := n mod 1461 in
  let n1 := n / 365 in
  let n := n mod 365 in
  let year := n400 * 400 + 1 + n100 * 100 + n4 * 4 + n1 in
  if (n1 =? 4) || (n100 =? 4) then (year - 1, 12, 31)
  else
    let leapyear := (n1 =? 3) && (negb (n4 =? 24) || (n100 =? 3)) in
    let month := Z.shiftr (n + 50) 5 in
    let preceding :=
      days_before_month 1 month + (if (2 <? month) && leapyear then 1 else 0) in
    if n <? preceding then
      let month := month - 1 in
      let preceding :=
        preceding
        - (nth (Z.to_nat (month - 1)) days_in_month_table 0
           + (if (month =? 2) && leapyear then 1 else 0)) in
      (year, month, n - preceding + 1)
    else (year, month, n - preceding + 1).

Definition pad2 (n : Z) : string :=
  if n <? 10 then "0" +:+ int_repr n else int_repr n.

(** [date.strftime("%d-%m-%Y")], for years of four digits. *)
Definition strftime_dmy (d : date) : string :=
  let '(y, m, dd) := ord2ymd d in
  pad2 dd +:+ "-" +:+ pad2 m +:+ "-" +:+ int_repr y.

(** [dt_iterate(start, end, step)] collected into a list. The loop body runs
    while [start <= end]; [fuel] bounds the number of rounds and
    [dt_iterate] gives it enough of them for every [step >= 1]. *)
Fixpoint dt_iterate_loop (fuel : nat) (start end_ step : Z) : list Z :=
  match fuel with
  | O => []
  | S fuel =>
      if start <=? end_ then start :: dt_iterate_loop fuel (start + step) end_ step
      else []
  end.

Definition dt_iterate (start end_ step : Z) : result (list Z) :=
  if start <=? end_ then
    Ok (dt_iterate_loop (S (Z.to_nat (end_ - start))) start end_ step)
  else Raise (AssertionError "start should be less than end").

End Dates.

(** ** Data frames *)

Module Polars.
Import Py Json.

(** A cell that is not null: a value taken over from JSON, a date or a
    datetime (seconds since the epoch). *)
Inductive cell : Type :=
  | CJson (j : json)
  | CDate (d : Z)
  | CDatetime (t : Z).

Global Instance cell_eq_dec : EqDecision cell.
Proof. solve_decision. Defined.

(** A row maps a column name to its cell; a null cell is a missing key. *)
Abbreviation row := (gmap string cell).

(** A [DataFrame] without its dtypes: the column names, in order, and the
    rows. *)
Record frame : Type := Frame {
  columns : list string;
  rows : list row;
}.

(** [df.shape[0]] *)
Definition height (df : frame) : nat := length (rows df).

(** Names in the order of their first appearance. *)
Fixpoint first_seen (seen : list string) (names : list string) : list string :=
  match names with
  | [] => []
  | c :: names =>
      if decide (c ∈ seen) then first_seen seen names
      else c :: first_seen (c :: seen) names
  end.

Definition row_of_dict (d : dict) : row :=
  list_to_map
    (omap (fun kv => match kv.2 with
                     | JNull => None
                     | v => Some (kv.1, CJson v)
                     end) d).

Definition as_dict (x : json) : result dict :=
  match x with
  | JObj d => Ok d
  | _ => Raise TypeError
  end.

(** [pl.from_dicts(data)]: one row per dict, one column per key; an empty
    list has no schema to infer. *)
Definition from_dicts (data : list json) : result frame :=
  match data with
  | [] => Raise NoDataError
  | _ =>
      rbind (rmap as_dict data) (fun ds =>
      Ok (Frame (first_seen [] (concat (dict_keys <$> ds)))
                (row_of_dict <$> ds)))
  end.

Definition has_column (df : frame) (c : string) : bool :=
  bool_decide (c ∈ columns df).

(** An expression applied to the cells of column [c]; null stays null. *)
Definition map_cells (f : cell -> result cell) (c : string) (df : frame)
  : result frame :=
  rbind (rmap (fun r : row =>
                 match r !! c with
                 | Some v => rbind (f v) (fun v' => Ok (<[c := v']> r))
                 | None => Ok r
                 end) (rows df))
        (fun rs => Ok (Frame (columns df) rs)).

(** [df.with_columns(pl.col(c).f())]: column [c] has to exist. *)
Definition with_col (f : cell -> result cell) (c : string) (df : frame)
  : result frame :=
  if has_column df c then map_cells f c df
  else Raise (ColumnNotFoundError c).

(** [df.with_columns(cs.by_name(cols, require_all=False).f())]: the
    columns among [cols] that the frame has. *)
Fixpoint with_cols_by_name (f : cell -> result cell) (cols : list string)
    (df : frame) : result frame :=
  match cols with
  | [] => Ok df
  | c :: cols =>
      if has_column df c then
        rbind (map_cells f c df) (with_cols_by_name f cols)
      else with_cols_by_name f cols df
  end.

Definition add_column (c : string) (cols : list string) : list string :=
  if decide (c ∈ cols) then cols else cols ++ [c].

(** [df.with_columns(c=pl.lit(v))] *)
Definition with_lit (c : string) (v : cell) (df : frame) : frame :=
  Frame (add_column c (columns df)) ((fun r : row => <[c := v]> r) <$> rows df).

(** [df.with_columns(pl.Series(c, values))], [values] as long as the frame. *)
Definition with_series (c : string) (values : list cell) (df : frame) : frame :=
  Frame (add_column c (columns df))
        (zip_with (fun (r : row) v => <[c := v]> r) (rows df) values).

(** [pl.concat([a, b], how="diagonal_relaxed")]: the union of the columns,
    the rows of [a] then those of [b], null where a frame lacks a column. *)
Definition concat_diagonal (a b : frame) : frame :=
  Frame (first_seen [] (columns a ++ columns b)) (rows a ++ rows b).

(** The keys of the groups, each once. *)
Fixpoint group_keys (c : string) (seen : list (option cell)) (rs : list row)
  : list (option cell) :=
  match rs with
  | [] => []
  | r :: rs =>
      if decide (r !! c ∈ seen) then group_keys c seen rs
      else (r !! c) :: group_keys c ((r !! c) :: seen) rs
  end.

Definition group (c : string) (k : option cell) (rs : list row) : list row :=
  filter (fun r : row => r !! c = k) rs.

(** [df.group_by(c).tail(1)]: the last row of every group; rows with a
    null key form a group of their own. Polars leaves the order of the
    groups unspecified; here they come in the order of their first row. *)
Definition group_by_tail1 (c : string) (df : frame) : result frame :=
  if has_column df c then
    Ok (Frame (first_seen [] (c :: columns df))
              (omap (fun k => last (group c k (rows df)))
                    (group_keys c [] (rows df))))
  else Raise (ColumnNotFoundError c).

(** [json_dumps_list(x)] under [map_elements]: the list in a cell, written
    back as JSON text. *)
Definition json_dumps_list (x : cell) : result cell :=
  match x with
  | CJson (JArr l) => Ok (CJson (JStr (dumps false (JArr l))))
  | _ => Raise AttributeError
  end.

End Polars.

(** ** Library functions left open

    The digest and the strict conversions of polars are parameters of the
    development: nothing below depends on what they compute. *)

Class Externals : Type := {
  (** [hashlib.md5(b).hexdigest()] *)
  md5_hexdigest : string -> string;
  (** [.cast(pl.Int64)] *)
  cast_int64 : Polars.cell -> Py.result Polars.cell;
  (** [.str.to_date("%d-%m-%Y")] *)
  str_to_date : Polars.cell -> Py.result Polars.cell;
  (** [.str.to_datetime("%Y-%m-%d %H:%M:%S")] *)
  str_to_datetime : Polars.cell -> Py.result Polars.cell;
}.

(** ** The world a run acts on *)

Module Env.
Import Py Json Polars.

(** An HTTP GET to the API: the headers the client sets and the JSON body. *)
Record request : Type := Request {
  rq_headers : dict;
  rq_json : dict;
}.

Global Instance request_eq_dec : EqDecision request.
Proof. solve_decision. Defined.

(** What comes back from one attempt: a response (its status, whether it
    carries a [Retry-After] header, its body decoded as JSON if it is
    JSON), or no response at all. *)
Record response : Type := Response {
  status : Z;
  retry_after : bool;
  body : option json;
}.

Inductive reply : Type :=
  | Replied (r : response)
  | Unreachable.

Inductive disposition : Type := WRITE_EMPTY | WRITE_TRUNCATE | WRITE_APPEND.

(** The queries the scripts send to BigQuery. *)
Inductive query : Type :=
  (** [select * from `dataset.__TABLES__` where table_id = 't'] *)
  | QTables (t : string)
  (** [select * from `dataset.t`] *)
  | QSelectAll (t : string)
  (** [select max(col) as max_date from `dataset.t`] *)
  | QMax (col t : string)
  (** [select distinct col from `dataset.t` where col != ''] *)
  | QDistinctNonEmpty (col t : string).

Record slack_message : Type := SlackMessage {
  sm_channel : string;
  sm_text : string;
  sm_token : string;
}.

(** What a run does to the outside, newest first. *)
Inductive event : Type :=
  | EvHttp (rq : request)
  | EvQuery (q : query)
  | EvLoad (t : string) (d : disposition) (df : frame)
  | EvExcel (path : string) (sheets : list (string * frame))
  | EvSlack (m : slack_message).

(** The parameters of a run, as [get_params] returns them. *)
Record params : Type := Params {
  api_url : string;
  api_username : string;
  api_password : string;
  dataset : string;
  environment : string;
  slack_channel_id : string;
  slack_token : string;
}.

Record world : Type := World {
  (** [datetime.now().date()] *)
  today : Z;
  (** [datetime.now(dt.timezone.utc).replace(microsecond=0)] *)
  now_utc : Z;
  (** [os.getenv("RUN_URL")] *)
  run_url : option string;
  (** what [get_params] finds: the parameters, or the error it raises *)
  config : result params;
  (** the tables of the BigQuery dataset *)
  warehouse : gmap string frame;
  (** the remote API: its reply to the newest of all requests sent *)
  server : list request -> reply;
  (** what posting a message to Slack raises, if anything *)
  slack : slack_message -> option exn;
  (** the values [uuid.uuid4()] returns, and how many were drawn *)
  uuid_source : nat -> string;
  uuid_drawn : nat;
  (** how deep the interpreter lets calls nest before [RecursionError] *)
  recursion_limit : nat;
  log : list event;
}.

Definition set_warehouse (wh : gmap string frame) (w : world) : world :=
  World (today w) (now_utc w) (run_url w) (config w) wh (server w) (slack w)
        (uuid_source w) (uuid_drawn w) (recursion_limit w) (log w).

Definition set_uuid_drawn (n : nat) (w : world) : world :=
  World (today w) (now_utc w) (run_url w) (config w) (warehouse w) (server w)
        (slack w) (uuid_source w) n (recursion_limit w) (log w).

Definition emit (e : event) (w : world) : world :=
  World (today w) (now_utc w) (run_url w) (config w) (warehouse w) (server w)
        (slack w) (uuid_source w) (uuid_drawn w) (recursion_limit w)
        (e :: log w).

(** The requests sent to the API so far, newest first. *)
Definition http_sent (l : list event) : list request :=
  omap (fun e => match e with EvHttp rq => Some rq | _ => None end) l.

(** A computation with effects on the world that may raise. *)
Definition M (A : Type) : Type := world -> result A * world.

Definition ret {A} (a : A) : M A := fun w => (Ok a, w).
Definition raise {A} (e : exn) : M A := fun w => (Raise e, w).
Definition lift {A} (r : result A) : M A := fun w => (r, w).

Definition bind {A B} (m : M A) (k : A -> M B) : M B :=
  fun w =>
    match m w with
    | (Ok a, w') => k a w'
    | (Raise e, w') => (Raise e, w')
    end.

Fixpoint mapM {A B} (f : A -> M B) (l : list A) : M (list B) :=
  match l with
  | [] => ret []
  | a :: l =>
      bind (f a) (fun b => bind (mapM f l) (fun bs => ret (b :: bs)))
  end.

End Env.

Declare Scope m_scope.
Delimit Scope m_scope with M.
Notation "x <- m ;; k" := (Env.bind m (fun x => k))
  (at level 100, m at level 99, k at level 200, right associativity) : m_scope.
Notation "m ;; k" := (Env.bind m (fun _ => k))
  (at level 100, k at level 200, right associativity) : m_scope.
Notation "x <-? r ;; k" := (Py.rbind r (fun x => k))
  (at level 100, r at level 99, k at level 200, right associativity) : m_scope.
Local Open Scope m_scope.

(** ** The HTTP transport *)

Module Transport.
Import Py Env.

(** The retry policy of an [HTTPAdapter]: urllib3's [Retry]. *)
Record Retry : Type := {
  total : nat;
  backoff_factor : Q;
  status_forcelist : list Z;
}.

(** [Retry.RETRY_AFTER_STATUS_CODES] *)
Definition RETRY_AFTER_STATUS_CODES : list Z := [413; 429; 503].

(** [Retry.is_retry] for a GET, with [remaining] retries left of the total. *)
Definition is_retry (policy : Retry) (remaining : nat) (r : response) : bool :=
  bool_decide (status r ∈ status_forcelist policy)
  || (negb (Nat.eqb remaining 0) && retry_after r
      && bool_decide (status r ∈ RETRY_AFTER_STATUS_CODES)).

(** One attempt: the request goes out and the server replies. *)
Definition attempt (rq : request) : M reply :=
  fun w =>
    let w' := emit (EvHttp rq) w in
    (Ok (server w' (http_sent (log w'))), w').

(** The adapter's loop: an attempt that fails to connect, or whose
    response [is_retry], is made again while retries are left; once they
    are used up the failure is raised. The pauses between attempts
    ([backoff_factor]) are not part of the model. *)
Fixpoint urlopen (policy : Retry) (remaining : nat) (rq : request) : M response :=
  r <- attempt rq;;
  match r with
  | Replied resp =>
      if is_retry policy remaining resp then
        match remaining with
        | O => raise RetryError
        | S remaining => urlopen policy remaining rq
        end
      else ret resp
  | Unreachable =>
      match remaining with
      | O => raise ConnectionError
      | S remaining => urlopen policy remaining rq
      end
  end.

Definition session_get (policy : Retry) (rq : request) : M response :=
  urlopen policy (total policy) rq.

(** [requests.get]: the default adapter retries nothing. *)
Definition no_retry : Retry :=
  {| total := 0; backoff_factor := 0%Q; status_forcelist := [] |}.

Definition requests_get : request -> M response := session_get no_retry.

(** [response.raise_for_status()] *)
Definition raise_for_status (r : response) : M unit :=
  if (400 <=? status r) && (status r <? 600) then raise (HTTPError (status r))
  else ret tt.

(** [response.json()] *)
Definition response_json (r : response) : M json :=
  match body r with
  | Some data => ret data
  | None => raise JSONDecodeError
  end.

End Transport.

(** ** The authenticated client, [class Report]

    The class is the same in both scripts but for the call that sends a
    request, [requests.get] in one and [requests_retry_session().get] in
    the other; it is the parameter [http_get] here. *)

Module Client.
Import Py Json Dates Env Transport.

Record Report : Type := {
  url : string;
  username : string;
  password : string;
  key : json;
}.

(** [Report(base_url, username, password)] *)
Definition new_Report (base_url username password : string) : Report :=
  {| url := base_url; username := username; password := password;
     key := JNull |}.

Definition set_key (self : Report) (k : json) : Report :=
  {| url := url self; username := username self; password := password self;
     key := k |}.

(** [Report.has_token_expired(data)] *)
Definition has_token_expired (data : json) : result bool :=
  r <-? getitem data "result";;
  if decide (r = JStr "failed") then
    e <-? getitem data "error";;
    Ok (bool_decide (e ∈ [JStr "Invalid or token expired"; JStr "Expired token"]))
  else Ok false.

(** [self.headers] *)
Definition headers (self : Report) : dict :=
  [("Auth-Key", key self); ("Username", JStr (username self))].

Definition login_json (self : Report) : dict :=
  [("login", JBool true); ("username", JStr (username self));
   ("password", JStr (password self))].

Definition patient_training_json (date : Z) : dict :=
  [("get_total_ccp_class_attendancedata", JBool true);
   ("date", JStr (strftime_dmy date))].

Definition nurse_training_json (date : Z) : dict :=
  [("get_total_nurse_training_sessiondata", JBool true);
   ("date", JStr (strftime_dmy date))].

Definition nurse_details_json (phone_number : json) : dict :=
  [("get_nurses_detailes_data", JBool true); ("username", phone_number)].

(** [data["data"] if data["result"] == "success" else []] *)
Definition data_or_empty (data : json) : result json :=
  r <-? getitem data "result";;
  if decide (r = JStr "success") then getitem data "data" else Ok (JArr []).

(** [phone_number[-4:]], evaluated for the message that is printed: only
    a string or a list can be sliced. *)
Definition last_four (phone_number : json) : result unit :=
  match phone_number with
  | JStr _ | JArr _ => Ok tt
  | _ => Raise TypeError
  end.

Section Report.
Variable http_get : request -> M response.

Definition login (self : Report) : M Report :=
  response <- http_get (Request [] (login_json self));;
  raise_for_status response;;
  data <- response_json response;;
  r <- lift (getitem data "result");;
  if decide (r = JStr "success") then
    k <- lift (getitem data "Auth-Key");;
    ret (set_key self k)
  else raise (AssertionError "Login unsuccessful").

(** The three fetches call themselves again after a new login; [depth]
    is the number of nested calls still allowed. Each returns what it
    fetched and the client with the key it ends up with. *)
Fixpoint get_patient_training (depth : nat) (self : Report) (date : Z)
  : M (json * Report) :=
  match depth with
  | O => raise RecursionError
  | S depth =>
      response <- http_get (Request (headers self) (patient_training_json date));;
      raise_for_status response;;
      data <- response_json response;;
      expired <- lift (has_token_expired data);;
      if expired : bool then
        self <- login self;;
        get_patient_training depth self date
      else
        d <- lift (data_or_empty data);;
        ret (d, self)
  end.

Fixpoint get_nurse_training (depth : nat) (self : Report) (date : Z)
  : M (json * Report) :=
  match depth with
  | O => raise RecursionError
  | S depth =>
      response <- http_get (Request (headers self) (nurse_training_json date));;
      raise_for_status response;;
      data <- response_json response;;
      expired <- lift (has_token_expired data);;
      if expired : bool then
        self <- login self;;
        get_nurse_training depth self date
      else
        d <- lift (data_or_empty data);;
        ret (d, self)
  end.

Fixpoint get_nurse_details (depth : nat) (self : Report) (phone_number : json)
  : M (json * Report) :=
  match depth with
  | O => raise RecursionError
  | S depth =>
      response <- http_get (Request (headers self) (nurse_details_json phone_number));;
      raise_for_status response;;
      data <- response_json response;;
      expired <- lift (has_token_expired data);;
      if expired : bool then
        self <- login self;;
        get_nurse_details depth self phone_number
      else
        lift (last_four phone_number);;
        d <- lift (data_or_empty data);;
        ret (d, self)
  end.

(** A worker pool over one client shared by its threads: a key renewed
    by one unit is the key of the units after it. *)
Fixpoint map_shared {A} (f : Report -> A -> M (json * Report))
    (self : Report) (units : list A) : M (list json * Report) :=
  match units with
  | [] => ret ([], self)
  | u :: units =>
      r <- f self u;;
      rs <- map_shared f r.2 units;;
      ret (r.1 :: rs.1, rs.2)
  end.

(** A pool of processes: every unit works on its own copy of the client,
    and the parent's client keeps its key. *)
Definition map_copied {A} (f : Report -> A -> M (json * Report))
    (self : Report) (units : list A) : M (list json) :=
  mapM (fun u => r <- f self u;; ret r.1) units.

End Report.

End Client.

(** ** [api_export.py] *)

Module ApiExport.
Import Py Json Dates Polars Env Transport Client.

Section ApiExport.
Context `{Externals}.

(** [dict_hash(dictionary)]: the text that [json.dumps] writes is ASCII,
    so encoding it as UTF-8 changes nothing. *)
Definition dict_hash (dictionary : json) : string :=
  md5_hexdigest (dumps true dictionary).

(** *** BigQuery *)

Definition date_of_cell (c : cell) : option Z :=
  match c with CDate d => Some d | _ => None end.

(** [max(col)] over a DATE column: null on no rows or only nulls. *)
Definition max_date (col : string) (df : frame) : option Z :=
  foldr (fun (r : row) acc =>
           match r !! col ≫= date_of_cell, acc with
           | Some d, Some m => Some (Z.max d m)
           | Some d, None => Some d
           | None, _ => acc
           end) None (rows df).

Definition nonempty_text (c : cell) : option string :=
  match c with
  | CJson (JStr s) => if decide (s = "") then None else Some s
  | _ => None
  end.

(** What a query returns on the tables [wh]. *)
Definition run_query (q : query) (wh : gmap string frame) : result frame :=
  match q with
  | QTables t =>
      Ok (Frame ["table_id"]
            (match wh !! t with
             | Some _ => [{["table_id" := CJson (JStr t)]}]
             | None => []
             end))
  | QSelectAll t =>
      match wh !! t with
      | Some df => Ok df
      | None => Raise (NotFound t)
      end
  | QMax col t =>
      match wh !! t with
      | Some df =>
          Ok (Frame ["max_date"]
                [match max_date col df with
                 | Some d => {["max_date" := CDate d]}
                 | None => ∅
                 end])
      | None => Raise (NotFound t)
      end
  | QDistinctNonEmpty col t =>
      match wh !! t with
      | Some df =>
          Ok (Frame [col]
                ((fun s => {[col := CJson (JStr s)]})
                   <$> first_seen [] (omap (fun r : row => r !! col ≫= nonempty_text)
                                           (rows df))))
      | None => Raise (NotFound t)
      end
  end.

(** [read_bigquery(query, credentials)] *)
Definition read_bigquery (q : query) : M frame :=
  fun w => (run_query q (warehouse w), emit (EvQuery q) w).

(** [read_bigquery_exists(table_name, params)] *)
Definition read_bigquery_exists (table_name : string) : M bool :=
  df <- read_bigquery (QTables table_name);;
  ret (0 <? height df)%nat.

(** The table after a load job with the given write disposition. *)
Definition load (d : disposition) (old : option frame) (df : frame)
    (table_name : string) : result frame :=
  match d, old with
  | WRITE_TRUNCATE, _ => Ok df
  | WRITE_APPEND, Some old => Ok (concat_diagonal old df)
  | WRITE_APPEND, None => Ok df
  | WRITE_EMPTY, Some old =>
      if (0 <? height old)%nat then Raise (Conflict table_name) else Ok df
  | WRITE_EMPTY, None => Ok df
  end.

(** [write_bigquery(df, table_name, params, write_disposition)]. The
    schema sent with the job is derived from the dtypes of [df], which a
    [frame] does not carry. *)
Definition write_bigquery (df : frame) (table_name : string)
    (write_disposition : disposition) : M nat :=
  fun w =>
    let w' := emit (EvLoad table_name write_disposition df) w in
    match load write_disposition (warehouse w !! table_name) df table_name with
    | Ok t => (Ok (height df), set_warehouse (<[table_name := t]> (warehouse w)) w')
    | Raise e => (Raise e, w')
    end.

(** [df.item()] *)
Definition item (df : frame) : result (option cell) :=
  match columns df, rows df with
  | [c], [r] => Ok (r !! c)
  | _, _ => Raise ValueError
  end.

(** *** Local export and extraction columns *)

Definition item_le {V} (x y : string * V) : Prop := String.le x.1 y.1.

Global Instance item_le_dec {V} : RelDecision (@item_le V).
Proof. intros x y. unfold item_le. apply _. Defined.

(** [write_data_to_excel(data_frames, filepath)] *)
Definition write_data_to_excel (data_frames : list (string * frame))
    (filepath : string) : M unit :=
  fun w => (Ok tt, emit (EvExcel filepath (merge_sort item_le data_frames)) w).

(** [[str(uuid.uuid4()) for _ in range(n)]] *)
Definition draw_uuids (n : nat) : M (list string) :=
  fun w =>
    (Ok (uuid_source w <$> seq (uuid_drawn w) n),
     set_uuid_drawn (uuid_drawn w + n) w).

(** [add_extracted_columns(df, extracted_at)] *)
Definition add_extracted_columns (df : frame) (extracted_at : option Z)
  : M frame :=
  let df := match extracted_at with
            | Some t => with_lit "_extracted_at" (CDatetime t) df
            | None => df
            end in
  uuids <- draw_uuids (height df);;
  ret (with_series "_extracted_uuid" ((fun u => CJson (JStr u)) <$> uuids) df).

(** *** Failure notification *)

Definition newline : string := String (ascii_of_nat 10) "".

(** [str(e)] for the errors the scripts raise themselves; for the others
    the name of the error stands in for the library's message. *)
Definition exn_str (e : exn) : string :=
  match e with
  | Exception msg => msg
  | AssertionError msg => msg
  | KeyError k => "'" +:+ k +:+ "'"
  | UnboundLocalError n =>
      "cannot access local variable '" +:+ n
      +:+ "' where it is not associated with a value"
  | TypeError => "TypeError"
  | IndexError => "list index out of range"
  | AttributeError => "AttributeError"
  | RecursionError => "maximum recursion depth exceeded"
  | HTTPError st => int_repr st +:+ " Error"
  | ConnectionError => "ConnectionError"
  | RetryError => "RetryError"
  | JSONDecodeError => "JSONDecodeError"
  | NoDataError => "no data, cannot infer schema"
  | ColumnNotFoundError c => c
  | InvalidOperationError => "InvalidOperationError"
  | ValueError => "ValueError"
  | NotFound t => "Not found: Table " +:+ t
  | Conflict t => "Already Exists: Table " +:+ t
  | SlackApiError _ => "SlackApiError"
  | SlackClientError => "SlackClientError"
  end.

(** [get_slack_message_text(e)] *)
Definition get_slack_message_text (e : exn) : M string :=
  fun w =>
    let text :=
      ":warning: Sync for CCP Andhra Pradesh failed with the following error:"
      +:+ newline +:+ newline +:+ "`" +:+ exn_str e +:+ "`" in
    (Ok match run_url w with
        | Some u =>
            text +:+ newline +:+ newline
            +:+ "Please see the GitHub Actions <" +:+ u +:+ "|workflow run log>."
        | None => text
        end, w).

(** [send_message_to_slack(text, channel_id, token)]: a [SlackApiError]
    is caught and its response asserted to name an error; anything else
    the client raises passes through. *)
Definition send_message_to_slack (text channel_id token : string) : M unit :=
  fun w =>
    let m := SlackMessage channel_id text token in
    let w' := emit (EvSlack m) w in
    match slack w m with
    | None => (Ok tt, w')
    | Some (SlackApiError response) =>
        match response with
        | JObj d =>
            match dict_get d "error" with
            | Some v => if truthy v then (Ok tt, w')
                        else (Raise (AssertionError ""), w')
            | None => (Raise (AssertionError ""), w')
            end
        | _ => (Raise (AssertionError ""), w')
        end
    | Some e => (Raise e, w')
    end.

(** [get_params()] *)
Definition get_params : M params := fun w => (config w, w).

(** *** Fetching and normalising *)

(** The command line: [--dest], [--start-date], [--end-date]. *)
Inductive destination : Type := bigquery | local.

Record Args : Type := {
  dest : destination;
  start_date : option Z;
  end_date : option Z;
}.

(** [dict(start=..., end=...)] *)
Record Dates : Type := { start : Z; end_ : Z }.

Definition get_recursion_limit : M nat :=
  fun w => (Ok (recursion_limit w), w).

(** [x["md5"] = dict_hash(x)] *)
Definition set_md5 (x : json) : result json :=
  match x with
  | JObj d => Ok (JObj (dict_set d "md5" (JStr (dict_hash x))))
  | _ => Raise TypeError
  end.

(** [s.split(",")] *)
Fixpoint split_comma (s : string) : list string :=
  match s with
  | EmptyString => [""]
  | String a s =>
      let parts := split_comma s in
      if decide (a = ","%char) then "" :: parts
      else match parts with
           | p :: ps => String a p :: ps
           | [] => [String a ""]
           end
  end.

(** [x1["session_conducted_by"].split(",")] *)
Definition conducted_by (x1 : json) : result (list json) :=
  v <-? getitem x1 "session_conducted_by";;
  match v with
  | JStr s => Ok (JStr <$> split_comma s)
  | _ => Raise AttributeError
  end.

(** [i.get(field)], and when it is truthy the ["phone_no"] of each of
    its elements. *)
Definition phones_of (field : string) (i : json) : result (list json) :=
  match i with
  | JObj d =>
      match dict_get d field with
      | Some v =>
          if truthy v then
            people <-? py_iter v;;
            rmap (fun person => getitem person "phone_no") people
          else Ok []
      | None => Ok []
      end
  | _ => Raise AttributeError
  end.

Definition hashable (x : json) : bool :=
  match x with JArr _ | JObj _ => false | _ => true end.

Fixpoint distinct (seen : list json) (xs : list json) : list json :=
  match xs with
  | [] => []
  | x :: xs =>
      if decide (x ∈ seen) then distinct seen xs
      else x :: distinct (x :: seen) xs
  end.

(** [list(set(xs))]: the order of a set is not specified; the elements
    come in the order they first occur in. *)
Definition list_set (xs : list json) : result (list json) :=
  if forallb hashable xs then Ok (distinct [] xs) else Raise TypeError.

Definition concat_results (f : json -> result (list json)) (xs : list json)
  : result (list json) :=
  ls <-? rmap f xs;; Ok (concat ls).

(** [class Report] of this script: every request goes out through
    [requests.get]. *)
Definition login := Client.login requests_get.
Definition get_patient_training := Client.get_patient_training requests_get.
Definition get_nurse_training := Client.get_nurse_training requests_get.
Definition get_nurse_details := Client.get_nurse_details requests_get.

(** The first half of [read_data_from_api]: the login and the two pools,
    giving the client, the depth left and the two flattened lists. *)
Definition fetch_trainings (params : params) (dates : Dates)
  : M (Report * nat * list json * list json) :=
  let report := new_Report (api_url params) (api_username params)
                           (api_password params) in
  report <- login report;;
  depth <- get_recursion_limit;;
  units <- lift (dt_iterate (start dates) (end_ dates) 1);;
  patient_trainings_nested <-
    map_copied (get_patient_training depth) report units;;
  patient_trainings <- lift (flatten patient_trainings_nested);;
  units <- lift (dt_iterate (start dates) (end_ dates) 1);;
  nurse_trainings_nested <-
    map_copied (get_nurse_training depth) report units;;
  nurse_trainings <- lift (flatten nurse_trainings_nested);;
  ret (report, depth, patient_trainings, nurse_trainings).

(** The second half, from [if not patient_trainings: return] on. *)
Definition tables_of_trainings (report : Report) (depth : nat)
    (patient_trainings nurse_trainings : list json)
  : M (option (list (string * frame))) :=
  match patient_trainings with
  | [] => ret None
  | _ =>
      patient_trainings <- lift (rmap set_md5 patient_trainings);;
      nurse_trainings <- lift (rmap set_md5 nurse_trainings);;
      phones_in_patient_trainings <-
        lift (concat_results conducted_by patient_trainings);;
      phones_in_nurse_trainings <-
        lift (concat_results
                (fun i => a <-? phones_of "trainerdata1" i;;
                          b <-? phones_of "traineesdata1" i;;
                          Ok (a ++ b)) nurse_trainings);;
      all_phones <-
        lift (list_set (phones_in_patient_trainings ++ phones_in_nurse_trainings));;
      nurse_details_nested <-
        map_copied (get_nurse_details depth) report all_phones;;
      nurses <- lift (flatten nurse_details_nested);;
      nurses_df <- lift (
        df <-? from_dicts nurses;;
        with_cols_by_name str_to_datetime ["user_created_dateandtime"] df);;
      patient_trainings_df <- lift (
        df <-? from_dicts patient_trainings;;
        df <-? with_cols_by_name cast_int64
                 ["mothers_trained"; "family_members_trained"; "total_trained"] df;;
        df <-? with_col str_to_date "date_of_session" df;;
        with_cols_by_name json_dumps_list ["data1"] df);;
      nurse_trainings_df <- lift (
        df <-? from_dicts nurse_trainings;;
        df <-? with_cols_by_name cast_int64
                 ["totalmaster_trainer"; "total_trainees"] df;;
        df <-? with_cols_by_name str_to_date ["sessiondateandtime"] df;;
        with_cols_by_name json_dumps_list ["trainerdata1"; "traineesdata1"] df);;
      ret (Some [("nurses", nurses_df);
                 ("patient_training_sessions", patient_trainings_df);
                 ("nurse_training_sessions", nurse_trainings_df)])
  end.

(** [read_data_from_api(params, dates)]: [None] when no patient training
    was fetched, the three tables otherwise. *)
Definition read_data_from_api (params : params) (dates : Dates)
  : M (option (list (string * frame))) :=
  fetched <- fetch_trainings params dates;;
  let '(report, depth, patient_trainings, nurse_trainings) := fetched in
  tables_of_trainings report depth patient_trainings nurse_trainings.

(** *** Loading *)

Definition write_dispositions : list (string * disposition) :=
  [("nurses", WRITE_TRUNCATE);
   ("patient_training_sessions", WRITE_APPEND);
   ("nurse_training_sessions", WRITE_APPEND)].

(** [for key in data_frames: data_frames[key] = add_extracted_columns(...)] *)
Fixpoint add_extracted_to_all (extracted_at : Z)
    (data_frames : list (string * frame)) : M (list (string * frame)) :=
  match data_frames with
  | [] => ret []
  | (key, df) :: data_frames =>
      df <- add_extracted_columns df (Some extracted_at);;
      rest <- add_extracted_to_all extracted_at data_frames;;
      ret ((key, df) :: rest)
  end.

(** The nurses to write: the last row per username of the table in the
    warehouse followed by the rows just fetched. *)
Definition merge_nurses (data_frames : list (string * frame))
  : M (list (string * frame)) :=
  nurses_old <- read_bigquery (QSelectAll "nurses");;
  nurses_new <- lift (dict_item data_frames "nurses");;
  let nurses_concat := concat_diagonal nurses_old nurses_new in
  merged <- lift (group_by_tail1 "username" nurses_concat);;
  ret (dict_set data_frames "nurses" merged).

Fixpoint write_tables (data_frames : list (string * frame))
    (table_names : list string) : M unit :=
  match table_names with
  | [] => ret tt
  | table_name :: table_names =>
      df <- lift (dict_item data_frames table_name);;
      d <- lift (dict_item write_dispositions table_name);;
      write_bigquery df table_name d;;
      write_tables data_frames table_names
  end.

(** [write_data_to_bigquery(params, data_frames)] *)
Definition write_data_to_bigquery (data_frames : list (string * frame))
  : M unit :=
  extracted_at <- (fun w => (Ok (now_utc w), w));;
  data_frames <- add_extracted_to_all extracted_at data_frames;;
  exists_ <- read_bigquery_exists "nurses";;
  data_frames <- (if exists_ : bool then merge_nurses data_frames
                  else ret data_frames);;
  write_tables data_frames (merge_sort String.le (dict_keys data_frames)).

(** *** The date range *)

(** [date - timedelta(days=n)] on what [df.item()] gave. *)
Definition sub_days (c : cell) (n : Z) : result Z :=
  match c with
  | CDate d => Ok (d - n)
  | _ => Raise TypeError
  end.

Definition get_today : M Z := fun w => (Ok (today w), w).

(** [get_dates_from_bigquery(params, default_start_date, overlap)] *)
Definition get_dates_from_bigquery (default_start_date overlap : Z) : M Dates :=
  let table_name := "patient_training_sessions" in
  let col_name := "date_of_session" in
  now <- get_today;;
  let dates := {| start := default_start_date; end_ := now - 1 |} in
  exists_ <- read_bigquery_exists table_name;;
  if exists_ : bool then
    df <- read_bigquery (QMax col_name table_name);;
    max_date <- lift (item df);;
    match max_date with
    | Some d =>
        s <- lift (sub_days d (overlap - 1));;
        ret {| start := s; end_ := end_ dates |}
    | None => ret dates
    end
  else ret dates.

(** The defaults of [get_dates_from_bigquery]. *)
Definition default_start_date : Z := ymd2ord 2023 6 1.
Definition default_overlap : Z := 30.

(** The first half of [get_dates]: the range before it is checked. *)
Definition resolve_dates (args : Args) (today : Z) : M Dates :=
  match dest args with
  | bigquery => get_dates_from_bigquery default_start_date default_overlap
  | local =>
      let dates := {| start := today - 7; end_ := today - 1 |} in
      let dates := match start_date args with
                   | Some d => {| start := d; end_ := end_ dates |}
                   | None => dates
                   end in
      let dates := match end_date args with
                   | Some d => {| start := start dates; end_ := d |}
                   | None => dates
                   end in
      ret dates
  end.

(** The second half: the two checks. *)
Definition check_dates (today : Z) (dates : Dates) : result Dates :=
  if end_ dates <? start dates then
    Raise (Exception "Start date cannot be later than end date.")
  else if today <? end_ dates then
    Raise (Exception "End date cannot be later than today.")
  else Ok dates.

(** [get_dates(args, params)] *)
Definition get_dates (args : Args) : M Dates :=
  today <- get_today;;
  dates <- resolve_dates args today;;
  lift (check_dates today dates).

(** *** The run *)

(** The body of the [try] in [main], from the point where [params] is
    bound. *)
Definition main_try (args : Args) (params : params) : M unit :=
  dates <- get_dates args;;
  data <- read_data_from_api params dates;;
  match data with
  | None => ret tt
  | Some data =>
      match dest args with
      | bigquery => write_data_to_bigquery data
      | local => write_data_to_excel data "data.xlsx"
      end
  end.

(** The [except Exception as e] clause of [main]. [params] is [None]
    when the error was raised before the name was bound. *)
Definition main_except (params : option params) (e : exn) : M unit :=
  match params with
  | None => raise (UnboundLocalError "params")
  | Some params =>
      (if decide (environment params = "prod") then
         text <- get_slack_message_text e;;
         send_message_to_slack text (slack_channel_id params) (slack_token params)
       else ret tt);;
      raise e
  end.

(** [main()], after [parse_args()]: a command line that does not parse
    ends the process with [SystemExit], which is no [Exception]. *)
Definition main (args : Args) : M unit :=
  fun w =>
    match get_params w with
    | (Raise e, w) => main_except None e w
    | (Ok params, w) =>
        match main_try args params w with
        | (Raise e, w) => main_except (Some params) e w
        | (Ok v, w) => (Ok v, w)
        end
    end.

End ApiExport.
End ApiExport.

(** ** [get_params] of [api_export.py]

    The function reads the process environment, [params.yaml] and, in a
    run outside GitHub Actions, three files under [secrets], and puts the
    parameters of the run together. What it reads, the two parsers and
    the constructor of the credentials are the [host]; the parameters
    [main] needs of the result are the record [params] above. *)

Module Config.
Import Py Json.

Record host : Type := Host {
  (** [os.getenv(name)] *)
  getenv : string -> option string;
  (** [open(filepath)] and [f.read()]: the text, or what [open] raises *)
  read_file : string -> result string;
  (** the same for [open(Path("secrets", name))], where [name] is what
      the caller has: a text or not *)
  read_secret : json -> result string;
  (** [yaml.safe_load] of a text, or of [None] *)
  yaml_safe_load : option string -> result json;
  (** [json.loads(text)] *)
  json_loads : string -> result json;
  (** what [Credentials.from_service_account_info(info)] raises, if it
      raises *)
  service_account_info_error : json -> option exn;
}.

(** A value of the parameters: what YAML or JSON gave, or the credentials
    made from the service account key [info]. *)
Inductive value : Type :=
  | VJson (j : json)
  | VCredentials (info : json).

Definition linefeed : ascii := ascii_of_nat 10.

Fixpoint lstrip_linefeeds (s : string) : string :=
  match s with
  | String a s' => if decide (a = linefeed) then lstrip_linefeeds s' else s
  | EmptyString => EmptyString
  end.

Fixpoint rstrip_linefeeds (s : string) : string :=
  match s with
  | String a s' =>
      match rstrip_linefeeds s' with
      | EmptyString => if decide (a = linefeed) then EmptyString
                       else String a EmptyString
      | r => String a r
      end
  | EmptyString => EmptyString
  end.

(** [s.strip("\n")] *)
Definition strip_linefeeds (s : string) : string :=
  rstrip_linefeeds (lstrip_linefeeds s).

(** [x[k] = v] on any value: only a dict takes an item under a text. *)
Definition setitem (x : json) (k : string) (v : json) : result json :=
  match x with
  | JObj d => Ok (JObj (dict_set d k v))
  | _ => Raise TypeError
  end.

(** [del d[k]], for a key that is there. *)
Fixpoint dict_del {V} (d : list (string * V)) (k : string)
  : list (string * V) :=
  match d with
  | [] => []
  | (k', v) :: d => if decide (k' = k) then d else (k', v) :: dict_del d k
  end.

(** [params.update(y)]: the items of [y] in their order. *)
Definition dict_update (params : list (string * value)) (y : dict)
  : list (string * value) :=
  foldl (fun p kv => dict_set p kv.1 (VJson kv.2)) params y.

Definition opt_str (o : option string) : json :=
  match o with
  | Some s => JStr s
  | None => JNull
  end.

(** [[x for x in xs if x["name"] == envir]] *)
Fixpoint with_name (envir : string) (xs : list json) : result (list json) :=
  match xs with
  | [] => Ok []
  | x :: xs =>
      n <-? getitem x "name";;
      rest <-? with_name envir xs;;
      Ok (if decide (n = JStr envir) then x :: rest else rest)
  end.

(** [get_params(filepath)] *)
Definition get_params (h : host) (filepath : string)
  : result (list (string * value)) :=
  let github_ref_name := getenv h "GITHUB_REF_NAME" in
  text <-? read_file h filepath;;
  params <-? yaml_safe_load h (Some text);;
  let key := "service_account_key" in
  params <-?
    match github_ref_name with
    | None =>
        name <-? getitem params key;;
        text <-? read_secret h name;;
        info <-? json_loads h text;;
        params <-? setitem params key info;;
        text <-? read_secret h (JStr "slack_token.txt");;
        params <-? setitem params "slack_token" (JStr (strip_linefeeds text));;
        text <-? read_secret h (JStr "api.yaml");;
        api <-? yaml_safe_load h (Some text);;
        setitem params "api" api
    | Some _ =>
        info <-? match getenv h "SERVICE_ACCOUNT_KEY" with
                 | Some text => json_loads h text
                 | None => Raise TypeError
                 end;;
        params <-? setitem params key info;;
        params <-? setitem params "slack_token"
                     (opt_str (getenv h "SLACK_TOKEN"));;
        api <-? yaml_safe_load h (getenv h "API_PARAMS");;
        setitem params "api" api
    end;;
  info <-? getitem params key;;
  match service_account_info_error h info with
  | Some e => Raise e
  | None =>
      d <-? match params with JObj d => Ok d | _ => Raise TypeError end;;
      let params : list (string * value) := (fun kv => (kv.1, VJson kv.2)) <$> d in
      let params := dict_set params "credentials" (VCredentials info) in
      let params := dict_del params key in
      let envir :=
        if decide (github_ref_name = Some "main") then "prod" else "dev" in
      environments <-?
        match dict_get params "environments" with
        | Some (VJson j) => Ok j
        | Some (VCredentials _) => Raise TypeError
        | None => Raise (KeyError "environments")
        end;;
      entries <-? py_iter environments;;
      named <-? with_name envir entries;;
      y <-? match named with
            | y :: _ => Ok y
            | [] => Raise IndexError
            end;;
      y <-? match y with JObj d => Ok d | _ => Raise TypeError end;;
      name <-? dict_item y "name";;
      let y := dict_set (dict_del y "name") "environment" name in
      let params := dict_del params "environments" in
      let params := dict_update params y in
      Ok (dict_set params "github_ref_name" (VJson (opt_str github_ref_name)))
  end.

End Config.

(** ** [src/andhra_pradesh_ccp.py] *)

Module AndhraPradeshCcp.
Import Py Json Dates Polars Env Transport Client.

(** The module [utils] that the script imports. *)
Module utils.
Section utils.
Context `{Externals}.

(** Modelled from the spec: [utils.read_bigquery] is not among the
    sources. The warehouse "answers existence/max value queries"; the
    function is taken to be [read_bigquery] of [api_export.py]. *)
Definition read_bigquery : query -> M frame := ApiExport.read_bigquery.

(** Modelled from the spec: [utils.read_bigquery_exists] is not among the
    sources. "[tableExists] must tolerate a not-yet-created table
    (treated as does not exist, not an error)"; taken to be
    [read_bigquery_exists] of [api_export.py]. *)
Definition read_bigquery_exists : string -> M bool :=
  ApiExport.read_bigquery_exists.

(** Modelled from the spec: [utils.write_bigquery] is not among the
    sources. It "loads normalized tables into the warehouse" under the
    write disposition it is given; taken to be [write_bigquery] of
    [api_export.py]. *)
Definition write_bigquery : frame -> string -> disposition -> M nat :=
  ApiExport.write_bigquery.

(** Modelled from the spec: [utils.add_extracted_columns] is not among
    the sources. "Every row in every table receives the run's shared
    extraction timestamp and a freshly generated unique row identifier";
    taken to be [add_extracted_columns] of [api_export.py]. *)
Definition add_extracted_columns : frame -> option Z -> M frame :=
  ApiExport.add_extracted_columns.

(** Modelled from the spec: [utils.json_dumps_list] is not among the
    sources. Nested lists are serialized "to a string form for flat
    storage (a lossless, re-parseable JSON array encoding)"; taken to be
    [json_dumps_list] of [api_export.py]. *)
Definition json_dumps_list : cell -> result cell := Polars.json_dumps_list.

(** Modelled from the spec: [utils.get_params] is not among the sources;
    it yields the parameters of the run, among them the environment and
    the Slack channel and token. *)
Definition get_params (source_name : string) : M params :=
  ApiExport.get_params.

(** Modelled from the spec: [utils.get_slack_message_text] is not among
    the sources; the notification is "invoked with a formatted message
    string". The text of [api_export.py] stands in for it. *)
Definition get_slack_message_text (e : exn) (source_name : string) : M string :=
  ApiExport.get_slack_message_text e.

(** Modelled from the spec: [utils.send_message_to_slack] is not among
    the sources; it posts the message to the channel with the token.
    Taken to be [send_message_to_slack] of [api_export.py]. *)
Definition send_message_to_slack : string -> string -> string -> M unit :=
  ApiExport.send_message_to_slack.

End utils.
End utils.

Section AndhraPradeshCcp.
Context `{Externals}.

(** [dict_hash(dictionary)] *)
Definition dict_hash (dictionary : json) : string :=
  md5_hexdigest (dumps true dictionary).

(** [requests_retry_session(total, backoff_factor, status_forcelist)]:
    a session whose adapter for [http://] and [https://] retries under
    this policy. *)
Definition requests_retry_session (total : nat) (backoff_factor : Q)
    (status_forcelist : list Z) : Retry :=
  {| total := total; backoff_factor := backoff_factor;
     status_forcelist := status_forcelist |}.

(** The defaults, as every call in [Report] uses them. *)
Definition default_retry_session : Retry :=
  requests_retry_session 10 (1 # 2) [500; 502; 503; 504].

(** [requests_retry_session().get(self.url, ...)] *)
Definition http_get : request -> M response :=
  session_get default_retry_session.

Definition login := Client.login http_get.
Definition get_patient_training := Client.get_patient_training http_get.
Definition get_nurse_training := Client.get_nurse_training http_get.
Definition get_nurse_details := Client.get_nurse_details http_get.

Definition Dates := ApiExport.Dates.
Definition Args := ApiExport.Args.

Definition set_md5 (x : json) : result json :=
  match x with
  | JObj d => Ok (JObj (dict_set d "md5" (JStr (dict_hash x))))
  | _ => Raise TypeError
  end.

(** The table of the patient trainings, from records that are not empty. *)
Definition patient_trainings_frame (patient_trainings : list json)
  : result frame :=
  df <-? from_dicts patient_trainings;;
  df' <-? with_col str_to_date "date_of_session" df;;
  df' <-? with_cols_by_name cast_int64
            ["mothers_trained"; "family_members_trained"; "total_trained"] df';;
  with_cols_by_name utils.json_dumps_list ["data1"] df'.

Definition nurse_trainings_frame (nurse_trainings : list json)
  : result frame :=
  df <-? from_dicts nurse_trainings;;
  df' <-? with_cols_by_name str_to_date ["sessiondateandtime"] df;;
  df' <-? with_cols_by_name cast_int64
            ["totalmaster_trainer"; "total_trainees"] df';;
  with_cols_by_name utils.json_dumps_list ["trainerdata1"; "traineesdata1"] df'.

(** The second half of [read_sessions_data_from_api]: fingerprints, then
    one table for each kind that has records. *)
Definition sessions_frames (patient_trainings nurse_trainings : list json)
  : result (list (string * frame)) :=
  patient_trainings <-? rmap set_md5 patient_trainings;;
  nurse_trainings <-? rmap set_md5 nurse_trainings;;
  let data_frames := [] in
  data_frames <-?
    match patient_trainings with
    | [] => Ok data_frames
    | _ =>
        df <-? patient_trainings_frame patient_trainings;;
        Ok (dict_set data_frames "patient_training_sessions" df)
    end;;
  match nurse_trainings with
  | [] => Ok data_frames
  | _ =>
      df <-? nurse_trainings_frame nurse_trainings;;
      Ok (dict_set data_frames "nurse_training_sessions" df)
  end.

(** [read_sessions_data_from_api(params, dates)] *)
Definition read_sessions_data_from_api (params : params) (dates : Dates)
  : M (list (string * frame)) :=
  let report := new_Report (api_url params) (api_username params)
                           (api_password params) in
  report <- login report;;
  depth <- ApiExport.get_recursion_limit;;
  iter_dates <- lift (dt_iterate (ApiExport.start dates) (ApiExport.end_ dates) 1);;
  fetched <- map_shared (get_patient_training depth) report iter_dates;;
  patient_trainings <- lift (flatten fetched.1);;
  fetched <- map_shared (get_nurse_training depth) fetched.2 iter_dates;;
  nurse_trainings <- lift (flatten fetched.1);;
  lift (sessions_frames patient_trainings nurse_trainings).

Definition text_of_cell (c : cell) : option string :=
  match c with CJson (JStr s) => Some s | _ => None end.

Fixpoint distinct_strings (seen : list string) (xs : list string) : list string :=
  match xs with
  | [] => []
  | x :: xs =>
      if decide (x ∈ seen) then distinct_strings seen xs
      else x :: distinct_strings (x :: seen) xs
  end.

(** [read_nurse_phones_from_bigquery(params)] *)
Definition read_nurse_phones_from_bigquery : M (list string) :=
  let col_name := "session_conducted_by" in
  phones_raw <-
    utils.read_bigquery (QDistinctNonEmpty col_name "patient_training_sessions");;
  if has_column phones_raw col_name then
    let texts := omap (fun r : row => r !! col_name ≫= text_of_cell)
                      (rows phones_raw) in
    ret (merge_sort String.le
           (distinct_strings [] (concat (ApiExport.split_comma <$> texts))))
  else raise (ColumnNotFoundError col_name).

(** The second half of [read_nurses_data_from_api]: no table when no
    nurse was fetched. *)
Definition nurses_frames (nurses : list json) : result (list (string * frame)) :=
  let data_frames := [] in
  match nurses with
  | [] => Ok data_frames
  | _ =>
      df <-? from_dicts nurses;;
      df <-? with_cols_by_name str_to_datetime ["user_created_dateandtime"] df;;
      Ok (dict_set data_frames "nurses" df)
  end.

(** [read_nurses_data_from_api(params, nurse_phones)] *)
Definition read_nurses_data_from_api (params : params) (nurse_phones : list string)
  : M (list (string * frame)) :=
  let report := new_Report (api_url params) (api_username params)
                           (api_password params) in
  report <- login report;;
  depth <- ApiExport.get_recursion_limit;;
  fetched <- map_shared (get_nurse_details depth) report (JStr <$> nurse_phones);;
  nurses <- lift (flatten fetched.1);;
  lift (nurses_frames nurses).

(** [write_data_to_excel(data_frames, filepath)] *)
Definition write_data_to_excel (data_frames : list (string * frame))
    (filepath : string) : M unit :=
  fun w =>
    (Ok tt, emit (EvExcel filepath (merge_sort ApiExport.item_le data_frames)) w).

Definition write_dispositions : list (string * disposition) :=
  [("nurses", WRITE_TRUNCATE);
   ("patient_training_sessions", WRITE_APPEND);
   ("nurse_training_sessions", WRITE_APPEND)].

(** The loop of [write_data_to_bigquery] over the keys of the dict. *)
Fixpoint write_each (extracted_at : Z) (data_frames : list (string * frame))
  : M unit :=
  match data_frames with
  | [] => ret tt
  | (key, df) :: data_frames =>
      df <- utils.add_extracted_columns df (Some extracted_at);;
      d <- lift (dict_item write_dispositions key);;
      utils.write_bigquery df key d;;
      write_each extracted_at data_frames
  end.

(** [write_data_to_bigquery(params, data_frames)] *)
Definition write_data_to_bigquery (data_frames : list (string * frame))
  : M unit :=
  extracted_at <- (fun w => (Ok (now_utc w), w));;
  write_each extracted_at data_frames.

(** [get_dates_from_bigquery(params, default_start_date, overlap)] *)
Definition get_dates_from_bigquery (default_start_date overlap : Z) : M Dates :=
  let table_name := "patient_training_sessions" in
  let col_name := "date_of_session" in
  now <- ApiExport.get_today;;
  let dates := {| ApiExport.start := default_start_date;
                  ApiExport.end_ := now - 1 |} in
  exists_ <- utils.read_bigquery_exists table_name;;
  if exists_ : bool then
    df <- utils.read_bigquery (QMax col_name table_name);;
    max_date <- lift (ApiExport.item df);;
    match max_date with
    | Some d =>
        s <- lift (ApiExport.sub_days d (overlap - 1));;
        ret {| ApiExport.start := s; ApiExport.end_ := ApiExport.end_ dates |}
    | None => ret dates
    end
  else ret dates.

Definition default_start_date : Z := ymd2ord 2023 6 1.
Definition default_overlap : Z := 30.

(** The first half of [get_dates]: the range before it is checked. *)
Definition resolve_dates (args : Args) (today : Z) : M Dates :=
  match ApiExport.dest args with
  | ApiExport.bigquery =>
      get_dates_from_bigquery default_start_date default_overlap
  | ApiExport.local =>
      let dates := {| ApiExport.start := today - 7;
                      ApiExport.end_ := today - 1 |} in
      let dates := match ApiExport.start_date args with
                   | Some d => {| ApiExport.start := d;
                                  ApiExport.end_ := ApiExport.end_ dates |}
                   | None => dates
                   end in
      let dates := match ApiExport.end_date args with
                   | Some d => {| ApiExport.start := ApiExport.start dates;
                                  ApiExport.end_ := d |}
                   | None => dates
                   end in
      ret dates
  end.

Definition check_dates (today : Z) (dates : Dates) : result Dates :=
  if ApiExport.end_ dates <? ApiExport.start dates then
    Raise (Exception "Start date cannot be later than end date.")
  else if today <? ApiExport.end_ dates then
    Raise (Exception "End date cannot be later than today.")
  else Ok dates.

(** [get_dates(args, params)] *)
Definition get_dates (args : Args) : M Dates :=
  today <- ApiExport.get_today;;
  dates <- resolve_dates args today;;
  lift (check_dates today dates).

Inductive entity : Type := sessions | nurses.

(** The fetch of one round of the loop in [main]. *)
Definition read_entity (entity : entity) (params : params) (dates : Dates)
  : M (list (string * frame)) :=
  match entity with
  | sessions => read_sessions_data_from_api params dates
  | nurses =>
      nurse_phones <- read_nurse_phones_from_bigquery;;
      read_nurses_data_from_api params nurse_phones
  end.

(** [for entity in [...]] in [main]: a round that fetched something
    returns from [main]; a round that fetched nothing writes and goes on
    to the next entity. *)
Fixpoint for_entities (args : Args) (params : params) (dates : Dates)
    (entities : list entity) : M unit :=
  match entities with
  | [] => ret tt
  | entity :: entities =>
      data <- read_entity entity params dates;;
      if (0 <? length data)%nat then ret tt
      else
        (match ApiExport.dest args with
         | ApiExport.bigquery => write_data_to_bigquery data
         | ApiExport.local => write_data_to_excel data "data.xlsx"
         end);;
        for_entities args params dates entities
  end.

Definition source_name : string := "andhra_pradesh_ccp".

(** The body of the [try] in [main], from the point where [params] is
    bound. *)
Definition main_try (args : Args) (params : params) : M unit :=
  dates <- get_dates args;;
  for_entities args params dates [sessions; nurses].

(** The [except Exception as e] clause of [main]. *)
Definition main_except (params : option params) (e : exn) : M unit :=
  match params with
  | None => raise (UnboundLocalError "params")
  | Some params =>
      (if decide (environment params = "prod") then
         text <- utils.get_slack_message_text e source_name;;
         utils.send_message_to_slack text (slack_channel_id params)
                                     (slack_token params)
       else ret tt);;
      raise e
  end.

(** [main()], after [parse_args()]. *)
Definition main (args : Args) : M unit :=
  fun w =>
    match utils.get_params source_name w with
    | (Raise e, w) => main_except None e w
    | (Ok params, w) =>
        match main_try args params w with
        | (Raise e, w) => main_except (Some params) e w
        | (Ok v, w) => (Ok v, w)
        end
    end.

End AndhraPradeshCcp.
End AndhraPradeshCcp.

(** * Properties *)

Import Py Json Dates Polars Env Transport Client.

(** ** Worlds to run the scripts in *)

Definition no_server : list request -> reply := fun _ => Unreachable.

Definition world0 : world :=
  {| today := ymd2ord 2024 3 15; now_utc := 1710500000; run_url := None;
     config := Raise (Exception "params.yaml");
     warehouse := ∅; server := no_server; slack := fun _ => None;
     uuid_source := fun n => int_repr (Z.of_nat n); uuid_drawn := 0;
     recursion_limit := 1000; log := [] |}.

(** ** Watermark resolution *)

Section Watermark.
Variable w : world.

Lemma read_bigquery_exists_at (t : string) :
  ApiExport.read_bigquery_exists t w
  = (Ok (bool_decide (is_Some (warehouse w !! t))), emit (EvQuery (QTables t)) w).
Proof.
  unfold ApiExport.read_bigquery_exists, ApiExport.read_bigquery, bind, ret.
  simpl. destruct (warehouse w !! t) eqn:E; reflexivity.
Qed.

Lemma api_export_dates_empty (floor overlap : Z) :
  warehouse w !! "patient_training_sessions" = None ->
  (ApiExport.get_dates_from_bigquery floor overlap w).1
  = Ok {| ApiExport.start := floor; ApiExport.end_ := today w - 1 |}.
Proof.
  intros Hwh. unfold ApiExport.get_dates_from_bigquery, bind at 1. simpl.
  unfold bind at 1. rewrite read_bigquery_exists_at, Hwh.
  rewrite bool_decide_eq_false_2; [done|]. by intros [? ?].
Qed.

Lemma api_export_dates_max (floor overlap D : Z) (df : frame) :
  warehouse w !! "patient_training_sessions" = Some df ->
  ApiExport.max_date "date_of_session" df = Some D ->
  (ApiExport.get_dates_from_bigquery floor overlap w).1
  = Ok {| ApiExport.start := D - (overlap - 1); ApiExport.end_ := today w - 1 |}.
Proof.
  intros Hwh HD. unfold ApiExport.get_dates_from_bigquery, bind at 1. simpl.
  unfold bind at 1. rewrite read_bigquery_exists_at, Hwh.
  rewrite bool_decide_eq_true_2 by (by eexists).
  unfold bind, ApiExport.read_bigquery, lift, ret. simpl.
  rewrite Hwh, HD. simpl. by rewrite lookup_singleton_eq.
Qed.

End Watermark.

(** C3. Watermark resolution for the BigQuery destination, in both
    scripts: when the table [patient_training_sessions] does not exist the
    range starts at the floor 2023-06-01 and ends yesterday; when it exists
    and the maximum of [date_of_session] is [D], the range starts at
    [D - (overlap - 1)] days, [D - 29] for the default overlap of 30, and
    still ends yesterday. *)
Theorem watermark_resolution (w : world) :
  (warehouse w !! "patient_training_sessions" = None ->
   (ApiExport.get_dates_from_bigquery
      ApiExport.default_start_date ApiExport.default_overlap w).1
   = Ok {| ApiExport.start := ymd2ord 2023 6 1; ApiExport.end_ := today w - 1 |}
   /\ (AndhraPradeshCcp.get_dates_from_bigquery
         AndhraPradeshCcp.default_start_date AndhraPradeshCcp.default_overlap w).1
   = Ok {| ApiExport.start := ymd2ord 2023 6 1; ApiExport.end_ := today w - 1 |})
  /\ (forall (df : frame) (D : Z),
        warehouse w !! "patient_training_sessions" = Some df ->
        ApiExport.max_date "date_of_session" df = Some D ->
        (forall floor overlap,
           (ApiExport.get_dates_from_bigquery floor overlap w).1
           = Ok {| ApiExport.start := D - (overlap - 1);
                   ApiExport.end_ := today w - 1 |}
           /\ (AndhraPradeshCcp.get_dates_from_bigquery floor overlap w).1
           = Ok {| ApiExport.start := D - (overlap - 1);
                   ApiExport.end_ := today w - 1 |})
        /\ (ApiExport.get_dates_from_bigquery
              ApiExport.default_start_date ApiExport.default_overlap w).1
           = Ok {| ApiExport.start := D - 29; ApiExport.end_ := today w - 1 |}
        /\ (AndhraPradeshCcp.get_dates_from_bigquery
              AndhraPradeshCcp.default_start_date
              AndhraPradeshCcp.default_overlap w).1
           = Ok {| ApiExport.start := D - 29; ApiExport.end_ := today w - 1 |}).
Proof.
  split.
  - intros Hwh. split; by apply api_export_dates_empty.
  - intros df D Hwh HD. split; [|split].
    + intros floor overlap. split; by eapply api_export_dates_max.
    + by apply (api_export_dates_max w _ 30 D df).
    + by apply (api_export_dates_max w _ 30 D df).
Qed.

Definition fact_row (d : Z) : row := {["date_of_session" := CDate d]}.

Definition facts_until_march_10 : frame :=
  Frame ["date_of_session"]
        [fact_row (ymd2ord 2024 3 1); fact_row (ymd2ord 2024 3 10);
         fact_row (ymd2ord 2024 2 20)].

Definition world_with_facts : world :=
  set_warehouse {["patient_training_sessions" := facts_until_march_10]} world0.

Lemma watermark_resolution_witness :
  (ApiExport.get_dates_from_bigquery
     ApiExport.default_start_date ApiExport.default_overlap world0).1
  = Ok {| ApiExport.start := ymd2ord 2023 6 1;
          ApiExport.end_ := ymd2ord 2024 3 14 |}
  /\ (ApiExport.get_dates_from_bigquery
        ApiExport.default_start_date ApiExport.default_overlap world_with_facts).1
  = Ok {| ApiExport.start := ymd2ord 2024 2 10;
          ApiExport.end_ := ymd2ord 2024 3 14 |}.
Proof.
  split.
  - apply (proj1 (watermark_resolution world0)). reflexivity.
  - apply (proj2 (watermark_resolution world_with_facts)
             facts_until_march_10 (ymd2ord 2024 3 10)); reflexivity.
Defined.

(** ** What a computation adds to the log *)

(** [emits P m]: whatever the world, running [m] only adds events that
    satisfy [P] to the log. *)
Definition emits {A} (P : event -> Prop) (m : M A) : Prop :=
  forall w, exists new, log (m w).2 = new ++ log w /\ Forall P new.

Lemma emits_ret {A} P (a : A) : emits P (ret a).
Proof. intros w. exists []. by split. Qed.

Lemma emits_raise {A} P e : emits P (@raise A e).
Proof. intros w. exists []. by split. Qed.

Lemma emits_lift {A} P (r : result A) : emits P (lift r).
Proof. intros w. exists []. by split. Qed.

Lemma emits_bind {A B} P (m : M A) (k : A -> M B) :
  emits P m -> (forall a, emits P (k a)) -> emits P (bind m k).
Proof.
  intros Hm Hk w. unfold bind. destruct (Hm w) as (n1 & E1 & F1).
  destruct (m w) as [[a|e] w1]; simpl in *.
  - destruct (Hk a w1) as (n2 & E2 & F2). exists (n2 ++ n1). split.
    + by rewrite E2, E1, (assoc_L (++)).
    + by apply Forall_app.
  - by exists n1.
Qed.

Lemma emits_weaken {A} (P Q : event -> Prop) (m : M A) :
  (forall e, P e -> Q e) -> emits P m -> emits Q m.
Proof.
  intros HPQ Hm w. destruct (Hm w) as (new & E & F). exists new.
  split; [done|]. eapply Forall_impl; eauto.
Qed.

Lemma emits_mapM {A B} P (f : A -> M B) (l : list A) :
  (forall a, emits P (f a)) -> emits P (mapM f l).
Proof.
  intros Hf. induction l as [|a l IH]; simpl.
  - apply emits_ret.
  - apply emits_bind; [apply Hf|]. intros b.
    apply emits_bind; [apply IH|]. intros bs. apply emits_ret.
Qed.

Lemma emits_if {A} P (b : bool) (m1 m2 : M A) :
  emits P m1 -> emits P m2 -> emits P (if b then m1 else m2).
Proof. by destruct b. Qed.

Definition is_http (e : event) : Prop :=
  match e with EvHttp _ => True | _ => False end.
Definition is_query (e : event) : Prop :=
  match e with EvQuery _ => True | _ => False end.
Definition is_slack (e : event) : Prop :=
  match e with EvSlack _ => True | _ => False end.

Lemma http_sent_app (l1 l2 : list event) :
  http_sent (l1 ++ l2) = http_sent l1 ++ http_sent l2.
Proof. apply omap_app. Qed.

Lemma http_sent_none (P : event -> Prop) (new : list event) :
  (forall rq, ~ P (EvHttp rq)) -> Forall P new -> http_sent new = [].
Proof.
  intros HP. induction 1 as [|e new He _ IH]; [done|].
  destruct e; simpl; try apply IH. by destruct (HP rq).
Qed.

(** A computation that emits no request leaves the requests sent as they
    were. *)
Lemma emits_no_http {A} (P : event -> Prop) (m : M A) (w : world) :
  (forall rq, ~ P (EvHttp rq)) -> emits P m ->
  http_sent (log (m w).2) = http_sent (log w).
Proof.
  intros HP Hm. destruct (Hm w) as (new & -> & F).
  by rewrite http_sent_app, (http_sent_none P new).
Qed.

Create HintDb emits discriminated.
#[local] Hint Resolve emits_ret emits_raise emits_lift emits_mapM emits_if : emits.

Ltac emits_step :=
  lazymatch goal with
  | |- emits _ (bind _ _) => apply emits_bind; [|intros ?]
  | |- emits _ (ret _) => apply emits_ret
  | |- emits _ (raise _) => apply emits_raise
  | |- emits _ (lift _) => apply emits_lift
  | |- emits _ (if ?b then _ else _) => destruct b
  | |- emits _ (match ?x with _ => _ end) => destruct x
  end.

Lemma emits_read_bigquery (P : event -> Prop) q :
  P (EvQuery q) -> emits P (ApiExport.read_bigquery q).
Proof. intros HP w. exists [EvQuery q]. split; [done|]. by constructor. Qed.

Lemma emits_read_bigquery_exists (P : event -> Prop) t :
  P (EvQuery (QTables t)) -> emits P (ApiExport.read_bigquery_exists t).
Proof.
  intros HP. unfold ApiExport.read_bigquery_exists.
  emits_step; [by apply emits_read_bigquery|emits_step].
Qed.

Lemma emits_get_today P : emits P ApiExport.get_today.
Proof. intros w. exists []. by split. Qed.

(** The two queries of the watermark. *)
Definition watermark_query (q : query) : Prop :=
  match q with QTables _ | QMax _ _ => True | _ => False end.

Lemma emits_get_dates_from_bigquery (P : event -> Prop) floor overlap :
  (forall q, watermark_query q -> P (EvQuery q)) ->
  emits P (ApiExport.get_dates_from_bigquery floor overlap).
Proof.
  intros HP. unfold ApiExport.get_dates_from_bigquery.
  emits_step; [apply emits_get_today|].
  emits_step; [by apply emits_read_bigquery_exists, HP|].
  emits_step; [|emits_step].
  emits_step; [by apply emits_read_bigquery, HP|].
  repeat emits_step.
Qed.

Lemma emits_resolve_dates (P : event -> Prop) args today :
  (forall q, watermark_query q -> P (EvQuery q)) ->
  emits P (ApiExport.resolve_dates args today).
Proof.
  intros HP. unfold ApiExport.resolve_dates. destruct (ApiExport.dest args).
  - by apply emits_get_dates_from_bigquery.
  - apply emits_ret.
Qed.

Lemma emits_get_dates (P : event -> Prop) args :
  (forall q, watermark_query q -> P (EvQuery q)) ->
  emits P (ApiExport.get_dates args).
Proof.
  intros HP. unfold ApiExport.get_dates.
  emits_step; [apply emits_get_today|].
  emits_step; [by apply emits_resolve_dates|]. emits_step.
Qed.

Lemma emits_send_message_to_slack text channel_id token :
  emits is_slack (ApiExport.send_message_to_slack text channel_id token).
Proof.
  intros w. exists [EvSlack (SlackMessage channel_id text token)].
  split; [|by repeat constructor].
  unfold ApiExport.send_message_to_slack.
  destruct (slack w _) as [[]|]; try done.
  repeat match goal with
         | |- context [match ?x with _ => _ end] => destruct x; try done
         end.
Qed.

Lemma emits_get_slack_message_text P e :
  emits P (ApiExport.get_slack_message_text e).
Proof. intros w. exists []. by split. Qed.

Lemma emits_main_except params e :
  emits is_slack (ApiExport.main_except params e).
Proof.
  unfold ApiExport.main_except. destruct params as [params|]; [|emits_step].
  emits_step; [|emits_step]. emits_step; [|emits_step].
  emits_step; [apply emits_get_slack_message_text|].
  apply emits_send_message_to_slack.
Qed.

(** [try: m except Exception as e: handler(e)] *)
Lemma emits_try {A} (P : event -> Prop) (m : M A) (handler : exn -> M A) :
  emits P m -> (forall e, emits P (handler e)) ->
  emits P (fun w => match m w with
                    | (Raise e, w) => handler e w
                    | (Ok v, w) => (Ok v, w)
                    end).
Proof.
  intros Hm Hh w. destruct (Hm w) as (n1 & E1 & F1).
  destruct (m w) as [[a|e] w1]; simpl in *.
  - by exists n1.
  - destruct (Hh e w1) as (n2 & E2 & F2). exists (n2 ++ n1). split.
    + by rewrite E2, E1, (assoc_L (++)).
    + by apply Forall_app.
Qed.

(** ** Date-range validation *)

Definition range_error (today : Z) (dates : ApiExport.Dates) : exn :=
  if ApiExport.end_ dates <? ApiExport.start dates
  then Exception "Start date cannot be later than end date."
  else Exception "End date cannot be later than today.".

Lemma check_dates_invalid (today : Z) (dates : ApiExport.Dates) :
  ApiExport.start dates > ApiExport.end_ dates \/ ApiExport.end_ dates > today ->
  ApiExport.check_dates today dates = Raise (range_error today dates).
Proof.
  intros Hbad. unfold ApiExport.check_dates, range_error.
  destruct (Z.ltb_spec (ApiExport.end_ dates) (ApiExport.start dates)); [done|].
  destruct (Z.ltb_spec today (ApiExport.end_ dates)); [done|lia].
Qed.

Lemma get_dates_invalid (args : ApiExport.Args) (w w1 : world)
    (dates : ApiExport.Dates) :
  ApiExport.resolve_dates args (today w) w = (Ok dates, w1) ->
  ApiExport.start dates > ApiExport.end_ dates
  \/ ApiExport.end_ dates > today w ->
  ApiExport.get_dates args w = (Raise (range_error (today w) dates), w1).
Proof.
  intros Hres Hbad. unfold ApiExport.get_dates, bind at 1. simpl.
  unfold bind. rewrite Hres. unfold lift.
  by rewrite check_dates_invalid.
Qed.

Lemma main_except_raises params e w :
  is_ok (ApiExport.main_except params e w).1 = false.
Proof.
  unfold ApiExport.main_except. destruct params as [params|]; [|done].
  unfold bind. by destruct (_ w) as [[]].
Qed.

Lemma bind_raises {A B} (m : M A) (k : A -> M B) (w w' : world) (e : exn) :
  m w = (Raise e, w') -> bind m k w = (Raise e, w').
Proof. intros Hm. unfold bind. by rewrite Hm. Qed.

Lemma bind_returns {A B} (m : M A) (k : A -> M B) (w w' : world) (a : A) :
  m w = (Ok a, w') -> bind m k w = k a w'.
Proof. intros Hm. unfold bind. by rewrite Hm. Qed.

(** [main] once [get_params] has bound [params]. *)
Lemma api_export_main_bound `{Externals} args w params :
  config w = Ok params ->
  ApiExport.main args w
  = match ApiExport.main_try args params w with
    | (Raise e, w) => ApiExport.main_except (Some params) e w
    | (Ok v, w) => (Ok v, w)
    end.
Proof. intros Hc. unfold ApiExport.main, ApiExport.get_params. by rewrite Hc. Qed.

Lemma ccp_main_bound `{Externals} args w params :
  config w = Ok params ->
  AndhraPradeshCcp.main args w
  = match AndhraPradeshCcp.main_try args params w with
    | (Raise e, w) => AndhraPradeshCcp.main_except (Some params) e w
    | (Ok v, w) => (Ok v, w)
    end.
Proof.
  intros Hc. unfold AndhraPradeshCcp.main, AndhraPradeshCcp.utils.get_params,
    ApiExport.get_params. by rewrite Hc.
Qed.

Section InvalidRange.
Context `{Externals}.
Variables (args : ApiExport.Args) (params : params) (w w1 : world).
Variable dates : ApiExport.Dates.
Hypothesis Hconfig : config w = Ok params.
Hypothesis Hresolved : ApiExport.resolve_dates args (today w) w = (Ok dates, w1).
Hypothesis Hinvalid :
  ApiExport.start dates > ApiExport.end_ dates
  \/ ApiExport.end_ dates > today w.

Lemma resolve_sends_nothing : http_sent (log w1) = http_sent (log w).
Proof.
  change w1 with (Ok dates, w1).2. rewrite <- Hresolved.
  apply (emits_no_http is_query); [by intros ? []|].
  apply emits_resolve_dates. by intros [].
Qed.

Lemma api_export_main_invalid :
  is_ok (ApiExport.main args w).1 = false
  /\ http_sent (log (ApiExport.main args w).2) = http_sent (log w).
Proof.
  rewrite (api_export_main_bound args w params Hconfig).
  unfold ApiExport.main_try.
  rewrite (bind_raises _ _ w w1 _
             (get_dates_invalid args w w1 dates Hresolved Hinvalid)).
  split; [apply main_except_raises|].
  rewrite <- resolve_sends_nothing.
  apply (emits_no_http is_slack); [by intros ? []|].
  apply emits_main_except.
Qed.

Lemma ccp_main_invalid :
  is_ok (AndhraPradeshCcp.main args w).1 = false
  /\ http_sent (log (AndhraPradeshCcp.main args w).2) = http_sent (log w).
Proof.
  rewrite (ccp_main_bound args w params Hconfig).
  unfold AndhraPradeshCcp.main_try.
  rewrite (bind_raises _ _ w w1 _
             (get_dates_invalid args w w1 dates Hresolved Hinvalid)).
  split; [apply main_except_raises|].
  rewrite <- resolve_sends_nothing.
  apply (emits_no_http is_slack); [by intros ? []|].
  apply emits_main_except.
Qed.

End InvalidRange.

(** C4. Date-range validation: whenever the range that [get_dates]
    resolved has [start > end] or [end > today], [get_dates] raises the
    configuration error ([Exception] with one of its two messages) and has
    sent nothing to the API; the run fails, and from its start to its end
    no request (login or fetch) goes out. This holds for both scripts. *)
Theorem invalid_range_raises_before_fetch `{Externals}
    (args : ApiExport.Args) (params : params) (w w1 : world)
    (dates : ApiExport.Dates) :
  config w = Ok params ->
  ApiExport.resolve_dates args (today w) w = (Ok dates, w1) ->
  ApiExport.start dates > ApiExport.end_ dates
  \/ ApiExport.end_ dates > today w ->
  (exists msg,
     (msg = "Start date cannot be later than end date."
      \/ msg = "End date cannot be later than today.")
     /\ ApiExport.get_dates args w = (Raise (Exception msg), w1)
     /\ AndhraPradeshCcp.get_dates args w = (Raise (Exception msg), w1))
  /\ http_sent (log w1) = http_sent (log w)
  /\ is_ok (ApiExport.main args w).1 = false
  /\ http_sent (log (ApiExport.main args w).2) = http_sent (log w)
  /\ is_ok (AndhraPradeshCcp.main args w).1 = false
  /\ http_sent (log (AndhraPradeshCcp.main args w).2) = http_sent (log w).
Proof.
  intros Hconfig Hres Hbad.
  pose proof (get_dates_invalid args w w1 dates Hres Hbad) as Hget.
  destruct (api_export_main_invalid args params w w1 dates Hconfig Hres Hbad).
  destruct (ccp_main_invalid args params w w1 dates Hconfig Hres Hbad).
  repeat split; try done.
  - unfold range_error in Hget.
    destruct (ApiExport.end_ dates <? ApiExport.start dates);
      eexists; (split; [|split; exact Hget]); auto.
  - by apply (resolve_sends_nothing args w w1 dates).
Qed.

(** *** An instance of the library functions, to run examples with

    The digest is the text itself; the conversions read plain decimal
    numbers and the two formats of the API. *)

Definition digit_value (a : ascii) : option Z :=
  let n := Z.of_N (N_of_ascii a) in
  if (48 <=? n) && (n <=? 57) then Some (n - 48) else None.

Fixpoint parse_digits (acc : Z) (s : string) : option Z :=
  match s with
  | EmptyString => Some acc
  | String a s =>
      match digit_value a with
      | Some d => parse_digits (10 * acc + d) s
      | None => None
      end
  end.

Definition parse_number (s : string) : option Z :=
  if decide (s = "") then None else parse_digits 0 s.

Fixpoint split_on (sep : ascii) (s : string) : list string :=
  match s with
  | EmptyString => [""]
  | String a s =>
      let parts := split_on sep s in
      if decide (a = sep) then "" :: parts
      else match parts with
           | p :: ps => String a p :: ps
           | [] => [String a ""]
           end
  end.

Definition sample_cast_int64 (c : cell) : result cell :=
  match c with
  | CJson (JInt n) => Ok c
  | CJson (JStr s) =>
      match parse_number s with
      | Some n => Ok (CJson (JInt n))
      | None => Raise InvalidOperationError
      end
  | _ => Raise InvalidOperationError
  end.

(** ["14-03-2024"] *)
Definition sample_str_to_date (c : cell) : result cell :=
  match c with
  | CJson (JStr s) =>
      match parse_number <$> split_on "-" s with
      | [Some d; Some m; Some y] => Ok (CDate (ymd2ord y m d))
      | _ => Raise InvalidOperationError
      end
  | _ => Raise InvalidOperationError
  end.

(** ["2024-03-14 10:30:00"], as seconds since 1970-01-01. *)
Definition sample_str_to_datetime (c : cell) : result cell :=
  match c with
  | CJson (JStr s) =>
      match split_on " " s with
      | [day; time] =>
          match parse_number <$> split_on "-" day,
                parse_number <$> split_on ":" time with
          | [Some y; Some m; Some d], [Some hh; Some mm; Some ss] =>
              Ok (CDatetime ((ymd2ord y m d - ymd2ord 1970 1 1) * 86400
                             + hh * 3600 + mm * 60 + ss))
          | _, _ => Raise InvalidOperationError
          end
      | _ => Raise InvalidOperationError
      end
  | _ => Raise InvalidOperationError
  end.

Definition sample_externals : Externals :=
  {| md5_hexdigest := fun s => s; cast_int64 := sample_cast_int64;
     str_to_date := sample_str_to_date;
     str_to_datetime := sample_str_to_datetime |}.

Definition sample_params : params :=
  {| api_url := "https://api.example"; api_username := "sync";
     api_password := "secret"; dataset := "ccp"; environment := "dev";
     slack_channel_id := "C0"; slack_token := "xoxb" |}.

Definition configured (p : params) (w : world) : world :=
  World (today w) (now_utc w) (run_url w) (Ok p) (warehouse w) (server w)
        (slack w) (uuid_source w) (uuid_drawn w) (recursion_limit w) (log w).

(** [--dest local --start-date 2024-03-15], on 2024-03-15. *)
Definition args_starting_today : ApiExport.Args :=
  {| ApiExport.dest := ApiExport.local;
     ApiExport.start_date := Some (ymd2ord 2024 3 15);
     ApiExport.end_date := None |}.

Lemma invalid_range_raises_before_fetch_witness :
  is_ok (@ApiExport.main sample_externals args_starting_today
           (configured sample_params world0)).1 = false
  /\ http_sent
       (log (@ApiExport.main sample_externals args_starting_today
               (configured sample_params world0)).2) = [].
Proof.
  destruct (@invalid_range_raises_before_fetch sample_externals
              args_starting_today sample_params
              (configured sample_params world0)
              (configured sample_params world0)
              {| ApiExport.start := ymd2ord 2024 3 15;
                 ApiExport.end_ := ymd2ord 2024 3 14 |}
              eq_refl eq_refl (or_introl eq_refl))
    as (_ & _ & Hfails & Hsent & _).
  split; [exact Hfails | exact Hsent].
Defined.

(** ** Token-expiry recovery *)

Lemma attempt_at (rq : request) (w : world) :
  attempt rq w
  = (Ok (server w (rq :: http_sent (log w))), emit (EvHttp rq) w).
Proof. reflexivity. Qed.

Lemma urlopen_unfold policy remaining rq :
  urlopen policy remaining rq
  = (r <- attempt rq;;
     match r with
     | Replied resp =>
         if is_retry policy remaining resp then
           match remaining with
           | O => raise RetryError
           | S remaining => urlopen policy remaining rq
           end
         else ret resp
     | Unreachable =>
         match remaining with
         | O => raise ConnectionError
         | S remaining => urlopen policy remaining rq
         end
     end).
Proof. by destruct remaining. Qed.

(** A response that the policy does not retry is returned after the one
    attempt. *)
Lemma session_get_replied policy rq w resp :
  server w (rq :: http_sent (log w)) = Replied resp ->
  is_retry policy (total policy) resp = false ->
  session_get policy rq w = (Ok resp, emit (EvHttp rq) w).
Proof.
  intros Hsrv Hno. unfold session_get. rewrite urlopen_unfold.
  unfold bind. rewrite attempt_at, Hsrv, Hno. reflexivity.
Qed.

Lemma is_retry_below_400 policy remaining resp :
  status_forcelist policy ⊆ [500; 502; 503; 504] ->
  status resp < 400 ->
  is_retry policy remaining resp = false.
Proof.
  intros Hsub Hst. unfold is_retry, RETRY_AFTER_STATUS_CODES.
  rewrite (bool_decide_eq_false_2 (status resp ∈ status_forcelist policy)).
  - rewrite (bool_decide_eq_false_2 (status resp ∈ [413; 429; 503])).
    + by rewrite andb_false_r.
    + rewrite !elem_of_cons, elem_of_nil. lia.
  - intros Hin. apply Hsub in Hin.
    rewrite !elem_of_cons, elem_of_nil in Hin. lia.
Qed.

(** A transport that hands over a response below 400 after one attempt:
    both [requests.get] and the retrying session do. *)
Definition direct (http_get : request -> M response) : Prop :=
  forall rq w resp,
    server w (rq :: http_sent (log w)) = Replied resp ->
    status resp < 400 ->
    http_get rq w = (Ok resp, emit (EvHttp rq) w).

Lemma requests_get_direct : direct requests_get.
Proof.
  intros rq w resp Hsrv Hst. apply session_get_replied; [done|].
  apply is_retry_below_400; [|done]. set_solver.
Qed.

Lemma retry_session_direct : direct AndhraPradeshCcp.http_get.
Proof.
  intros rq w resp Hsrv Hst. apply session_get_replied; [done|].
  by apply is_retry_below_400.
Qed.

Lemma raise_for_status_below_400 resp w :
  status resp < 400 -> raise_for_status resp w = (Ok tt, w).
Proof.
  intros Hst. unfold raise_for_status.
  destruct (Z.leb_spec 400 (status resp)); [lia|done].
Qed.

(** The three entity fetches, to speak of all of them at once. *)
Inductive fetch : Type :=
  | PatientTraining (date : Z)
  | NurseTraining (date : Z)
  | NurseDetails (phone_number : string).

Definition fetch_json (f : fetch) : dict :=
  match f with
  | PatientTraining date => patient_training_json date
  | NurseTraining date => nurse_training_json date
  | NurseDetails phone_number => nurse_details_json (JStr phone_number)
  end.

Definition run_fetch (http_get : request -> M response) (depth : nat)
    (self : Report) (f : fetch) : M (json * Report) :=
  match f with
  | PatientTraining date => get_patient_training http_get depth self date
  | NurseTraining date => get_nurse_training http_get depth self date
  | NurseDetails phone_number =>
      get_nurse_details http_get depth self (JStr phone_number)
  end.

(** The request a fetch sends with the key the client holds. *)
Definition fetch_request (self : Report) (f : fetch) : request :=
  Request (headers self) (fetch_json f).

Definition login_request (self : Report) : request :=
  Request [] (login_json self).

Definition expiry_errors : list json :=
  [JStr "Invalid or token expired"; JStr "Expired token"].

(** The body of a reply: [{"result": "failed", "error": e, ...}]. *)
Definition failed_with (e : json) (data : json) : Prop :=
  getitem data "result" = Ok (JStr "failed") /\ getitem data "error" = Ok e.

(** [{"result": "success", "data": v, ...}] *)
Definition success_with (v : json) (data : json) : Prop :=
  getitem data "result" = Ok (JStr "success") /\ getitem data "data" = Ok v.

(** [{"result": "success", "Auth-Key": k, ...}] *)
Definition logged_in_with (k : json) (data : json) : Prop :=
  getitem data "result" = Ok (JStr "success")
  /\ getitem data "Auth-Key" = Ok k.

Lemma has_token_expired_failed e data :
  failed_with e data ->
  has_token_expired data = Ok (bool_decide (e ∈ expiry_errors)).
Proof.
  intros [Hr He]. unfold has_token_expired. rewrite Hr. simpl.
  by rewrite He.
Qed.

Lemma has_token_expired_success v data :
  success_with v data -> has_token_expired data = Ok false.
Proof. intros [Hr Hv]. unfold has_token_expired. by rewrite Hr. Qed.

Lemma data_or_empty_failed e data :
  failed_with e data -> data_or_empty data = Ok (JArr []).
Proof. intros [Hr He]. unfold data_or_empty. by rewrite Hr. Qed.

Lemma data_or_empty_success v data :
  success_with v data -> data_or_empty data = Ok v.
Proof.
  intros [Hr Hv]. unfold data_or_empty. rewrite Hr. simpl. by rewrite Hv.
Qed.

Section Recovery.
Variable http_get : request -> M response.
Hypothesis Hdirect : direct http_get.

(** One round of a fetch whose request is answered below 400 with the
    JSON [data]. *)
Lemma run_fetch_round depth self f w resp data :
  server w (fetch_request self f :: http_sent (log w)) = Replied resp ->
  status resp < 400 ->
  body resp = Some data ->
  run_fetch http_get (S depth) self f w
  = match has_token_expired data with
    | Ok true =>
        (self' <- login http_get self;; run_fetch http_get depth self' f)
          (emit (EvHttp (fetch_request self f)) w)
    | Ok false =>
        match data_or_empty data with
        | Ok d => (Ok (d, self), emit (EvHttp (fetch_request self f)) w)
        | Raise e => (Raise e, emit (EvHttp (fetch_request self f)) w)
        end
    | Raise e => (Raise e, emit (EvHttp (fetch_request self f)) w)
    end.
Proof.
  intros Hsrv Hst Hbody.
  pose proof (Hdirect _ _ _ Hsrv Hst) as Hget.
  destruct f; simpl;
    (erewrite bind_returns by exact Hget);
    (erewrite bind_returns by (by apply raise_for_status_below_400));
    unfold response_json; rewrite Hbody;
    (erewrite bind_returns by reflexivity);
    unfold lift at 1, bind at 1;
    destruct (has_token_expired data) as [[]|]; try reflexivity;
    unfold bind, lift; simpl;
    destruct (data_or_empty data); reflexivity.
Qed.

(** [login] answered below 400 with a key. *)
Lemma login_succeeds self w resp data k :
  server w (login_request self :: http_sent (log w)) = Replied resp ->
  status resp < 400 ->
  body resp = Some data ->
  logged_in_with k data ->
  login http_get self w
  = (Ok (set_key self k), emit (EvHttp (login_request self)) w).
Proof.
  intros Hsrv Hst Hbody [Hr Hk].
  pose proof (Hdirect _ _ _ Hsrv Hst) as Hget. unfold login.
  erewrite bind_returns by exact Hget.
  erewrite bind_returns by (by apply raise_for_status_below_400).
  unfold response_json. rewrite Hbody.
  erewrite bind_returns by reflexivity.
  unfold lift, bind. rewrite Hr. simpl. by rewrite Hk.
Qed.

(** An expiry answer makes the fetch log in and call itself again. *)
Lemma expired_logs_in_again depth self f w resp data e :
  server w (fetch_request self f :: http_sent (log w)) = Replied resp ->
  status resp < 400 ->
  body resp = Some data ->
  failed_with e data ->
  e ∈ expiry_errors ->
  run_fetch http_get (S depth) self f w
  = (self' <- login http_get self;; run_fetch http_get depth self' f)
      (emit (EvHttp (fetch_request self f)) w).
Proof.
  intros Hsrv Hst Hbody Hfailed He.
  rewrite (run_fetch_round depth self f w resp data Hsrv Hst Hbody).
  rewrite (has_token_expired_failed e data Hfailed).
  by rewrite bool_decide_eq_true_2.
Qed.

(** Any other failure is an empty result. *)
Lemma failed_is_empty depth self f w resp data e :
  server w (fetch_request self f :: http_sent (log w)) = Replied resp ->
  status resp < 400 ->
  body resp = Some data ->
  failed_with e data ->
  e ∉ expiry_errors ->
  run_fetch http_get (S depth) self f w
  = (Ok (JArr [], self), emit (EvHttp (fetch_request self f)) w).
Proof.
  intros Hsrv Hst Hbody Hfailed He.
  rewrite (run_fetch_round depth self f w resp data Hsrv Hst Hbody).
  rewrite (has_token_expired_failed e data Hfailed).
  rewrite bool_decide_eq_false_2 by done.
  by rewrite (data_or_empty_failed e data Hfailed).
Qed.

Lemma succeeded_is_data depth self f w resp data v :
  server w (fetch_request self f :: http_sent (log w)) = Replied resp ->
  status resp < 400 ->
  body resp = Some data ->
  success_with v data ->
  run_fetch http_get (S depth) self f w
  = (Ok (v, self), emit (EvHttp (fetch_request self f)) w).
Proof.
  intros Hsrv Hst Hbody Hok.
  rewrite (run_fetch_round depth self f w resp data Hsrv Hst Hbody).
  rewrite (has_token_expired_success v data Hok).
  by rewrite (data_or_empty_success v data Hok).
Qed.

(** Expiry once, then success: the data, after one login. *)
Lemma expired_once_then_data depth self f w r1 d1 e r2 d2 k r3 d3 v :
  let sent := http_sent (log w) in
  let rq1 := fetch_request self f in
  let rq2 := login_request self in
  let rq3 := fetch_request (set_key self k) f in
  server w (rq1 :: sent) = Replied r1 ->
  status r1 < 400 -> body r1 = Some d1 ->
  failed_with e d1 -> e ∈ expiry_errors ->
  server w (rq2 :: rq1 :: sent) = Replied r2 ->
  status r2 < 400 -> body r2 = Some d2 -> logged_in_with k d2 ->
  server w (rq3 :: rq2 :: rq1 :: sent) = Replied r3 ->
  status r3 < 400 -> body r3 = Some d3 -> success_with v d3 ->
  run_fetch http_get (S (S depth)) self f w
  = (Ok (v, set_key self k), emit (EvHttp rq3) (emit (EvHttp rq2) (emit (EvHttp rq1) w))).
Proof.
  intros sent rq1 rq2 rq3 S1 T1 B1 F1 E1 S2 T2 B2 L2 S3 T3 B3 V3.
  rewrite (expired_logs_in_again (S depth) self f w r1 d1 e S1 T1 B1 F1 E1).
  rewrite (bind_returns _ _ _ _ _
             (login_succeeds self (emit (EvHttp rq1) w) r2 d2 k S2 T2 B2 L2)).
  exact (succeeded_is_data depth (set_key self k) f
           (emit (EvHttp rq2) (emit (EvHttp rq1) w)) r3 d3 v S3 T3 B3 V3).
Qed.

End Recovery.

(** What token-expiry recovery asks of the client over the transport
    [http_get], for each of the three fetches [f], whatever the client
    [self], the world [w] and the depth left. Replies come with a status
    below 400 and a JSON body.
    - A reply [failed] with one of the two expiry errors: the fetch logs
      in and runs again, one level deeper.
    - Expiry once, then a login that succeeds with key [k], then success
      with [v]: the fetch returns [v]; it has sent its request, one login
      and the same request again under the new key, and nothing else.
    - A reply [failed] with any other error: the fetch returns [[]] and
      has sent its one request. *)
Definition recovers (http_get : request -> M response) : Prop :=
  (forall depth self f w resp data e,
     server w (fetch_request self f :: http_sent (log w)) = Replied resp ->
     status resp < 400 -> body resp = Some data ->
     failed_with e data -> e ∈ expiry_errors ->
     run_fetch http_get (S depth) self f w
     = (self' <- login http_get self;; run_fetch http_get depth self' f)
         (emit (EvHttp (fetch_request self f)) w))
  /\ (forall depth self f w r1 d1 e r2 d2 k r3 d3 v,
        let sent := http_sent (log w) in
        let rq1 := fetch_request self f in
        let rq2 := login_request self in
        let rq3 := fetch_request (set_key self k) f in
        server w (rq1 :: sent) = Replied r1 ->
        status r1 < 400 -> body r1 = Some d1 ->
        failed_with e d1 -> e ∈ expiry_errors ->
        server w (rq2 :: rq1 :: sent) = Replied r2 ->
        status r2 < 400 -> body r2 = Some d2 -> logged_in_with k d2 ->
        server w (rq3 :: rq2 :: rq1 :: sent) = Replied r3 ->
        status r3 < 400 -> body r3 = Some d3 -> success_with v d3 ->
        exists w',
          run_fetch http_get (S (S depth)) self f w = (Ok (v, set_key self k), w')
          /\ log w' = EvHttp rq3 :: EvHttp rq2 :: EvHttp rq1 :: log w
          /\ rq_json rq3 = rq_json rq1
          /\ length (filter (fun rq => rq_json rq = login_json self)
                            [rq3; rq2; rq1]) = 1%nat)
  /\ (forall depth self f w resp data e,
        server w (fetch_request self f :: http_sent (log w)) = Replied resp ->
        status resp < 400 -> body resp = Some data ->
        failed_with e data -> e ∉ expiry_errors ->
        run_fetch http_get (S depth) self f w
        = (Ok (JArr [], self), emit (EvHttp (fetch_request self f)) w)).

Lemma fetch_json_not_login self f : fetch_json f <> login_json self.
Proof. by destruct f. Qed.

Lemma direct_recovers http_get : direct http_get -> recovers http_get.
Proof.
  intros Hdirect. split; [|split].
  - intros. by eapply expired_logs_in_again.
  - intros depth self f w r1 d1 e r2 d2 k r3 d3 v sent rq1 rq2 rq3
      S1 T1 B1 F1 E1 S2 T2 B2 L2 S3 T3 B3 V3.
    eexists. split; [|split; [|split]].
    + by eapply (expired_once_then_data http_get Hdirect depth self f w
                   r1 d1 e r2 d2 k r3 d3 v).
    + reflexivity.
    + reflexivity.
    + rewrite filter_cons_False by apply fetch_json_not_login.
      rewrite filter_cons_True by reflexivity.
      rewrite filter_cons_False by apply fetch_json_not_login.
      reflexivity.
  - intros. by eapply failed_is_empty.
Qed.

(** C5. Token-expiry recovery and empty results, for the three fetches of
    both scripts ([requests.get] in [api_export.py], the retrying session
    in [andhra_pradesh_ccp.py]): on an expiry error the client logs in
    again and re-issues the same request; expiry once and then success
    yields the data with exactly one more login; [failed] with any other
    error yields the empty list and no exception. *)
Theorem token_expiry_recovery :
  recovers requests_get /\ recovers AndhraPradeshCcp.http_get.
Proof.
  split; apply direct_recovers.
  - apply requests_get_direct.
  - apply retry_session_direct.
Qed.

Definition with_server (srv : list request -> reply) (w : world) : world :=
  World (today w) (now_utc w) (run_url w) (config w) (warehouse w) srv
        (slack w) (uuid_source w) (uuid_drawn w) (recursion_limit w) (log w).

Definition replied_ok (data : json) : reply :=
  Replied (Response 200 false (Some data)).

Definition expired_body : json :=
  JObj [("result", JStr "failed"); ("error", JStr "Expired token")].

Definition login_body (k : string) : json :=
  JObj [("result", JStr "success"); ("Auth-Key", JStr k)].

Definition session_record : json :=
  JObj [("date_of_session", JStr "01-03-2024");
        ("session_conducted_by", JStr "91234");
        ("total_trained", JStr "12")].

Definition data_body (records : list json) : json :=
  JObj [("result", JStr "success"); ("data", JArr records)].

(** A server whose first reply is an expiry error, whose second accepts a
    login and whose later ones deliver a session. *)
Definition expiring_server (sent : list request) : reply :=
  match length sent with
  | 1%nat => replied_ok expired_body
  | 2%nat => replied_ok (login_body "key-2")
  | _ => replied_ok (data_body [session_record])
  end.

Definition client1 : Report :=
  set_key (new_Report "https://api.example" "sync" "secret") (JStr "key-1").

Lemma token_expiry_recovery_witness :
  (run_fetch requests_get 2 client1 (PatientTraining (ymd2ord 2024 3 1))
     (with_server expiring_server world0)).1
  = Ok (JArr [session_record], set_key client1 (JStr "key-2")).
Proof.
  edestruct (proj1 (proj2 (proj1 token_expiry_recovery))
               0%nat client1 (PatientTraining (ymd2ord 2024 3 1))
               (with_server expiring_server world0)
               (Response 200 false (Some expired_body)) expired_body
               (JStr "Expired token")
               (Response 200 false (Some (login_body "key-2")))
               (login_body "key-2") (JStr "key-2")
               (Response 200 false (Some (data_body [session_record])))
               (data_body [session_record]) (JArr [session_record]))
    as (w' & Hrun & _);
    [reflexivity | reflexivity | reflexivity | split; reflexivity
    | right; left
    | reflexivity | reflexivity | reflexivity | split; reflexivity
    | reflexivity | reflexivity | reflexivity | split; reflexivity |].
  rewrite Hrun. reflexivity.
Defined.

Example expiring_server_run :
  (get_patient_training requests_get 1000 client1 (ymd2ord 2024 3 1)
     (with_server expiring_server world0)).1
  = Ok (JArr [session_record], set_key client1 (JStr "key-2")).
Proof. vm_compute. reflexivity. Qed.

(** ** The retrying transport *)

(** The world after [n] attempts of [rq]. *)
Fixpoint attempted (n : nat) (rq : request) (w : world) : world :=
  match n with
  | O => w
  | S n => attempted n rq (emit (EvHttp rq) w)
  end.

Lemma attempted_log n rq w :
  log (attempted n rq w) = replicate n (EvHttp rq) ++ log w.
Proof.
  revert w. induction n as [|n IH]; intros w; [done|]. simpl. rewrite IH.
  simpl. change (EvHttp rq :: log w) with ([EvHttp rq] ++ log w).
  rewrite (assoc_L (++)). f_equal.
  clear. induction n as [|n IH]; [done|]. simpl. by rewrite IH.
Qed.

Lemma attempted_server n rq w : server (attempted n rq w) = server w.
Proof. revert w. induction n as [|n IH]; intros w; [done|]. simpl. by rewrite IH. Qed.

Lemma replicate_shift {A} (n : nat) (x : A) (l : list A) :
  replicate n x ++ x :: l = replicate (S n) x ++ l.
Proof. induction n as [|n IH]; [done|]. simpl. by rewrite IH. Qed.

(** The reply to the [i]-th attempt of [rq], counting from 0, in a world
    where nothing else is sent meanwhile. *)
Definition nth_reply (w : world) (rq : request) (i : nat) : reply :=
  server w (replicate (S i) rq ++ http_sent (log w)).

Definition transient (policy : Retry) (r : reply) : Prop :=
  exists resp, r = Replied resp /\ status resp ∈ status_forcelist policy.

Lemma is_retry_transient policy remaining resp :
  status resp ∈ status_forcelist policy -> is_retry policy remaining resp = true.
Proof. intros Hin. unfold is_retry. by rewrite bool_decide_eq_true_2. Qed.

Lemma nth_reply_after_attempt w rq i :
  nth_reply (emit (EvHttp rq) w) rq i = nth_reply w rq (S i).
Proof.
  unfold nth_reply. simpl. f_equal.
  change (rq :: replicate i rq ++ rq :: http_sent (log w))
    with (replicate (S i) rq ++ rq :: http_sent (log w)).
  by rewrite replicate_shift.
Qed.

(** [n] transient replies, [n] within the retries left, and then a reply
    that is not retried: [n + 1] attempts, and that reply is the result. *)
Lemma urlopen_retries policy n : forall remaining rq w resp,
  (n <= remaining)%nat ->
  (forall i, (i < n)%nat -> transient policy (nth_reply w rq i)) ->
  nth_reply w rq n = Replied resp ->
  is_retry policy (remaining - n) resp = false ->
  urlopen policy remaining rq w = (Ok resp, attempted (S n) rq w).
Proof.
  induction n as [|n IH]; intros remaining rq w resp Hle Htrans Hlast Hno.
  - rewrite urlopen_unfold. unfold bind. rewrite attempt_at.
    unfold nth_reply in Hlast. simpl in Hlast. rewrite Hlast.
    by rewrite Nat.sub_0_r in Hno; rewrite Hno.
  - destruct remaining as [|remaining]; [lia|].
    rewrite urlopen_unfold. unfold bind. rewrite attempt_at.
    destruct (Htrans 0%nat) as (r0 & Hr0 & Hst0); [lia|].
    unfold nth_reply in Hr0. simpl in Hr0. rewrite Hr0.
    rewrite (is_retry_transient _ _ _ Hst0).
    rewrite (IH remaining rq (emit (EvHttp rq) w) resp); [done|lia| | |done].
    + intros i Hi. rewrite nth_reply_after_attempt. apply Htrans. lia.
    + by rewrite nth_reply_after_attempt.
Qed.

(** Transient replies to every attempt: the retries run out and
    [RetryError] is raised after one attempt more than there were retries. *)
Lemma urlopen_exhausted policy : forall remaining rq w,
  (forall i, (i <= remaining)%nat -> transient policy (nth_reply w rq i)) ->
  urlopen policy remaining rq w
  = (Raise RetryError, attempted (S remaining) rq w).
Proof.
  induction remaining as [|remaining IH]; intros rq w Htrans;
    rewrite urlopen_unfold; unfold bind; rewrite attempt_at;
    (destruct (Htrans 0%nat) as (r0 & Hr0 & Hst0); [lia|]);
    unfold nth_reply in Hr0; simpl in Hr0; rewrite Hr0;
    rewrite (is_retry_transient _ _ _ Hst0); [done|].
  rewrite IH; [done|].
  intros i Hi. rewrite nth_reply_after_attempt. apply Htrans. lia.
Qed.

(** [requests.get] makes one attempt, whatever comes back. *)
Lemma requests_get_once rq w :
  requests_get rq w
  = (match nth_reply w rq 0 with
     | Replied resp => Ok resp
     | Unreachable => Raise ConnectionError
     end, attempted 1 rq w).
Proof.
  unfold requests_get, session_get. rewrite urlopen_unfold.
  unfold bind. rewrite attempt_at. unfold nth_reply. simpl.
  by destruct (server w _).
Qed.

Lemma is_retry_other policy remaining resp :
  status resp ∉ status_forcelist policy ->
  retry_after resp = false \/ status resp ∉ RETRY_AFTER_STATUS_CODES ->
  is_retry policy remaining resp = false.
Proof.
  intros Hst Hra. unfold is_retry. rewrite bool_decide_eq_false_2 by done.
  destruct Hra as [-> | Hra].
  - by rewrite andb_false_r.
  - rewrite (bool_decide_eq_false_2 _ Hra). by rewrite andb_false_r.
Qed.

(** A server that answers 503 once and accepts the login after that. *)
Definition flaky_server (sent : list request) : reply :=
  match length sent with
  | 1%nat => Replied (Response 503 false None)
  | _ => replied_ok (login_body "key-2")
  end.

(** C8, counterexample. In [api_export.py] a login answered 503 is not
    tried again: [HTTPError] is raised after the one request, on a server
    that would have accepted the second attempt, as the login of
    [andhra_pradesh_ccp.py] shows. *)
Lemma api_export_login_not_retried :
  let w := with_server flaky_server world0 in
  (ApiExport.login client1 w).1 = Raise (HTTPError 503)
  /\ http_sent (log (ApiExport.login client1 w).2) = [login_request client1]
  /\ (AndhraPradeshCcp.login client1 w).1 = Ok (set_key client1 (JStr "key-2")).
Proof. vm_compute. repeat split. Qed.

(** C8, amended. In [andhra_pradesh_ccp.py] the login and the three
    fetches send their request through [requests_retry_session()], whose
    policy is 10 retries, backoff factor 0.5 and the statuses 500, 502,
    503, 504: after [n <= 10] replies with one of these statuses, a reply
    with another status (and no [Retry-After] that urllib3 honours) is
    handed to the client after [n + 1] attempts; when all 11 attempts get
    such a status, [RetryError] is raised. In [api_export.py] the client
    calls [requests.get], which makes one attempt whatever the reply. *)
Theorem retry_policy_by_script :
  (AndhraPradeshCcp.login = Client.login AndhraPradeshCcp.http_get
   /\ AndhraPradeshCcp.get_patient_training
      = Client.get_patient_training AndhraPradeshCcp.http_get
   /\ AndhraPradeshCcp.get_nurse_training
      = Client.get_nurse_training AndhraPradeshCcp.http_get
   /\ AndhraPradeshCcp.get_nurse_details
      = Client.get_nurse_details AndhraPradeshCcp.http_get)
  /\ AndhraPradeshCcp.http_get
     = session_get {| total := 10; backoff_factor := 1 # 2;
                      status_forcelist := [500; 502; 503; 504] |}
  /\ (forall (n : nat) rq w resp,
        (n <= 10)%nat ->
        (forall i, (i < n)%nat ->
           exists r, nth_reply w rq i = Replied r
                     /\ status r ∈ [500; 502; 503; 504]) ->
        nth_reply w rq n = Replied resp ->
        status resp ∉ [500; 502; 503; 504] ->
        retry_after resp = false \/ status resp ∉ [413; 429; 503] ->
        AndhraPradeshCcp.http_get rq w = (Ok resp, attempted (S n) rq w))
  /\ (forall rq w,
        (forall i, (i <= 10)%nat ->
           exists r, nth_reply w rq i = Replied r
                     /\ status r ∈ [500; 502; 503; 504]) ->
        AndhraPradeshCcp.http_get rq w = (Raise RetryError, attempted 11 rq w))
  /\ (ApiExport.login = Client.login requests_get
      /\ ApiExport.get_patient_training = Client.get_patient_training requests_get
      /\ ApiExport.get_nurse_training = Client.get_nurse_training requests_get
      /\ ApiExport.get_nurse_details = Client.get_nurse_details requests_get)
  /\ (forall rq w,
        requests_get rq w
        = (match nth_reply w rq 0 with
           | Replied resp => Ok resp
           | Unreachable => Raise ConnectionError
           end, attempted 1 rq w)).
Proof.
  split; [by repeat split|]. split; [reflexivity|].
  split; [|split; [|split; [by repeat split|]]].
  - intros n rq w resp Hn Htrans Hlast Hst Hra.
    apply (urlopen_retries AndhraPradeshCcp.default_retry_session n 10%nat);
      [done|exact Htrans|done|].
    by apply is_retry_other.
  - intros rq w Htrans.
    by apply (urlopen_exhausted AndhraPradeshCcp.default_retry_session 10%nat).
  - apply requests_get_once.
Qed.

Lemma retry_policy_by_script_witness :
  AndhraPradeshCcp.http_get (login_request client1)
    (with_server flaky_server world0)
  = (Ok (Response 200 false (Some (login_body "key-2"))),
     attempted 2 (login_request client1) (with_server flaky_server world0)).
Proof.
  apply (proj1 (proj2 (proj2 retry_policy_by_script)) 1%nat).
  - lia.
  - intros i Hi. assert (i = 0%nat) as -> by lia.
    eexists. split; [reflexivity|]. simpl. by right; right; left.
  - reflexivity.
  - simpl. rewrite !elem_of_cons, elem_of_nil. lia.
  - by left.
Defined.

(** ** Failure notification *)

(** The message [main] posts for the error [e]. *)
Definition notification (params : params) (e : exn) (w : world) : slack_message :=
  SlackMessage (slack_channel_id params)
               (match (ApiExport.get_slack_message_text e w).1 with
                | Ok text => text
                | Raise _ => ""
                end)
               (slack_token params).

Lemma main_except_not_prod params e w :
  environment params <> "prod" ->
  ApiExport.main_except (Some params) e w = (Raise e, w).
Proof.
  intros Hdev. unfold ApiExport.main_except.
  by destruct (decide (environment params = "prod")).
Qed.

Lemma main_except_prod params e w :
  environment params = "prod" ->
  ApiExport.main_except (Some params) e w
  = match ApiExport.send_message_to_slack
            (sm_text (notification params e w)) (slack_channel_id params)
            (slack_token params) w with
    | (Ok _, w') => (Raise e, w')
    | (Raise e', w') => (Raise e', w')
    end.
Proof.
  intros Hprod. unfold ApiExport.main_except.
  destruct (decide (environment params = "prod")); [|done].
  unfold bind, notification, ApiExport.get_slack_message_text. simpl.
  by destruct (ApiExport.send_message_to_slack _ _ _ w) as [[]].
Qed.

(** What does hold: with [params] bound, the message is posted exactly in
    the prod environment, and the error is raised again when the post
    went through. *)
Lemma main_except_reraises params e w :
  (environment params <> "prod" ->
   ApiExport.main_except (Some params) e w = (Raise e, w))
  /\ (environment params = "prod" ->
      slack w (notification params e w) = None ->
      ApiExport.main_except (Some params) e w
      = (Raise e, emit (EvSlack (notification params e w)) w)).
Proof.
  split; [apply main_except_not_prod|].
  intros Hprod Hslack. rewrite main_except_prod by done.
  unfold ApiExport.send_message_to_slack.
  change (SlackMessage (slack_channel_id params)
            (sm_text (notification params e w)) (slack_token params))
    with (notification params e w).
  by rewrite Hslack.
Qed.






(** ** What the client adds to the log: requests only *)

Section ClientEmits.
Variable P : event -> Prop.
Hypothesis Phttp : forall rq, P (EvHttp rq).

Lemma emits_attempt rq : emits P (attempt rq).
Proof. intros w. exists [EvHttp rq]. split; [done|]. by constructor. Qed.

Lemma emits_urlopen policy remaining rq : emits P (urlopen policy remaining rq).
Proof.
  induction remaining as [|remaining IH]; rewrite urlopen_unfold;
    (emits_step; [apply emits_attempt|]); repeat emits_step; exact IH.
Qed.

Lemma emits_raise_for_status r : emits P (raise_for_status r).
Proof. unfold raise_for_status. repeat emits_step. Qed.

Lemma emits_response_json r : emits P (response_json r).
Proof. unfold response_json. repeat emits_step. Qed.

Variable http_get : request -> M response.
Hypothesis Hget : forall rq, emits P (http_get rq).

Lemma emits_login self : emits P (Client.login http_get self).
Proof.
  unfold Client.login. emits_step; [apply Hget|].
  emits_step; [apply emits_raise_for_status|].
  emits_step; [apply emits_response_json|].
  repeat emits_step.
Qed.

Ltac fetch_emits IH :=
  (emits_step; [apply Hget|]);
  (emits_step; [apply emits_raise_for_status|]);
  (emits_step; [apply emits_response_json|]);
  (emits_step; [emits_step|]);
  emits_step; [emits_step; [apply emits_login|apply IH]|];
  repeat emits_step.

Lemma emits_get_patient_training depth : forall self date,
  emits P (Client.get_patient_training http_get depth self date).
Proof.
  induction depth as [|depth IH]; intros self date; simpl; [emits_step|].
  fetch_emits IH.
Qed.

Lemma emits_get_nurse_training depth : forall self date,
  emits P (Client.get_nurse_training http_get depth self date).
Proof.
  induction depth as [|depth IH]; intros self date; simpl; [emits_step|].
  fetch_emits IH.
Qed.

Lemma emits_get_nurse_details depth : forall self phone_number,
  emits P (Client.get_nurse_details http_get depth self phone_number).
Proof.
  induction depth as [|depth IH]; intros self phone_number; simpl;
    [emits_step|].
  fetch_emits IH.
Qed.

Lemma emits_map_shared {A} (f : Report -> A -> M (json * Report)) units :
  (forall self u, emits P (f self u)) ->
  forall self, emits P (map_shared f self units).
Proof.
  intros Hf. induction units as [|u units IH]; intros self; simpl.
  - emits_step.
  - emits_step; [apply Hf|]. emits_step; [apply IH|]. emits_step.
Qed.

End ClientEmits.

(** ** The loop of [main] in [andhra_pradesh_ccp.py] *)

Section CcpEmits.
Context `{Externals}.
Variable P : event -> Prop.
Hypothesis Phttp : forall rq, P (EvHttp rq).

Lemma emits_ccp_http_get rq : emits P (AndhraPradeshCcp.http_get rq).
Proof. by apply emits_urlopen. Qed.

Lemma emits_get_recursion_limit : emits P ApiExport.get_recursion_limit.
Proof. intros w. exists []. by split. Qed.

Lemma emits_read_sessions params dates :
  emits P (AndhraPradeshCcp.read_sessions_data_from_api params dates).
Proof.
  unfold AndhraPradeshCcp.read_sessions_data_from_api.
  emits_step; [apply emits_login, emits_ccp_http_get|].
  emits_step; [apply emits_get_recursion_limit|].
  emits_step; [emits_step|].
  emits_step.
  { apply emits_map_shared. intros.
    apply emits_get_patient_training, emits_ccp_http_get. }
  emits_step; [emits_step|].
  emits_step.
  { apply emits_map_shared. intros.
    apply emits_get_nurse_training, emits_ccp_http_get. }
  emits_step; [emits_step|]. emits_step.
Qed.

Lemma emits_read_nurses params nurse_phones :
  emits P (AndhraPradeshCcp.read_nurses_data_from_api params nurse_phones).
Proof.
  unfold AndhraPradeshCcp.read_nurses_data_from_api.
  emits_step; [apply emits_login, emits_ccp_http_get|].
  emits_step; [apply emits_get_recursion_limit|].
  emits_step.
  { apply emits_map_shared. intros.
    apply emits_get_nurse_details, emits_ccp_http_get. }
  emits_step; [emits_step|]. emits_step.
Qed.

Hypothesis Pquery : forall q, P (EvQuery q).

Lemma emits_read_nurse_phones :
  emits P AndhraPradeshCcp.read_nurse_phones_from_bigquery.
Proof.
  unfold AndhraPradeshCcp.read_nurse_phones_from_bigquery.
  emits_step; [by apply emits_read_bigquery|]. repeat emits_step.
Qed.

Lemma emits_read_entity entity params dates :
  emits P (AndhraPradeshCcp.read_entity entity params dates).
Proof.
  destruct entity; simpl.
  - apply emits_read_sessions.
  - emits_step; [apply emits_read_nurse_phones|]. apply emits_read_nurses.
Qed.

Hypothesis Pexcel : forall path, P (EvExcel path []).

Lemma emits_for_entities args params dates entities :
  emits P (AndhraPradeshCcp.for_entities args params dates entities).
Proof.
  induction entities as [|entity entities IH]; simpl; [emits_step|].
  emits_step; [apply emits_read_entity|].
  destruct a as [|item data]; simpl; [|emits_step].
  emits_step; [|exact IH].
  destruct (ApiExport.dest args).
  - intros w. exists []. by split.
  - intros w. exists [EvExcel "data.xlsx" []]. split; [done|].
    constructor; [apply Pexcel|constructor].
Qed.

Hypothesis Pslack : forall m, P (EvSlack m).

Lemma emits_ccp_main args : emits P (AndhraPradeshCcp.main args).
Proof.
  assert (forall p e, emits P (AndhraPradeshCcp.main_except p e)) as Hexcept.
  { intros p e. apply (emits_weaken is_slack); [|apply emits_main_except].
    intros [] Hs; first [done | apply Pslack]. }
  intros w. unfold AndhraPradeshCcp.main, AndhraPradeshCcp.utils.get_params,
    ApiExport.get_params.
  destruct (config w) as [params|e]; [|apply Hexcept].
  apply (emits_try P (AndhraPradeshCcp.main_try args params)
           (AndhraPradeshCcp.main_except (Some params))); [|apply Hexcept].
  unfold AndhraPradeshCcp.main_try.
  emits_step; [apply emits_get_dates; intros; apply Pquery|].
  apply emits_for_entities.
Qed.

End CcpEmits.

(** An event that writes no data: no load job, and no workbook with a
    sheet in it. *)
Definition writes_nothing (e : event) : Prop :=
  match e with
  | EvLoad _ _ _ => False
  | EvExcel _ sheets => sheets = []
  | _ => True
  end.

Lemma ccp_main_writes_nothing `{Externals} args :
  emits writes_nothing (AndhraPradeshCcp.main args).
Proof. by apply emits_ccp_main. Qed.

Lemma for_entities_returns `{Externals} args params dates entity entities
    w data w' :
  AndhraPradeshCcp.read_entity entity params dates w = (Ok data, w') ->
  data <> [] ->
  AndhraPradeshCcp.for_entities args params dates (entity :: entities) w
  = (Ok tt, w').
Proof.
  intros Hread Hdata. simpl. rewrite (bind_returns _ _ _ _ _ Hread).
  by destruct data.
Qed.

Lemma for_entities_goes_on `{Externals} args params dates entity entities
    w w' :
  AndhraPradeshCcp.read_entity entity params dates w = (Ok [], w') ->
  AndhraPradeshCcp.for_entities args params dates (entity :: entities) w
  = AndhraPradeshCcp.for_entities args params dates entities
      (match ApiExport.dest args with
       | ApiExport.bigquery => w'
       | ApiExport.local => emit (EvExcel "data.xlsx" []) w'
       end).
Proof.
  intros Hread. simpl. rewrite (bind_returns _ _ _ _ _ Hread). simpl.
  by destruct (ApiExport.dest args).
Qed.

Definition no_data_body : json :=
  JObj [("result", JStr "failed"); ("error", JStr "No data found")].

Definition is_login (rq : request) : bool :=
  bool_decide (dict_get (rq_json rq) "login" = Some (JBool true)).

(** A server that accepts every login and has no data for any fetch. *)
Definition quiet_server (sent : list request) : reply :=
  match sent with
  | rq :: _ =>
      if is_login rq then replied_ok (login_body "key-1")
      else replied_ok no_data_body
  | [] => Unreachable
  end.

(** A server that accepts every login and has one session for every
    fetch. *)
Definition busy_server (sent : list request) : reply :=
  match sent with
  | rq :: _ =>
      if is_login rq then replied_ok (login_body "key-1")
      else replied_ok (data_body [session_record])
  | [] => Unreachable
  end.

Definition stored_sessions : frame :=
  Frame ["date_of_session"; "session_conducted_by"]
        [{["date_of_session" := CDate (ymd2ord 2024 3 1);
           "session_conducted_by" := CJson (JStr "91234,95555")]}].

(** [--dest local] *)
Definition args_local : ApiExport.Args :=
  {| ApiExport.dest := ApiExport.local; ApiExport.start_date := None;
     ApiExport.end_date := None |}.

(** [--dest bigquery] *)
Definition args_bigquery : ApiExport.Args :=
  {| ApiExport.dest := ApiExport.bigquery; ApiExport.start_date := None;
     ApiExport.end_date := None |}.

Definition world_quiet : world :=
  with_server quiet_server
    (set_warehouse {["patient_training_sessions" := stored_sessions]}
       (configured sample_params world0)).

Definition world_busy : world :=
  with_server busy_server
    (set_warehouse {["patient_training_sessions" := stored_sessions]}
       (configured sample_params world0)).

Definition is_phones_query (e : event) : bool :=
  match e with EvQuery (QDistinctNonEmpty _ _) => true | _ => false end.

Definition is_write (e : event) : bool :=
  match e with EvLoad _ _ _ | EvExcel _ _ => true | _ => false end.

(** C10, counterexample. A run in which no session is fetched goes on to
    the personnel phase: the phones are read from the warehouse and the
    details of each nurse are requested. *)
Lemma ccp_personnel_phase_reached :
  let run := @AndhraPradeshCcp.main sample_externals args_bigquery world_quiet in
  run.1 = Ok tt
  /\ existsb is_phones_query (log run.2) = true
  /\ existsb (fun rq => bool_decide (rq_json rq = nurse_details_json (JStr "91234")))
             (http_sent (log run.2)) = true.
Proof. vm_compute. repeat split. Qed.

(** C10, amended. In [main] of [andhra_pradesh_ccp.py] a round of the
    loop whose fetch returned a dict that is not empty returns from
    [main]: nothing is written and no later round runs. A round whose
    fetch returned the empty dict writes that empty dict (no load job; for
    the local destination a workbook without sheets) and goes on to the
    next entity, so the personnel phase is reached exactly when the
    sessions fetch came back empty. No run ever adds a load job or a
    workbook with a sheet to the log. *)
Theorem ccp_main_returns_on_fetched_data `{Externals}
    (args : ApiExport.Args) (params : params) (dates : ApiExport.Dates) :
  (forall entity entities w data w',
     AndhraPradeshCcp.read_entity entity params dates w = (Ok data, w') ->
     data <> [] ->
     AndhraPradeshCcp.for_entities args params dates (entity :: entities) w
     = (Ok tt, w'))
  /\ (forall entity entities w w',
        AndhraPradeshCcp.read_entity entity params dates w = (Ok [], w') ->
        AndhraPradeshCcp.for_entities args params dates (entity :: entities) w
        = AndhraPradeshCcp.for_entities args params dates entities
            (match ApiExport.dest args with
             | ApiExport.bigquery => w'
             | ApiExport.local => emit (EvExcel "data.xlsx" []) w'
             end))
  /\ (forall w w1 data w2,
        config w = Ok params ->
        AndhraPradeshCcp.get_dates args w = (Ok dates, w1) ->
        AndhraPradeshCcp.read_sessions_data_from_api params dates w1
        = (Ok data, w2) ->
        data <> [] ->
        AndhraPradeshCcp.main args w = (Ok tt, w2))
  /\ emits writes_nothing (AndhraPradeshCcp.main args).
Proof.
  split; [|split; [|split]].
  - intros. by eapply for_entities_returns.
  - intros. by apply for_entities_goes_on.
  - intros w w1 data w2 Hconfig Hdates Hread Hdata.
    rewrite (ccp_main_bound args w params Hconfig).
    unfold AndhraPradeshCcp.main_try.
    rewrite (bind_returns _ _ _ _ _ Hdates).
    by rewrite (for_entities_returns args params dates AndhraPradeshCcp.sessions
                  [AndhraPradeshCcp.nurses] w1 data w2 Hread Hdata).
  - apply ccp_main_writes_nothing.
Qed.

(** [--dest local --start-date 2024-03-14 --end-date 2024-03-14] *)
Definition args_yesterday : ApiExport.Args :=
  {| ApiExport.dest := ApiExport.local;
     ApiExport.start_date := Some (ymd2ord 2024 3 14);
     ApiExport.end_date := Some (ymd2ord 2024 3 14) |}.

Definition yesterday : ApiExport.Dates :=
  {| ApiExport.start := ymd2ord 2024 3 14; ApiExport.end_ := ymd2ord 2024 3 14 |}.

(** What the sessions fetch of that run returns, and the world it leaves. *)
Definition busy_data : list (string * frame) :=
  Eval vm_compute in
    match (@AndhraPradeshCcp.read_sessions_data_from_api sample_externals
             sample_params yesterday world_busy).1 with
    | Ok data => data
    | Raise _ => []
    end.

Definition busy_after : world :=
  (@AndhraPradeshCcp.read_sessions_data_from_api sample_externals
     sample_params yesterday world_busy).2.

Lemma ccp_main_returns_on_fetched_data_witness :
  @AndhraPradeshCcp.main sample_externals args_yesterday world_busy
  = (Ok tt, busy_after).
Proof.
  apply (proj1 (proj2 (proj2
    (@ccp_main_returns_on_fetched_data sample_externals args_yesterday
       sample_params yesterday)))
    world_busy world_busy busy_data busy_after).
  - reflexivity.
  - reflexivity.
  - vm_compute. reflexivity.
  - discriminate.
Defined.

Example busy_run_writes_nothing :
  existsb is_write (log busy_after) = false
  /\ length (http_sent (log busy_after)) = 3%nat.
Proof. vm_compute. by split. Qed.

(** ** Normalising an empty batch *)

Section EmptyBatch.
Context `{Externals}.

Lemma rmap_nil_inv {A B} (f : A -> result B) (l : list A) :
  rmap f l = Ok [] -> l = [].
Proof.
  destruct l as [|a l]; [done|]. simpl.
  destruct (f a); [|done]. simpl. by destruct (rmap f l).
Qed.

Lemma rmap_cons_inv {A B} (f : A -> result B) (l : list A) b bs :
  rmap f l = Ok (b :: bs) -> l <> [].
Proof. by destruct l. Qed.

(** No patient training: the table of the nurse trainings is made all the
    same, and it alone. *)
Lemma sessions_frames_no_patients (nurse_trainings : list json) :
  AndhraPradeshCcp.sessions_frames [] nurse_trainings
  = match nurse_trainings with
    | [] => Ok []
    | _ =>
        hashed <-? rmap AndhraPradeshCcp.set_md5 nurse_trainings;;
        df <-? AndhraPradeshCcp.nurse_trainings_frame hashed;;
        Ok [("nurse_training_sessions", df)]
    end.
Proof.
  destruct nurse_trainings as [|x xs]; [done|].
  unfold AndhraPradeshCcp.sessions_frames.
  destruct (rmap AndhraPradeshCcp.set_md5 (x :: xs)) as [[|y ys]|e] eqn:E;
    simpl; try done.
  by apply rmap_nil_inv in E.
Qed.

Lemma sessions_frames_no_nurse_trainings (patient_trainings : list json) :
  AndhraPradeshCcp.sessions_frames patient_trainings []
  = match patient_trainings with
    | [] => Ok []
    | _ =>
        hashed <-? rmap AndhraPradeshCcp.set_md5 patient_trainings;;
        df <-? AndhraPradeshCcp.patient_trainings_frame hashed;;
        Ok [("patient_training_sessions", df)]
    end.
Proof.
  destruct patient_trainings as [|x xs]; [done|].
  unfold AndhraPradeshCcp.sessions_frames.
  destruct (rmap AndhraPradeshCcp.set_md5 (x :: xs)) as [[|y ys]|e] eqn:E;
    simpl; try done.
  - by apply rmap_nil_inv in E.
  - by destruct (AndhraPradeshCcp.patient_trainings_frame (y :: ys)).
Qed.

(** Which tables a result of [sessions_frames] has. *)
Lemma sessions_frames_keys patient_trainings nurse_trainings data :
  AndhraPradeshCcp.sessions_frames patient_trainings nurse_trainings = Ok data ->
  (dict_get data "patient_training_sessions" = None <-> patient_trainings = [])
  /\ (dict_get data "nurse_training_sessions" = None <-> nurse_trainings = []).
Proof.
  unfold AndhraPradeshCcp.sessions_frames.
  destruct (rmap AndhraPradeshCcp.set_md5 patient_trainings)
    as [[|p ps]|e] eqn:Ep; simpl; [| |done];
    (destruct (rmap AndhraPradeshCcp.set_md5 nurse_trainings)
       as [[|n ns]|e] eqn:En; simpl; [| |done]).
  - intros [= <-]. apply rmap_nil_inv in Ep, En. by subst.
  - destruct (AndhraPradeshCcp.nurse_trainings_frame (n :: ns)); [|done].
    intros [= <-]. apply rmap_nil_inv in Ep. apply rmap_cons_inv in En.
    subst. by split.
  - destruct (AndhraPradeshCcp.patient_trainings_frame (p :: ps)); [|done].
    intros [= <-]. apply rmap_nil_inv in En. apply rmap_cons_inv in Ep.
    subst. by split.
  - destruct (AndhraPradeshCcp.patient_trainings_frame (p :: ps)); [|done].
    simpl.
    destruct (AndhraPradeshCcp.nurse_trainings_frame (n :: ns)); [|done].
    intros [= <-]. apply rmap_cons_inv in En. apply rmap_cons_inv in Ep.
    by split.
Qed.

End EmptyBatch.

(** The tables of the load jobs in a log, newest first. *)
Definition tables_loaded (l : list event) : list string :=
  omap (fun e => match e with EvLoad t _ _ => Some t | _ => None end) l.

Lemma add_extracted_columns_runs df t w :
  exists df' w',
    ApiExport.add_extracted_columns df (Some t) w = (Ok df', w')
    /\ log w' = log w /\ warehouse w' = warehouse w
    /\ height df' = height df.
Proof.
  unfold ApiExport.add_extracted_columns, bind, ApiExport.draw_uuids, ret.
  simpl. eexists _, _. split; [reflexivity|]. repeat split.
  unfold height, with_series, with_lit. simpl.
  rewrite length_zip_with, !length_fmap, length_seq. lia.
Qed.

Lemma write_bigquery_runs df t d w :
  d <> WRITE_EMPTY ->
  exists w',
    ApiExport.write_bigquery df t d w = (Ok (height df), w')
    /\ log w' = EvLoad t d df :: log w.
Proof.
  intros Hd. unfold ApiExport.write_bigquery.
  destruct d; [done| |]; simpl.
  - by eexists.
  - destruct (warehouse w !! t); by eexists.
Qed.

Definition known_table (t : string) : Prop :=
  t ∈ ["nurses"; "patient_training_sessions"; "nurse_training_sessions"].

Lemma write_dispositions_known t :
  known_table t ->
  exists d, dict_item AndhraPradeshCcp.write_dispositions t = Ok d
            /\ d <> WRITE_EMPTY.
Proof.
  unfold known_table. rewrite !elem_of_cons, elem_of_nil.
  intros [-> | [-> | [-> | []]]]; by eexists.
Qed.

(** The loader of [andhra_pradesh_ccp.py] runs one load job for each table
    of the dict, and nothing else; a dict without tables loads nothing. *)
Lemma ccp_write_each_loads extracted_at data : forall w,
  Forall known_table (dict_keys data) ->
  exists w',
    AndhraPradeshCcp.write_each extracted_at data w = (Ok tt, w')
    /\ tables_loaded (log w') = rev (dict_keys data) ++ tables_loaded (log w).
Proof.
  induction data as [|[key df] data IH]; intros w Hknown.
  - by exists w.
  - inversion Hknown as [|? ? Hkey Hrest]; subst. simpl.
    destruct (add_extracted_columns_runs df extracted_at w)
      as (df' & w1 & Hadd & Hlog1 & _ & _).
    unfold AndhraPradeshCcp.utils.add_extracted_columns.
    rewrite (bind_returns _ _ _ _ _ Hadd).
    destruct (write_dispositions_known key Hkey) as (d & Hd & Hne).
    unfold lift at 1, bind at 1. rewrite Hd.
    destruct (write_bigquery_runs df' key d w1 Hne) as (w2 & Hwrite & Hlog2).
    unfold AndhraPradeshCcp.utils.write_bigquery.
    rewrite (bind_returns _ _ _ _ _ Hwrite).
    destruct (IH w2 Hrest) as (w3 & Hrun & Hlog3).
    exists w3. split; [done|].
    rewrite Hlog3, Hlog2, <- Hlog1. simpl. by rewrite <- (assoc_L (++)).
Qed.

Lemma ccp_write_data_to_bigquery_loads data w :
  Forall known_table (dict_keys data) ->
  exists w',
    AndhraPradeshCcp.write_data_to_bigquery data w = (Ok tt, w')
    /\ tables_loaded (log w') = rev (dict_keys data) ++ tables_loaded (log w).
Proof.
  intros Hknown. unfold AndhraPradeshCcp.write_data_to_bigquery, bind at 1.
  by apply ccp_write_each_loads.
Qed.

Lemma api_export_main_nothing_fetched `{Externals} args params w dates w1 w2 :
  config w = Ok params ->
  ApiExport.get_dates args w = (Ok dates, w1) ->
  ApiExport.read_data_from_api params dates w1 = (Ok None, w2) ->
  ApiExport.main args w = (Ok tt, w2).
Proof.
  intros Hconfig Hdates Hread.
  rewrite (api_export_main_bound args w params Hconfig).
  unfold ApiExport.main_try.
  rewrite (bind_returns _ _ _ _ _ Hdates).
  by rewrite (bind_returns _ _ _ _ _ Hread).
Qed.

Definition nurse_session_record : json :=
  JObj [("sessiondateandtime", JStr "14-03-2024");
        ("total_trainees", JStr "5");
        ("trainerdata1", JArr [JObj [("phone_no", JStr "91234")]])].

Definition is_nurse_training (rq : request) : bool :=
  bool_decide (dict_get (rq_json rq) "get_total_nurse_training_sessiondata"
               = Some (JBool true)).

(** A server with one nurse training a day and no patient training. *)
Definition nurse_training_server (sent : list request) : reply :=
  match sent with
  | rq :: _ =>
      if is_login rq then replied_ok (login_body "key-1")
      else if is_nurse_training rq
           then replied_ok (data_body [nurse_session_record])
           else replied_ok no_data_body
  | [] => Unreachable
  end.

Definition world_nurse_trainings : world :=
  with_server nurse_training_server (configured sample_params world0).

(** C7, counterexample. In [api_export.py], a day with a nurse training
    and no patient training: the fetch brings back the nurse training and
    [read_data_from_api] returns [None], no table at all, where
    [read_sessions_data_from_api] of the other script makes the table. *)
Lemma api_export_drops_nurse_trainings :
  (ApiExport.fetch_trainings sample_params yesterday world_nurse_trainings).1
  = Ok (set_key (new_Report "https://api.example" "sync" "secret") (JStr "key-1"),
        1000%nat, [], [nurse_session_record])
  /\ (@ApiExport.read_data_from_api sample_externals sample_params yesterday
        world_nurse_trainings).1 = Ok None
  /\ (dict_keys <$>
      (match (@AndhraPradeshCcp.read_sessions_data_from_api sample_externals
                sample_params yesterday world_nurse_trainings).1 with
       | Ok data => Some data
       | Raise _ => None
       end)) = Some ["nurse_training_sessions"].
Proof. vm_compute. repeat split. Qed.

(** C7, amended. In [andhra_pradesh_ccp.py] a kind without raw records
    gets no table and the other kinds get theirs: [sessions_frames] with
    no patient training is the table of the nurse trainings alone, and the
    other way round; its result lacks a table exactly for the kinds that
    were empty; no nurse gives the empty dict. Its loader runs one load
    job per table of the dict it is given, so a table that is missing is
    nothing to load and no error. In [api_export.py] no patient training
    makes [read_data_from_api] return [None], whatever nurse trainings
    were fetched, and [main] then returns with nothing loaded. *)
Theorem empty_batch_by_script `{Externals} :
  (forall nurse_trainings,
     AndhraPradeshCcp.sessions_frames [] nurse_trainings
     = match nurse_trainings with
       | [] => Ok []
       | _ =>
           hashed <-? rmap AndhraPradeshCcp.set_md5 nurse_trainings;;
           df <-? AndhraPradeshCcp.nurse_trainings_frame hashed;;
           Ok [("nurse_training_sessions", df)]
       end)
  /\ (forall patient_trainings,
        AndhraPradeshCcp.sessions_frames patient_trainings []
        = match patient_trainings with
          | [] => Ok []
          | _ =>
              hashed <-? rmap AndhraPradeshCcp.set_md5 patient_trainings;;
              df <-? AndhraPradeshCcp.patient_trainings_frame hashed;;
              Ok [("patient_training_sessions", df)]
          end)
  /\ (forall patient_trainings nurse_trainings data,
        AndhraPradeshCcp.sessions_frames patient_trainings nurse_trainings
        = Ok data ->
        (dict_get data "patient_training_sessions" = None
         <-> patient_trainings = [])
        /\ (dict_get data "nurse_training_sessions" = None
            <-> nurse_trainings = []))
  /\ AndhraPradeshCcp.nurses_frames [] = Ok []
  /\ (forall data w,
        Forall known_table (dict_keys data) ->
        exists w',
          AndhraPradeshCcp.write_data_to_bigquery data w = (Ok tt, w')
          /\ tables_loaded (log w')
             = rev (dict_keys data) ++ tables_loaded (log w))
  /\ (forall report depth nurse_trainings,
        ApiExport.tables_of_trainings report depth [] nurse_trainings
        = ret None)
  /\ (forall args params w dates w1 w2,
        config w = Ok params ->
        ApiExport.get_dates args w = (Ok dates, w1) ->
        ApiExport.read_data_from_api params dates w1 = (Ok None, w2) ->
        ApiExport.main args w = (Ok tt, w2)).
Proof.
  split; [apply sessions_frames_no_patients|].
  split; [apply sessions_frames_no_nurse_trainings|].
  split; [apply sessions_frames_keys|].
  split; [reflexivity|].
  split; [apply ccp_write_data_to_bigquery_loads|].
  split; [reflexivity|].
  apply api_export_main_nothing_fetched.
Qed.

Definition nurse_trainings_after : world :=
  (@ApiExport.read_data_from_api sample_externals sample_params yesterday
     world_nurse_trainings).2.

Lemma empty_batch_by_script_witness :
  @ApiExport.main sample_externals args_yesterday world_nurse_trainings
  = (Ok tt, nurse_trainings_after).
Proof.
  apply (proj2 (proj2 (proj2 (proj2 (proj2 (proj2
           (@empty_batch_by_script sample_externals)))))))
    with (params := sample_params) (dates := yesterday)
         (w1 := world_nurse_trainings).
  - reflexivity.
  - reflexivity.
  - vm_compute. reflexivity.
Defined.

(** ** Grouping by a key and keeping the last row *)


Section GroupBy.
Variable c : string.















End GroupBy.

(** ** Loading into the warehouse *)

(** A row with its two extraction columns. *)
Definition stamp_row (t : Z) (u : string) (r : row) : row :=
  <["_extracted_uuid" := CJson (JStr u)]> (<["_extracted_at" := CDatetime t]> r).

(** A frame with its extraction columns: the time [t] of the run, and for
    row [i] the identifier number [first + i] of the source. *)
Definition stamped (t : Z) (src : nat -> string) (first : nat) (df : frame)
  : frame :=
  Frame (add_column "_extracted_uuid" (add_column "_extracted_at" (columns df)))
        (imap (fun i r => stamp_row t (src (first + i)%nat) r) (rows df)).

Lemma zip_stamp (t : Z) (src : nat -> string) (rs : list row) : forall first,
  zip_with (fun (r : row) v => <["_extracted_uuid" := v]> r)
    ((fun r : row => <["_extracted_at" := CDatetime t]> r) <$> rs)
    ((fun u => CJson (JStr u)) <$> (src <$> seq first (length rs)))
  = imap (fun i r => stamp_row t (src (first + i)%nat) r) rs.
Proof.
  induction rs as [|r rs IH]; intros first; [done|].
  simpl. rewrite Nat.add_0_r. f_equal. rewrite IH.
  apply imap_ext. intros i x _. simpl. by rewrite Nat.add_succ_r.
Qed.

Lemma add_extracted_columns_stamped df t w :
  ApiExport.add_extracted_columns df (Some t) w
  = (Ok (stamped t (uuid_source w) (uuid_drawn w) df),
     set_uuid_drawn (uuid_drawn w + height df) w).
Proof.
  unfold ApiExport.add_extracted_columns, bind, ApiExport.draw_uuids, ret.
  unfold with_series, with_lit, stamped, height. simpl.
  rewrite length_fmap. by rewrite zip_stamp.
Qed.

Lemma stamped_height t src first df : height (stamped t src first df) = height df.
Proof. unfold height, stamped. simpl. apply length_imap. Qed.





(** The dict [read_data_from_api] returns. *)
Definition three_tables (n p t : frame) : list (string * frame) :=
  [("nurses", n); ("patient_training_sessions", p);
   ("nurse_training_sessions", t)].











Definition nurse_row (username name : string) : row :=
  {["username" := CJson (JStr username); "name" := CJson (JStr name)]}.

Definition nurses_frame (rs : list row) : frame := Frame ["username"; "name"] rs.

(** The name stored under each username. *)
Definition names_by_username (df : option frame) : list (option cell * option cell) :=
  match df with
  | Some df => (fun r : row => (r !! "username", r !! "name")) <$> rows df
  | None => []
  end.

Definition empty_facts : frame := Frame [] [].

(** The warehouse after batch A: key 91234, version 1. *)
Definition world_after_A : world :=
  (ApiExport.write_data_to_bigquery
     (three_tables (nurses_frame [nurse_row "91234" "version 1"])
                   empty_facts empty_facts) world0).2.



(** Batch B: key 91234 in version 2, and the new key 99999. *)
Definition batch_B : frame :=
  nurses_frame [nurse_row "91234" "version 2"; nurse_row "99999" "version 1"].


Definition world_after_B : world :=
  (ApiExport.write_data_to_bigquery
     (three_tables batch_B empty_facts empty_facts) world_after_A).2.


(** Batch A, then batch B: one row for 91234, with the contents of
    version 2, and one for 99999; two rows, not three. *)
Example batch_A_then_batch_B :
  names_by_username (warehouse world_after_B !! "nurses")
  = [(Some (CJson (JStr "91234")), Some (CJson (JStr "version 2")));
     (Some (CJson (JStr "99999")), Some (CJson (JStr "version 1")))].
Proof. vm_compute. reflexivity. Qed.

(** ** Fact tables *)

Definition asks (operation : string) (rq : request) : bool :=
  bool_decide (dict_get (rq_json rq) operation = Some (JBool true)).

Definition for_date (d : string) (rq : request) : bool :=
  bool_decide (dict_get (rq_json rq) "date" = Some (JStr d)).

Definition march_14_session : json :=
  JObj [("date_of_session", JStr "14-03-2024");
        ("session_conducted_by", JStr "91234");
        ("total_trained", JStr "12")].

Definition march_14_nurse_training : json :=
  JObj [("sessiondateandtime", JStr "14-03-2024");
        ("total_trainees", JStr "5");
        ("trainerdata1", JArr [JObj [("phone_no", JStr "91234")]])].

Definition nurse_91234 : json :=
  JObj [("username", JStr "91234"); ("name", JStr "version 1");
        ("user_created_dateandtime", JStr "2023-07-01 09:00:00")].

(** A server with one patient training and one nurse training, both on
    2024-03-14, and the details of the nurse who conducted them. *)
Definition sync_server (sent : list request) : reply :=
  match sent with
  | rq :: _ =>
      if is_login rq then replied_ok (login_body "key-1")
      else if asks "get_nurses_detailes_data" rq
      then replied_ok (data_body [nurse_91234])
      else if for_date "14-03-2024" rq then
        if asks "get_total_ccp_class_attendancedata" rq
        then replied_ok (data_body [march_14_session])
        else replied_ok (data_body [march_14_nurse_training])
      else replied_ok no_data_body
  | [] => Unreachable
  end.

Definition world_sync : world :=
  with_server sync_server (configured sample_params world0).

(** The fingerprints stored in a table. *)
Definition fingerprints (df : option frame) : list (option cell) :=
  match df with
  | Some df => (fun r : row => r !! "md5") <$> rows df
  | None => []
  end.








(** ** The content fingerprint *)

(** *** Sorting the items of a dict *)

Definition on_value {V W} (f : V -> W) (kv : string * V) : string * W :=
  (kv.1, f kv.2).

Definition by_key {V} (x y : string * V) : Prop := String.le x.1 y.1.

Lemma distinct_keys_item {V} (l : list (string * V)) (x y : string * V) :
  NoDup l.*1 -> x ∈ l -> y ∈ l -> x.1 = y.1 -> x = y.
Proof.
  induction l as [|a l IH]; intros Hnd Hx Hy Hkey.
  - by apply elem_of_nil in Hx.
  - rewrite fmap_cons in Hnd. apply NoDup_cons in Hnd as [Ha Hnd].
    apply elem_of_cons in Hx as [-> |Hx]; apply elem_of_cons in Hy as [-> |Hy].
    + done.
    + destruct Ha. rewrite Hkey. apply list_elem_of_fmap. by exists y.
    + destruct Ha. rewrite <- Hkey. apply list_elem_of_fmap. by exists x.
    + by apply IH.
Qed.

Section SortItems.
Context {V : Type}.

Global Instance by_key_trans : Transitive (@by_key V).
Proof. intros x y z. unfold by_key. apply transitivity. Qed.

Lemma insert_item_perm (x : string * V) l : insert_item x l ≡ₚ x :: l.
Proof.
  induction l as [|y l IH]; [done|]. simpl.
  destruct (decide (String.le x.1 y.1)); [done|].
  rewrite IH. apply Permutation_swap.
Qed.

Lemma sort_items_perm (l : list (string * V)) : sort_items l ≡ₚ l.
Proof.
  induction l as [|x l IH]; [done|]. simpl.
  by rewrite insert_item_perm, IH.
Qed.

Lemma insert_item_sorted (x : string * V) l :
  Sorted by_key l -> Sorted by_key (insert_item x l).
Proof.
  induction l as [|y l IH]; intros Hl; simpl.
  - by repeat constructor.
  - destruct (decide (String.le x.1 y.1)) as [Hle|Hnle].
    + constructor; [done|]. by constructor.
    + apply Sorted_inv in Hl as [Hl Hhd]. constructor; [by apply IH|].
      assert (by_key y x) as Hyx.
      { unfold by_key. by destruct (stdpp.base.total String.le x.1 y.1). }
      destruct l as [|z l]; simpl.
      * by constructor.
      * destruct (decide (String.le x.1 z.1)); constructor; [done|].
        by apply HdRel_inv in Hhd.
Qed.

Lemma sort_items_sorted (l : list (string * V)) : Sorted by_key (sort_items l).
Proof.
  induction l as [|x l IH]; simpl; [constructor|].
  by apply insert_item_sorted.
Qed.

(** Two orders of the same items, with distinct keys, sort to the same
    list. *)
Lemma sort_items_unique (l1 l2 : list (string * V)) :
  NoDup l1.*1 -> l1 ≡ₚ l2 -> sort_items l1 = sort_items l2.
Proof.
  intros Hnd Hperm.
  apply (Sorted_unique_strong by_key); try apply sort_items_sorted.
  - intros x y Hx Hy Hxy Hyx.
    assert (x.1 = y.1) as Hkey by (by apply (anti_symm String.le)).
    rewrite sort_items_perm in Hx. rewrite sort_items_perm, <- Hperm in Hy.
    by apply (distinct_keys_item l1).
  - by rewrite !sort_items_perm.
Qed.

End SortItems.

Lemma insert_item_on_value {V W} (f : V -> W) (x : string * V) l :
  insert_item (on_value f x) (map (on_value f) l)
  = map (on_value f) (insert_item x l).
Proof.
  induction l as [|y l IH]; [done|]. simpl.
  destruct (decide (String.le x.1 y.1)); [done|]. simpl. by rewrite <- IH.
Qed.

(** Sorting looks at the keys only. *)
Lemma sort_items_on_value {V W} (f : V -> W) (l : list (string * V)) :
  sort_items (map (on_value f) l) = map (on_value f) (sort_items l).
Proof.
  induction l as [|x l IH]; [done|]. simpl.
  by rewrite IH, insert_item_on_value.
Qed.

(** *** The canonical form *)

(** [sort_keys=True] writes the text of the canonical form. *)
Lemma dumps_canon (x : json) : dumps true x = dumps false (canon x).
Proof.
  induction x as [| | | |l IH|o IH] using json_nested_ind; try done.
  - assert (map (dumps true) l = map (dumps false) (map canon l)) as Hl.
    { induction IH as [|x l Hx _ IHl]; [done|]. simpl. by rewrite Hx, IHl. }
    simpl. by rewrite Hl.
  - assert (map (on_value (dumps true)) o
            = map (on_value (dumps false)) (map (on_value canon) o)) as Ho.
    { induction IH as [|[k v] o Hv _ IHo]; [done|].
      simpl in Hv. cbn [map]. rewrite <- IHo. unfold on_value at 1 3.
      simpl. by rewrite Hv. }
    simpl.
    change (fun kv : string * json => (kv.1, canon kv.2)) with (on_value canon).
    change (fun kv : string * json => (kv.1, dumps true kv.2))
      with (on_value (dumps true)).
    change (fun kv : string * json => (kv.1, dumps false kv.2))
      with (on_value (dumps false)).
    by rewrite <- sort_items_on_value, Ho.
Qed.

(** *** Records that are equal as key-value maps *)

Set Warnings "-register-all".

(** [same_value x y]: [x] and [y] are one JSON value: the same scalar,
    lists that agree element by element, dicts that hold the same keys
    with the same values under them, in whatever order the keys were
    inserted. *)
Inductive same_value : json -> json -> Prop :=
  | same_null : same_value JNull JNull
  | same_bool b : same_value (JBool b) (JBool b)
  | same_int n : same_value (JInt n) (JInt n)
  | same_str s : same_value (JStr s) (JStr s)
  | same_arr l1 l2 :
      Forall2 same_value l1 l2 -> same_value (JArr l1) (JArr l2)
  | same_obj o1 o2 o2' :
      NoDup o1.*1 ->
      o2 ≡ₚ o2' ->
      Forall2 (fun a b => a.1 = b.1 /\ same_value a.2 b.2) o1 o2' ->
      same_value (JObj o1) (JObj o2).

Lemma keys_on_value {V W} (f : V -> W) (l : list (string * V)) :
  (map (on_value f) l).*1 = l.*1.
Proof. induction l as [|x l IH]; [done|]. csimpl. by rewrite IH. Qed.

(** Values that are equal as maps have one canonical form. *)
Lemma same_value_canon : forall x y, same_value x y -> canon x = canon y.
Proof.
  fix IH 3. intros x y H.
  destruct H as [| | | |l1 l2 Hl|o1 o2 o2' Hnd Hp Hf]; try reflexivity.
  - simpl. f_equal.
    induction Hl as [|a b l1 l2 Hab Hl IHl]; [done|].
    simpl. f_equal; [apply IH, Hab | apply IHl].
  - simpl. f_equal.
    change (fun kv : string * json => (kv.1, canon kv.2)) with (on_value canon).
    assert (map (on_value canon) o1 = map (on_value canon) o2') as E.
    { clear Hnd Hp.
      induction Hf as [|[k1 v1] [k2 v2] o1 o2' [Hk Hv] Hf IHf]; [done|].
      simpl in Hk. subst k2. simpl. f_equal; [|apply IHf].
      unfold on_value. simpl. f_equal. apply IH, Hv. }
    rewrite E. apply sort_items_unique.
    + by rewrite <- E, keys_on_value.
    + symmetry. by apply Permutation_map.
Qed.

(** *** Reading a field of the canonical form *)

Lemma dict_get_on_value {V W} (f : V -> W) (d : list (string * V)) k :
  dict_get (map (on_value f) d) k = f <$> dict_get d k.
Proof.
  induction d as [|[k' v] d IH]; [done|]. simpl.
  by destruct (decide (k' = k)).
Qed.

Lemma dict_get_Some {V} (d : list (string * V)) k v :
  NoDup d.*1 -> dict_get d k = Some v <-> (k, v) ∈ d.
Proof.
  induction d as [|[k' v'] d IH]; intros Hnd; simpl.
  - split; [done|]. by intros ?%elem_of_nil.
  - rewrite fmap_cons in Hnd. apply NoDup_cons in Hnd as [Hk' Hnd].
    rewrite elem_of_cons. destruct (decide (k' = k)) as [->|Hne].
    + split.
      * intros [= ->]. by left.
      * intros [[= ->]|Hin]; [done|].
        destruct Hk'. apply list_elem_of_fmap. by exists (k, v).
    + rewrite (IH Hnd). split; [by right|].
      intros [[= -> ->]|Hin]; [done|done].
Qed.

(** With distinct keys, the order of the items does not show in the
    fields. *)
Lemma dict_get_perm {V} (d1 d2 : list (string * V)) k :
  NoDup d1.*1 -> d1 ≡ₚ d2 -> dict_get d1 k = dict_get d2 k.
Proof.
  intros Hnd1 Hperm.
  assert (NoDup d2.*1) as Hnd2 by (by rewrite <- Hperm).
  destruct (dict_get d1 k) as [v1|] eqn:E1.
  - symmetry. apply dict_get_Some; [done|]. rewrite <- Hperm.
    by apply dict_get_Some.
  - destruct (dict_get d2 k) as [v2|] eqn:E2; [|done].
    apply dict_get_Some in E2; [|done]. rewrite <- Hperm in E2.
    apply dict_get_Some in E2; [|done]. congruence.
Qed.

(** Two records with one canonical form have the same fields, each with
    one canonical form. *)
Lemma canon_fields (d1 d2 : dict) k :
  NoDup d1.*1 -> NoDup d2.*1 ->
  canon (JObj d1) = canon (JObj d2) ->
  canon <$> dict_get d1 k = canon <$> dict_get d2 k.
Proof.
  intros Hnd1 Hnd2 [= Hsort].
  change (fun kv : string * json => (kv.1, canon kv.2))
    with (on_value canon) in Hsort.
  rewrite <- !(dict_get_on_value canon).
  apply dict_get_perm; [by rewrite keys_on_value|].
  by rewrite <- (sort_items_perm (map _ d1)), Hsort, sort_items_perm.
Qed.

(** *** The text determines the value

    [json.dumps] without [sort_keys] is injective: the text can be read
    back in one way only. Strings are read back escape by escape, numbers
    as the longest run of digits, lists and dicts item by item. *)

Lemma app_cons (a : ascii) (s t : string) : String a s +:+ t = String a (s +:+ t).
Proof. reflexivity. Qed.

Lemma app_empty (t : string) : "" +:+ t = t.
Proof. reflexivity. Qed.

Lemma app_assoc_string (s t u : string) : (s +:+ t) +:+ u = s +:+ (t +:+ u).
Proof.
  induction s as [|a s IH]; [done|]. by rewrite !app_cons, IH.
Qed.

Definition hex_value (a : ascii) : option N :=
  let n := N_of_ascii a in
  if (48 <=? n)%N && (n <=? 57)%N then Some (n - 48)%N
  else if (97 <=? n)%N && (n <=? 102)%N then Some (n - 87)%N
  else None.

(** Reading one escaped character off the front of a text. *)
Definition unescape1 (s : string) : option (ascii * string) :=
  match s with
  | EmptyString => None
  | String c rest =>
      if decide (c = dquote) then None
      else if decide (c = backslash) then
        match rest with
        | EmptyString => None
        | String e rest =>
            if decide (e = backslash) then Some (backslash, rest)
            else if decide (e = dquote) then Some (dquote, rest)
            else if decide (e = "b"%char) then Some (ascii_of_nat 8, rest)
            else if decide (e = "f"%char) then Some (ascii_of_nat 12, rest)
            else if decide (e = "n"%char) then Some (ascii_of_nat 10, rest)
            else if decide (e = "r"%char) then Some (ascii_of_nat 13, rest)
            else if decide (e = "t"%char) then Some (ascii_of_nat 9, rest)
            else if decide (e = "u"%char) then
              match rest with
              | String _ (String _ (String h1 (String h2 rest))) =>
                  match hex_value h1, hex_value h2 with
                  | Some a, Some b => Some (ascii_of_N (16 * a + b), rest)
                  | _, _ => None
                  end
              | _ => None
              end
            else None
        end
      else Some (c, rest)
  end.

Lemma unescape1_escape (a : ascii) (k : string) :
  unescape1 (escape_char a +:+ k) = Some (a, k).
Proof. destruct a as [[] [] [] [] [] [] [] []]; reflexivity. Qed.

Lemma unescape1_quote (k : string) : unescape1 (String dquote k) = None.
Proof. reflexivity. Qed.

(** The escaped characters of [s], then [k]. *)
Fixpoint escaped (s : string) (k : string) : string :=
  match s with
  | EmptyString => k
  | String a s => escape_char a +:+ escaped s k
  end.

Lemma escape_chars_app (s k : string) : escape_chars s +:+ k = escaped s k.
Proof.
  induction s as [|a s IH]; [done|]. simpl.
  by rewrite app_assoc_string, IH.
Qed.

Lemma encode_basestring_ascii_app (s k : string) :
  encode_basestring_ascii s +:+ k = String dquote (escaped s (String dquote k)).
Proof.
  unfold encode_basestring_ascii.
  by rewrite app_cons, app_assoc_string, app_cons, app_empty, escape_chars_app.
Qed.

Lemma escaped_inj (s1 s2 k1 k2 : string) :
  escaped s1 (String dquote k1) = escaped s2 (String dquote k2) ->
  s1 = s2 /\ k1 = k2.
Proof.
  revert s2. induction s1 as [|a s1 IH]; intros [|b s2] Heq; simpl in Heq.
  - by injection Heq as ->.
  - apply (f_equal unescape1) in Heq.
    by rewrite unescape1_quote, unescape1_escape in Heq.
  - apply (f_equal unescape1) in Heq.
    by rewrite unescape1_quote, unescape1_escape in Heq.
  - apply (f_equal unescape1) in Heq.
    rewrite !unescape1_escape in Heq. injection Heq as -> Heq.
    destruct (IH _ Heq) as [-> ->]. done.
Qed.

(** A string can be read off the front of a text in one way. *)
Lemma encode_basestring_ascii_inj (s1 s2 k1 k2 : string) :
  encode_basestring_ascii s1 +:+ k1 = encode_basestring_ascii s2 +:+ k2 ->
  s1 = s2 /\ k1 = k2.
Proof.
  rewrite !encode_basestring_ascii_app. intros [= Heq].
  by apply escaped_inj.
Qed.

Definition is_digit (a : ascii) : bool :=
  let n := N_of_ascii a in (48 <=? n)%N && (n <=? 57)%N.

(** A text that does not go on with a digit: what follows a number. *)
Definition closes (s : string) : Prop :=
  match s with
  | EmptyString => True
  | String a _ => is_digit a = false
  end.

Lemma string_of_uint_app_inj (d1 : Decimal.uint) : forall d2 k1 k2,
  NilEmpty.string_of_uint d1 +:+ k1 = NilEmpty.string_of_uint d2 +:+ k2 ->
  closes k1 -> closes k2 -> d1 = d2 /\ k1 = k2.
Proof.
  induction d1 as [|d1 IH|d1 IH|d1 IH|d1 IH|d1 IH|d1 IH|d1 IH|d1 IH|d1 IH|d1 IH];
    intros [|d2|d2|d2|d2|d2|d2|d2|d2|d2|d2] k1 k2 Heq C1 C2;
    simpl in Heq; rewrite ?app_cons, ?app_empty in Heq;
    try discriminate Heq;
    try (subst; simpl in *; discriminate);
    try (injection Heq as Heq; destruct (IH _ _ _ Heq C1 C2) as [-> ->]; done).
  done.
Qed.

(** The digits of [repr n], without the sign. *)
Definition digits (n : Z) : Decimal.uint :=
  match n with
  | Z0 => Decimal.D0 Decimal.Nil
  | Zpos p | Zneg p => Pos.to_uint p
  end.

Lemma digits_nonnil n : digits n <> Decimal.Nil.
Proof. destruct n; simpl; [done| |]; apply DecimalPos.Unsigned.to_uint_nonnil. Qed.

Lemma int_repr_digits n :
  int_repr n
  = (if n <? 0 then "-" else "") +:+ NilEmpty.string_of_uint (digits n).
Proof.
  unfold int_repr. destruct n as [|p|p]; simpl; [done| |];
    pose proof (DecimalPos.Unsigned.to_uint_nonnil p) as Hnil;
    unfold NilZero.string_of_uint; by destruct (Pos.to_uint p).
Qed.

Lemma string_of_uint_head d :
  d <> Decimal.Nil ->
  exists c r, NilEmpty.string_of_uint d = String c r /\ is_digit c = true.
Proof. destruct d; [done|..]; intros _; by eexists _, _. Qed.

Lemma digits_inj n m :
  (n <? 0) = (m <? 0) -> digits n = digits m -> n = m.
Proof.
  assert (forall p q, Pos.to_uint p = Pos.to_uint q -> p = q) as Hinj.
  { intros p q Hpq. apply (f_equal Pos.of_uint) in Hpq.
    rewrite !DecimalPos.Unsigned.of_to in Hpq. by injection Hpq. }
  destruct n as [|p|p], m as [|q|q]; simpl; intros Hsign Hd; try done.
  - symmetry in Hd. by apply DecimalPos.Unsigned.to_uint_nonzero in Hd.
  - by apply DecimalPos.Unsigned.to_uint_nonzero in Hd.
  - f_equal. by apply Hinj.
  - f_equal. by apply Hinj.
Qed.

(** A number can be read off the front of a text in one way, when the
    text does not go on with a digit. *)
Lemma int_repr_inj (n m : Z) (k1 k2 : string) :
  int_repr n +:+ k1 = int_repr m +:+ k2 ->
  closes k1 -> closes k2 -> n = m /\ k1 = k2.
Proof.
  rewrite !int_repr_digits. intros Heq C1 C2.
  destruct (string_of_uint_head (digits n) (digits_nonnil n))
    as (c1 & r1 & E1 & D1).
  destruct (string_of_uint_head (digits m) (digits_nonnil m))
    as (c2 & r2 & E2 & D2).
  destruct (n <? 0) eqn:Sn, (m <? 0) eqn:Sm;
    rewrite ?app_assoc_string, ?app_cons, ?app_empty in Heq.
  - injection Heq as Heq.
    destruct (string_of_uint_app_inj _ _ _ _ Heq C1 C2) as [Hd ->].
    split; [|done]. apply digits_inj; [congruence|done].
  - rewrite E2, app_cons in Heq. injection Heq as <- _. discriminate D2.
  - rewrite E1, app_cons in Heq. injection Heq as -> _. discriminate D1.
  - destruct (string_of_uint_app_inj _ _ _ _ Heq C1 C2) as [Hd ->].
    split; [|done]. apply digits_inj; [congruence|done].
Qed.

(** The first character of a text tells what kind of value it starts. *)
Definition kind_of_char (a : ascii) : nat :=
  if is_digit a then 3
  else if decide (a = "-"%char) then 3
  else if decide (a = "n"%char) then 0
  else if decide (a = "t"%char) then 1
  else if decide (a = "f"%char) then 2
  else if decide (a = dquote) then 4
  else if decide (a = "["%char) then 5
  else if decide (a = "{"%char) then 6
  else 7.

Definition kind (x : json) : nat :=
  match x with
  | JNull => 0
  | JBool true => 1
  | JBool false => 2
  | JInt _ => 3
  | JStr _ => 4
  | JArr _ => 5
  | JObj _ => 6
  end.

Lemma dumps_start (x : json) (k : string) :
  exists c r, dumps false x +:+ k = String c r /\ kind_of_char c = kind x.
Proof.
  destruct x as [|[]|n|s|l|o]; try (by eexists _, _).
  - simpl. rewrite int_repr_digits.
    destruct (string_of_uint_head (digits n) (digits_nonnil n))
      as (c & r & E & D).
    destruct (n <? 0).
    + by eexists _, _.
    + rewrite app_empty, E, app_cons. eexists _, _. split; [done|].
      unfold kind_of_char. by rewrite D.
Qed.

(** Texts that start values of different kinds are different. *)
Lemma dumps_kind (x y : json) (k1 k2 : string) :
  dumps false x +:+ k1 = dumps false y +:+ k2 -> kind x = kind y.
Proof.
  intros Heq.
  destruct (dumps_start x k1) as (c1 & r1 & E1 & <-).
  destruct (dumps_start y k2) as (c2 & r2 & E2 & <-).
  rewrite E1, E2 in Heq. by injection Heq as -> _.
Qed.

(** The elements of a list after the first one, and the text after the
    list. *)
Fixpoint more_values (l : list json) (k : string) : string :=
  match l with
  | [] => String "]" k
  | x :: l => String "," (String " " (dumps false x +:+ more_values l k))
  end.

Definition values (l : list json) (k : string) : string :=
  match l with
  | [] => String "]" k
  | x :: l => dumps false x +:+ more_values l k
  end.

Definition item_text (kv : string * json) (k : string) : string :=
  encode_basestring_ascii kv.1 +:+ String ":" (String " " (dumps false kv.2 +:+ k)).

Fixpoint more_items (o : dict) (k : string) : string :=
  match o with
  | [] => String "}" k
  | kv :: o => String "," (String " " (item_text kv (more_items o k)))
  end.

Definition items (o : dict) (k : string) : string :=
  match o with
  | [] => String "}" k
  | kv :: o => item_text kv (more_items o k)
  end.

Lemma join_comma_more (x : json) (l : list json) (k : string) :
  join_comma (map (dumps false) (x :: l)) +:+ "]" +:+ k
  = dumps false x +:+ more_values l k.
Proof.
  revert x. induction l as [|y l IH]; intros x; [done|].
  change (join_comma (map (dumps false) (x :: y :: l)))
    with (dumps false x +:+ ", " +:+ join_comma (map (dumps false) (y :: l))).
  rewrite !app_assoc_string, IH. reflexivity.
Qed.

Lemma dumps_arr_app (l : list json) (k : string) :
  dumps false (JArr l) +:+ k = String "[" (values l k).
Proof.
  change (dumps false (JArr l) +:+ k)
    with (String "[" ((join_comma (map (dumps false) l) +:+ "]") +:+ k)).
  f_equal. rewrite app_assoc_string. destruct l as [|x l]; [done|].
  apply join_comma_more.
Qed.

Lemma encode_item_text (kv : string * json) (k : string) :
  encode_item (kv.1, dumps false kv.2) +:+ k = item_text kv k.
Proof.
  unfold encode_item, item_text. cbn [fst snd].
  by rewrite !app_assoc_string.
Qed.

Lemma join_comma_more_items (kv : string * json) (o : dict) (k : string) :
  join_comma (map encode_item
                (map (fun kv => (kv.1, dumps false kv.2)) (kv :: o)))
    +:+ "}" +:+ k
  = item_text kv (more_items o k).
Proof.
  revert kv. induction o as [|kv' o IH]; intros kv.
  - apply encode_item_text.
  - change (join_comma (map encode_item
              (map (fun kv => (kv.1, dumps false kv.2)) (kv :: kv' :: o))))
      with (encode_item (kv.1, dumps false kv.2) +:+ ", "
            +:+ join_comma (map encode_item
                  (map (fun kv => (kv.1, dumps false kv.2)) (kv' :: o)))).
    rewrite !app_assoc_string, IH. apply encode_item_text.
Qed.

Lemma dumps_obj_app (o : dict) (k : string) :
  dumps false (JObj o) +:+ k = String "{" (items o k).
Proof.
  change (dumps false (JObj o) +:+ k)
    with (String "{" ((join_comma
            (map encode_item (map (fun kv => (kv.1, dumps false kv.2)) o))
            +:+ "}") +:+ k)).
  f_equal. rewrite app_assoc_string. destruct o as [|kv o]; [done|].
  apply join_comma_more_items.
Qed.

Lemma closes_more_values l k : closes (more_values l k).
Proof. by destruct l. Qed.

Lemma closes_more_items o k : closes (more_items o k).
Proof. by destruct o. Qed.

(** [reads x]: the text of [x] can be read off the front of a text in
    one way. *)
Definition reads (x : json) : Prop :=
  forall y k1 k2,
    dumps false x +:+ k1 = dumps false y +:+ k2 ->
    closes k1 -> closes k2 -> x = y /\ k1 = k2.

Lemma more_values_inj (l1 : list json) :
  Forall reads l1 ->
  forall l2 k1 k2,
    more_values l1 k1 = more_values l2 k2 -> l1 = l2 /\ k1 = k2.
Proof.
  induction 1 as [|x l1 Hx _ IH]; intros [|y l2] k1 k2 Heq;
    cbn [more_values] in Heq; try discriminate Heq.
  - by injection Heq as ->.
  - injection Heq as Heq.
    destruct (Hx y _ _ Heq (closes_more_values _ _) (closes_more_values _ _))
      as [-> Hrest].
    by destruct (IH _ _ _ Hrest) as [-> ->].
Qed.

Lemma values_inj (l1 : list json) :
  Forall reads l1 ->
  forall l2 k1 k2, values l1 k1 = values l2 k2 -> l1 = l2 /\ k1 = k2.
Proof.
  intros Hl1 l2 k1 k2 Heq.
  destruct Hl1 as [|x l1 Hx Hl1], l2 as [|y l2]; cbn [values] in Heq.
  - by injection Heq as ->.
  - destruct (dumps_start y (more_values l2 k2)) as (c & r & E & Hk).
    rewrite E in Heq. injection Heq as <- _.
    by destruct y as [|[]| | | |].
  - destruct (dumps_start x (more_values l1 k1)) as (c & r & E & Hk).
    rewrite E in Heq. injection Heq as -> _.
    by destruct x as [|[]| | | |].
  - destruct (Hx y _ _ Heq (closes_more_values _ _) (closes_more_values _ _))
      as [-> Hrest].
    by destruct (more_values_inj l1 Hl1 _ _ _ Hrest) as [-> ->].
Qed.

Lemma item_text_inj (kv1 kv2 : string * json) (k1 k2 : string) :
  reads kv1.2 -> closes k1 -> closes k2 ->
  item_text kv1 k1 = item_text kv2 k2 -> kv1 = kv2 /\ k1 = k2.
Proof.
  destruct kv1 as [key1 v1], kv2 as [key2 v2]. unfold item_text.
  cbn [fst snd]. intros Hv C1 C2 Heq.
  apply encode_basestring_ascii_inj in Heq as [-> Heq].
  injection Heq as Heq.
  by destruct (Hv _ _ _ Heq C1 C2) as [-> ->].
Qed.

Lemma string_cons_inj (a b : ascii) (s t : string) :
  String a s = String b t -> a = b /\ s = t.
Proof. by injection 1. Qed.

Lemma item_text_start (kv : string * json) (k : string) :
  exists r, item_text kv k = String dquote r.
Proof. unfold item_text. rewrite encode_basestring_ascii_app. by eexists. Qed.

Lemma more_items_inj (o1 : dict) :
  Forall (fun kv => reads kv.2) o1 ->
  forall o2 k1 k2,
    more_items o1 k1 = more_items o2 k2 -> o1 = o2 /\ k1 = k2.
Proof.
  induction 1 as [|kv o1 Hkv _ IH]; intros [|kv' o2] k1 k2 Heq;
    cbn [more_items] in Heq; try discriminate Heq.
  - by injection Heq as ->.
  - apply string_cons_inj in Heq as [_ Heq].
    apply string_cons_inj in Heq as [_ Heq].
    apply item_text_inj in Heq as [-> Hrest];
      [|done|apply closes_more_items..].
    by destruct (IH _ _ _ Hrest) as [-> ->].
Qed.

Lemma items_inj (o1 : dict) :
  Forall (fun kv => reads kv.2) o1 ->
  forall o2 k1 k2, items o1 k1 = items o2 k2 -> o1 = o2 /\ k1 = k2.
Proof.
  intros Ho1 o2 k1 k2 Heq.
  destruct Ho1 as [|kv o1 Hkv Ho1], o2 as [|kv' o2]; cbn [items] in Heq.
  - by injection Heq as ->.
  - destruct (item_text_start kv' (more_items o2 k2)) as [r E].
    rewrite E in Heq. discriminate Heq.
  - destruct (item_text_start kv (more_items o1 k1)) as [r E].
    rewrite E in Heq. discriminate Heq.
  - apply item_text_inj in Heq as [-> Hrest];
      [|done|apply closes_more_items..].
    by destruct (more_items_inj o1 Ho1 _ _ _ Hrest) as [-> ->].
Qed.

(** Every value can be read back in one way. *)
Lemma dumps_reads (x : json) : reads x.
Proof.
  induction x as [| | | |l IH|o IH] using json_nested_ind;
    intros y k1 k2 Heq C1 C2;
    pose proof (dumps_kind _ _ _ _ Heq) as Hkind.
  - destruct y as [|[]| | | |]; try discriminate Hkind.
    simpl in Heq. rewrite !app_cons, !app_empty in Heq.
    by injection Heq as ->.
  - destruct b, y as [|[]| | | |]; try discriminate Hkind;
      simpl in Heq; rewrite !app_cons, !app_empty in Heq;
      by injection Heq as ->.
  - destruct y as [|[]|m| | |]; try discriminate Hkind.
    simpl in Heq. by destruct (int_repr_inj _ _ _ _ Heq C1 C2) as [-> ->].
  - destruct y as [|[]| |s'| |]; try discriminate Hkind.
    simpl in Heq. by apply encode_basestring_ascii_inj in Heq as [-> ->].
  - destruct y as [|[]| | |l'|]; try discriminate Hkind.
    rewrite !dumps_arr_app in Heq. injection Heq as Heq.
    by destruct (values_inj l IH _ _ _ Heq) as [-> ->].
  - destruct y as [|[]| | | |o']; try discriminate Hkind.
    rewrite !dumps_obj_app in Heq. injection Heq as Heq.
    by destruct (items_inj o IH _ _ _ Heq) as [-> ->].
Qed.

(** [json.dumps] is injective. *)
Lemma dumps_inj (x y : json) : dumps false x = dumps false y -> x = y.
Proof.
  intros Heq.
  assert (dumps false x +:+ "" = dumps false y +:+ "") as Heq'
    by (by rewrite Heq).
  by destruct (dumps_reads x y "" "" Heq' I I).
Qed.

(** *** The fingerprint in the tables

    The fingerprint is written into each record as fetched; the columns
    that are coerced afterwards are other columns. *)

Ltac no_md5 :=
  first [ discriminate
        | rewrite ?not_elem_of_cons; repeat split;
          first [discriminate | apply not_elem_of_nil] ].

Section Fingerprint.
Context `{Externals}.

(** The column [md5] that the records [xs], as fetched, should get. *)
Definition fingerprints_of (xs : list json) : list (option cell) :=
  (fun x => Some (CJson (JStr (ApiExport.dict_hash x)))) <$> xs.

Lemma row_of_dict_set (d : dict) (k : string) (s : string) :
  row_of_dict (dict_set d k (JStr s)) !! k = Some (CJson (JStr s)).
Proof.
  unfold row_of_dict. induction d as [|[k' v'] d IH]; simpl.
  - by rewrite lookup_insert_eq.
  - destruct (decide (k' = k)) as [->|Hne]; simpl.
    + by rewrite lookup_insert_eq.
    + destruct v'; simpl; try done; by rewrite lookup_insert_ne.
Qed.

Lemma rmap_Forall2 {A B} (f : A -> result B) (l : list A) (bs : list B) :
  rmap f l = Ok bs -> Forall2 (fun a b => f a = Ok b) l bs.
Proof.
  revert bs. induction l as [|a l IH]; intros bs; simpl.
  - intros [= <-]. constructor.
  - destruct (f a) as [b|] eqn:Ea; [|done]. simpl.
    destruct (rmap f l) as [bs'|]; [|done]. simpl.
    intros [= <-]. constructor; [done|]. by apply IH.
Qed.

Lemma from_dicts_rows (data : list json) (df : frame) :
  from_dicts data = Ok df ->
  exists ds, rmap as_dict data = Ok ds /\ rows df = row_of_dict <$> ds.
Proof.
  unfold from_dicts. destruct data as [|x data]; [done|].
  destruct (rmap as_dict (x :: data)) as [ds|]; [|done]. simpl.
  intros [= <-]. by exists ds.
Qed.

(** The rows made from fingerprinted records hold the fingerprints of
    the records as fetched. *)
Lemma from_dicts_fingerprints (xs ys : list json) (df : frame) :
  rmap ApiExport.set_md5 xs = Ok ys ->
  from_dicts ys = Ok df ->
  fingerprints (Some df) = fingerprints_of xs.
Proof.
  intros Hxs Hdf. apply from_dicts_rows in Hdf as (ds & Hds & Hrows).
  simpl. rewrite Hrows. clear Hrows df.
  apply rmap_Forall2 in Hxs. apply rmap_Forall2 in Hds.
  revert ds Hds. induction Hxs as [|x y xs ys Hxy _ IH]; intros ds Hds.
  - by inversion Hds.
  - inversion Hds as [|? d ? ds' Hd Hds']; subst. csimpl.
    rewrite (IH _ Hds'). f_equal.
    destruct x as [| | | | |o]; try discriminate Hxy.
    injection Hxy as <-. injection Hd as <-.
    apply row_of_dict_set.
Qed.

(** [keeps_md5 g]: the step [g] leaves the column [md5] as it is. *)
Definition keeps_md5 (g : frame -> result frame) : Prop :=
  forall df df', g df = Ok df' ->
    fingerprints (Some df') = fingerprints (Some df).

Lemma keeps_md5_map_cells f c : c <> "md5" -> keeps_md5 (map_cells f c).
Proof.
  intros Hc df df'. unfold map_cells.
  destruct (rmap _ (rows df)) as [rs|] eqn:E; [|done]. simpl.
  intros [= <-]. simpl. apply rmap_Forall2 in E.
  induction E as [|r r' rs0 rs' Hr _ IH]; [done|]. csimpl.
  rewrite IH. f_equal.
  destruct (r !! c) as [v|]; [|by injection Hr as ->].
  destruct (f v) as [v'|]; [|done]. injection Hr as <-.
  by rewrite lookup_insert_ne.
Qed.

Lemma keeps_md5_with_col f c : c <> "md5" -> keeps_md5 (with_col f c).
Proof.
  intros Hc df df'. unfold with_col. destruct (has_column df c); [|done].
  by apply keeps_md5_map_cells.
Qed.

Lemma keeps_md5_with_cols_by_name f cols :
  "md5" ∉ cols -> keeps_md5 (with_cols_by_name f cols).
Proof.
  induction cols as [|c cols IH]; intros Hcols df df';
    cbn [with_cols_by_name].
  - by intros [= <-].
  - apply not_elem_of_cons in Hcols as [Hc Hcols].
    destruct (has_column df c); [|by apply IH].
    destruct (map_cells f c df) as [df1|] eqn:E; [|done]. cbn [rbind].
    intros Hrest. rewrite (IH Hcols _ _ Hrest).
    by apply (keeps_md5_map_cells f c).
Qed.

Lemma keeps_md5_then g1 g2 :
  keeps_md5 g1 -> keeps_md5 g2 -> keeps_md5 (fun df => rbind (g1 df) g2).
Proof.
  intros H1 H2 df df'. destruct (g1 df) as [df1|] eqn:E; [|done].
  cbn [rbind]. intros Hrest. by rewrite (H2 _ _ Hrest), (H1 _ _ E).
Qed.

Lemma keeps_md5_steps f1 c1 f2 cols2 f3 cols3 :
  c1 <> "md5" -> "md5" ∉ cols2 -> "md5" ∉ cols3 ->
  keeps_md5 (fun df =>
    df' <-? with_col f1 c1 df;;
    df' <-? with_cols_by_name f2 cols2 df';;
    with_cols_by_name f3 cols3 df').
Proof.
  intros H1 H2 H3.
  apply (keeps_md5_then (with_col f1 c1)); [by apply keeps_md5_with_col|].
  apply (keeps_md5_then (with_cols_by_name f2 cols2));
    by apply keeps_md5_with_cols_by_name.
Qed.

Lemma ccp_patient_trainings_fingerprints (xs ys : list json) (df : frame) :
  rmap AndhraPradeshCcp.set_md5 xs = Ok ys ->
  AndhraPradeshCcp.patient_trainings_frame ys = Ok df ->
  fingerprints (Some df) = fingerprints_of xs.
Proof.
  intros Hxs. unfold AndhraPradeshCcp.patient_trainings_frame.
  destruct (from_dicts ys) as [df0|] eqn:E0; [|done].
  rewrite <- (from_dicts_fingerprints xs ys df0 Hxs E0).
  cbn [rbind]. apply keeps_md5_steps; no_md5.
Qed.

Lemma ccp_nurse_trainings_fingerprints (xs ys : list json) (df : frame) :
  rmap AndhraPradeshCcp.set_md5 xs = Ok ys ->
  AndhraPradeshCcp.nurse_trainings_frame ys = Ok df ->
  fingerprints (Some df) = fingerprints_of xs.
Proof.
  intros Hxs. unfold AndhraPradeshCcp.nurse_trainings_frame.
  destruct (from_dicts ys) as [df0|] eqn:E0; [|done].
  rewrite <- (from_dicts_fingerprints xs ys df0 Hxs E0).
  cbn [rbind].
  apply (keeps_md5_then (with_cols_by_name str_to_date ["sessiondateandtime"]));
    [apply keeps_md5_with_cols_by_name; no_md5|].
  apply (keeps_md5_then
           (with_cols_by_name cast_int64
              ["totalmaster_trainer"; "total_trainees"]));
    apply keeps_md5_with_cols_by_name; no_md5.
Qed.

(** The tables of [read_sessions_data_from_api] hold, row by row, the
    fingerprints of the records as fetched. *)
Lemma ccp_sessions_fingerprints patient_trainings nurse_trainings data :
  AndhraPradeshCcp.sessions_frames patient_trainings nurse_trainings = Ok data ->
  fingerprints (dict_get data "patient_training_sessions")
    = fingerprints_of patient_trainings
  /\ fingerprints (dict_get data "nurse_training_sessions")
    = fingerprints_of nurse_trainings.
Proof.
  unfold AndhraPradeshCcp.sessions_frames.
  destruct (rmap AndhraPradeshCcp.set_md5 patient_trainings)
    as [ps|] eqn:Ep; [|done].
  destruct (rmap AndhraPradeshCcp.set_md5 nurse_trainings)
    as [ns|] eqn:En; [|done]. cbn [rbind].
  destruct ps as [|p ps], ns as [|n ns]; cbn [rbind].
  - intros [= <-]. apply rmap_nil_inv in Ep, En. by subst.
  - destruct (AndhraPradeshCcp.nurse_trainings_frame (n :: ns))
      as [df|] eqn:E; [|done].
    intros [= <-]. apply rmap_nil_inv in Ep. subst. split; [done|].
    by apply (ccp_nurse_trainings_fingerprints _ _ _ En).
  - destruct (AndhraPradeshCcp.patient_trainings_frame (p :: ps))
      as [df|] eqn:E; [|done].
    intros [= <-]. apply rmap_nil_inv in En. subst. split; [|done].
    by apply (ccp_patient_trainings_fingerprints _ _ _ Ep).
  - destruct (AndhraPradeshCcp.patient_trainings_frame (p :: ps))
      as [df1|] eqn:E1; [|done].
    destruct (AndhraPradeshCcp.nurse_trainings_frame (n :: ns))
      as [df2|] eqn:E2; [|done].
    intros [= <-]. split.
    + by apply (ccp_patient_trainings_fingerprints _ _ _ Ep).
    + by apply (ccp_nurse_trainings_fingerprints _ _ _ En).
Qed.

Lemma bind_inv {A B} (m : M A) (k : A -> M B) w v w' :
  bind m k w = (Ok v, w') ->
  exists a w1, m w = (Ok a, w1) /\ k a w1 = (Ok v, w').
Proof.
  unfold bind. destruct (m w) as [[a|e] w1]; [|done]. by exists a, w1.
Qed.

Lemma bind_lift_inv {A B} (r : result A) (k : A -> M B) w v w' :
  bind (lift r) k w = (Ok v, w') ->
  exists a, r = Ok a /\ k a w = (Ok v, w').
Proof.
  intros (a & w1 & Hr & Hk)%bind_inv. unfold lift in Hr.
  injection Hr as -> <-. by exists a.
Qed.

(** The same for the tables of [read_data_from_api]. *)
Lemma api_export_tables_fingerprints report depth
    patient_trainings nurse_trainings w data w' :
  ApiExport.tables_of_trainings report depth patient_trainings nurse_trainings w
    = (Ok (Some data), w') ->
  fingerprints (dict_get data "patient_training_sessions")
    = fingerprints_of patient_trainings
  /\ fingerprints (dict_get data "nurse_training_sessions")
    = fingerprints_of nurse_trainings.
Proof.
  unfold ApiExport.tables_of_trainings.
  destruct patient_trainings as [|p0 ps0]; [done|].
  generalize (p0 :: ps0). clear p0 ps0. intros patient_trainings Hrun.
  apply bind_lift_inv in Hrun as (ps & Hps & Hrun).
  apply bind_lift_inv in Hrun as (ns & Hns & Hrun).
  apply bind_lift_inv in Hrun as (phones1 & _ & Hrun).
  apply bind_lift_inv in Hrun as (phones2 & _ & Hrun).
  apply bind_lift_inv in Hrun as (phones & _ & Hrun).
  apply bind_inv in Hrun as (nested & w1 & _ & Hrun).
  apply bind_lift_inv in Hrun as (nurses & _ & Hrun).
  apply bind_lift_inv in Hrun as (nurses_df & _ & Hrun).
  apply bind_lift_inv in Hrun as (patient_df & Hp & Hrun).
  apply bind_lift_inv in Hrun as (nurse_df & Hn & Hrun).
  injection Hrun as <- _. cbn [dict_get]. simpl decide. cbv iota.
  destruct (from_dicts ps) as [df1|] eqn:E1; [|done].
  destruct (from_dicts ns) as [df2|] eqn:E2; [|done].
  cbn [rbind] in Hp, Hn.
  rewrite <- (from_dicts_fingerprints _ _ _ Hps E1),
          <- (from_dicts_fingerprints _ _ _ Hns E2).
  split.
  - revert Hp. generalize df1 patient_df.
    apply (keeps_md5_then
             (with_cols_by_name cast_int64
                ["mothers_trained"; "family_members_trained"; "total_trained"]));
      [apply keeps_md5_with_cols_by_name; no_md5|].
    apply (keeps_md5_then (with_col str_to_date "date_of_session"));
      [apply keeps_md5_with_col; no_md5|].
    apply keeps_md5_with_cols_by_name; no_md5.
  - revert Hn. generalize df2 nurse_df.
    apply (keeps_md5_then
             (with_cols_by_name cast_int64
                ["totalmaster_trainer"; "total_trainees"]));
      [apply keeps_md5_with_cols_by_name; no_md5|].
    apply (keeps_md5_then
             (with_cols_by_name str_to_date ["sessiondateandtime"]));
      apply keeps_md5_with_cols_by_name; no_md5.
Qed.

End Fingerprint.

(** *** One canonical form, one value

    A Python dict holds a key once. [proper x]: so does every dict in
    [x], at any depth. *)
Fixpoint proper (x : json) : bool :=
  match x with
  | JArr l => forallb proper l
  | JObj o => bool_decide (NoDup o.*1) && forallb (fun kv => proper kv.2) o
  | _ => true
  end.

Lemma canon_same_value (x : json) :
  proper x -> forall y, proper y -> canon x = canon y -> same_value x y.
Proof.
  induction x as [| | | |l IH|o IH] using json_nested_ind; intros Hx y Hy Hc.
  - destruct y; try discriminate Hc. constructor.
  - destruct y; try discriminate Hc. injection Hc as <-. constructor.
  - destruct y; try discriminate Hc. injection Hc as <-. constructor.
  - destruct y; try discriminate Hc. injection Hc as <-. constructor.
  - destruct y as [| | | |l'|]; try discriminate Hc. injection Hc as Hc.
    constructor. simpl in Hx, Hy.
    apply forallb_True in Hx. apply forallb_True in Hy.
    revert l' Hy Hc.
    induction IH as [|a l Ha _ IHl]; intros [|b l'] Hy Hc;
      try discriminate Hc; [constructor|].
    injection Hc as Hab Hc.
    apply Forall_cons in Hx as [Hpa Hx], Hy as [Hpb Hy].
    constructor; [by apply Ha | by apply IHl].
  - destruct y as [| | | | |o']; try discriminate Hc. injection Hc as Hc.
    simpl in Hx, Hy.
    apply andb_True in Hx as [Hnd Hx]. apply andb_True in Hy as [_ Hy].
    apply bool_decide_unpack in Hnd.
    apply forallb_True in Hx. apply forallb_True in Hy.
    change (fun kv : string * json => (kv.1, canon kv.2))
      with (on_value canon) in Hc.
    assert (map (on_value canon) o ≡ₚ map (on_value canon) o') as Hperm
      by (by rewrite <- (sort_items_perm (map _ o)), Hc, sort_items_perm).
    apply Permutation_map_inv in Hperm as (o2 & Hmap & Hperm).
    apply (same_obj o o' o2); [done|done|].
    rewrite Hperm in Hy. clear Hc Hperm Hnd o'.
    revert o2 Hy Hmap.
    induction IH as [|a o Ha _ IHo]; intros [|b o2] Hy Hmap;
      try discriminate Hmap; [constructor|].
    injection Hmap as Hk Hv Hmap.
    apply Forall_cons in Hx as [Hpa Hx], Hy as [Hpb Hy].
    constructor; [|by apply IHo].
    split; [done|]. by apply Ha.
Qed.

(** A collision of the hash: two texts with one digest. *)
Definition collision `{Externals} (s t : string) : Prop :=
  s <> t /\ md5_hexdigest s = md5_hexdigest t.

(** C6. The content fingerprint [dict_hash] is the same function in both
    scripts: the digest of the text of the record with the keys of every
    dict in sorted order. Two records that are one value, whatever the
    order in which their keys were inserted, have one fingerprint. Two
    records with one fingerprint are one value, field by field, unless
    the hash collides on their two texts. In both scripts the column
    [md5] of the two session tables holds, row by row, the fingerprint of
    the record as it was fetched: the coercions of dates, counts and
    nested lists come afterwards and leave that column alone. *)
Theorem content_fingerprint `{Externals} :
  (forall x,
     ApiExport.dict_hash x = md5_hexdigest (dumps false (canon x))
     /\ AndhraPradeshCcp.dict_hash x = ApiExport.dict_hash x)
  /\ (forall x y,
        same_value x y -> ApiExport.dict_hash x = ApiExport.dict_hash y)
  /\ (forall x y,
        proper x -> proper y ->
        ApiExport.dict_hash x = ApiExport.dict_hash y ->
        same_value x y \/ collision (dumps true x) (dumps true y))
  /\ (forall patient_trainings nurse_trainings data,
        AndhraPradeshCcp.sessions_frames patient_trainings nurse_trainings
          = Ok data ->
        fingerprints (dict_get data "patient_training_sessions")
          = fingerprints_of patient_trainings
        /\ fingerprints (dict_get data "nurse_training_sessions")
          = fingerprints_of nurse_trainings)
  /\ (forall report depth patient_trainings nurse_trainings w data w',
        ApiExport.tables_of_trainings report depth
          patient_trainings nurse_trainings w = (Ok (Some data), w') ->
        fingerprints (dict_get data "patient_training_sessions")
          = fingerprints_of patient_trainings
        /\ fingerprints (dict_get data "nurse_training_sessions")
          = fingerprints_of nurse_trainings).
Proof.
  split; [|split; [|split; [|split]]].
  - intros x. split; [|reflexivity].
    unfold ApiExport.dict_hash. by rewrite dumps_canon.
  - intros x y Hxy. unfold ApiExport.dict_hash.
    by rewrite !dumps_canon, (same_value_canon x y Hxy).
  - intros x y Hx Hy Hh.
    destruct (decide (dumps true x = dumps true y)) as [Heq|Hne].
    + left. rewrite !dumps_canon in Heq.
      by apply canon_same_value, dumps_inj.
    + right. by split.
  - apply ccp_sessions_fingerprints.
  - apply api_export_tables_fingerprints.
Qed.

(** Two records of one session, the keys inserted in two orders. *)
Definition session_a : json :=
  JObj [("date_of_session", JStr "14-03-2024");
        ("session_conducted_by", JStr "91234");
        ("total_trained", JStr "12")].

Definition session_b : json :=
  JObj [("total_trained", JStr "12");
        ("date_of_session", JStr "14-03-2024");
        ("session_conducted_by", JStr "91234")].

Lemma session_a_b : same_value session_a session_b.
Proof.
  apply (same_obj _ _ [("date_of_session", JStr "14-03-2024");
                       ("session_conducted_by", JStr "91234");
                       ("total_trained", JStr "12")]).
  - csimpl. repeat (apply NoDup_cons_2; [no_md5|]). apply NoDup_nil_2.
  - apply Permutation_cons_append.
  - repeat constructor.
Qed.

Definition ccp_tables : list (string * frame) :=
  Eval vm_compute in
    match @AndhraPradeshCcp.sessions_frames sample_externals
            [session_a] [march_14_nurse_training] with
    | Ok data => data
    | Raise _ => []
    end.

Definition api_export_tables : list (string * frame) :=
  Eval vm_compute in
    match (@ApiExport.tables_of_trainings sample_externals client1 2
             [session_b] [march_14_nurse_training] world_sync).1 with
    | Ok (Some data) => data
    | _ => []
    end.

Definition world_after_tables : world :=
  Eval vm_compute in
    (@ApiExport.tables_of_trainings sample_externals client1 2
       [session_b] [march_14_nurse_training] world_sync).2.

Lemma content_fingerprint_witness :
  let h x := Some (CJson (JStr (@ApiExport.dict_hash sample_externals x))) in
  @ApiExport.dict_hash sample_externals session_a
    = @ApiExport.dict_hash sample_externals session_b
  /\ (same_value session_a session_b
      \/ @collision sample_externals (dumps true session_a)
                                     (dumps true session_b))
  /\ fingerprints (dict_get ccp_tables "patient_training_sessions")
     = [h session_a]
  /\ fingerprints (dict_get api_export_tables "patient_training_sessions")
     = [h session_b].
Proof.
  pose proof (@content_fingerprint sample_externals)
    as (_ & Hsame & Hdiffer & Hccp & Hapi).
  intros h. split; [|split; [|split]].
  - apply Hsame, session_a_b.
  - apply Hdiffer; [exact I|exact I|reflexivity].
  - apply (Hccp [session_a] [march_14_nurse_training] ccp_tables).
    vm_compute. reflexivity.
  - apply (Hapi client1 2%nat [session_b] [march_14_nurse_training]
             world_sync api_export_tables world_after_tables).
    vm_compute. reflexivity.
Defined.

(** * Further properties of the two scripts *)

(** ** The days of a window *)

Lemma dt_iterate_loop_steps (end_ step : Z) (fuel : nat) : forall start,
  1 <= step ->
  end_ - start < Z.of_nat fuel ->
  dt_iterate_loop fuel start end_ step
  = (fun i => start + i * step) <$> seqZ 0 ((end_ - start) / step + 1).
Proof.
  induction fuel as [|fuel IH]; intros start Hstep Hfuel.
  { simpl. rewrite seqZ_nil; [done|].
    assert ((end_ - start) / step < 0); [|lia].
    apply Z.div_lt_upper_bound; lia. }
  simpl. destruct (Z.leb_spec start end_) as [Hle|Hgt].
  - rewrite IH by lia.
    assert ((end_ - (start + step)) / step = (end_ - start) / step - 1) as ->.
    { replace (end_ - (start + step)) with (end_ - start + (-1) * step) by lia.
      rewrite Z.div_add by lia. lia. }
    assert (0 <= (end_ - start) / step) as Hq by (apply Z.div_pos; lia).
    rewrite (seqZ_cons 0 ((end_ - start) / step + 1)) by lia.
    rewrite fmap_cons. f_equal; [lia|].
    replace (Z.pred ((end_ - start) / step + 1))
      with ((end_ - start) / step - 1 + 1) by lia.
    rewrite <- (fmap_add_seqZ 1 0), <- list_fmap_compose.
    apply list_fmap_ext. intros _ i _. simpl. lia.
  - rewrite seqZ_nil; [done|].
    assert ((end_ - start) / step < 0); [|lia].
    apply Z.div_lt_upper_bound; lia.
Qed.

Lemma dt_iterate_steps (start end_ step : Z) :
  1 <= step ->
  dt_iterate start end_ step
  = if start <=? end_
    then Ok ((fun i => start + i * step)
               <$> seqZ 0 ((end_ - start) / step + 1))
    else Raise (AssertionError "start should be less than end").
Proof.
  intros Hstep. unfold dt_iterate. destruct (Z.leb_spec start end_); [|done].
  by rewrite dt_iterate_loop_steps by lia.
Qed.

Lemma dt_iterate_one_day (start end_ : Z) :
  start <= end_ ->
  dt_iterate start end_ 1 = Ok (seqZ start (end_ - start + 1)).
Proof.
  intros Hle. rewrite dt_iterate_steps by lia.
  destruct (Z.leb_spec start end_); [|lia].
  rewrite Z.div_1_r. f_equal.
  rewrite <- (Z.add_0_r start) at 2. rewrite <- fmap_add_seqZ.
  apply list_fmap_ext. intros _ i _. lia.
Qed.



(** ** The date range of a run *)

Lemma ccp_get_dates : AndhraPradeshCcp.get_dates = ApiExport.get_dates.
Proof. reflexivity. Qed.

Lemma get_dates_run (args : ApiExport.Args) (w : world) :
  ApiExport.get_dates args w
  = match ApiExport.resolve_dates args (today w) w with
    | (Ok dates, w') => (ApiExport.check_dates (today w) dates, w')
    | (Raise e, w') => (Raise e, w')
    end.
Proof.
  unfold ApiExport.get_dates, bind, ApiExport.get_today, lift.
  by destruct (ApiExport.resolve_dates args (today w) w) as [[dates|e] w'].
Qed.

Lemma check_dates_Ok (today : Z) (dates dates' : ApiExport.Dates) :
  ApiExport.check_dates today dates = Ok dates' ->
  dates' = dates
  /\ ApiExport.start dates <= ApiExport.end_ dates <= today.
Proof.
  unfold ApiExport.check_dates.
  destruct (Z.ltb_spec (ApiExport.end_ dates) (ApiExport.start dates));
    [done|].
  destruct (Z.ltb_spec today (ApiExport.end_ dates)); [done|].
  intros [= <-]. split; [done|lia].
Qed.

(** X2. The date range that [get_dates] returns, in either script and for
    either destination, starts no later than it ends and ends no later
    than today; so the list of days that the fetch then builds with
    [dt_iterate] never fails its assertion, is never empty and holds
    [end - start + 1] days. *)
Theorem get_dates_range (args : ApiExport.Args) (w w' : world)
    (dates : ApiExport.Dates) :
  ApiExport.get_dates args w = (Ok dates, w')
  \/ AndhraPradeshCcp.get_dates args w = (Ok dates, w') ->
  ApiExport.start dates <= ApiExport.end_ dates <= today w
  /\ exists days,
       dt_iterate (ApiExport.start dates) (ApiExport.end_ dates) 1 = Ok days
       /\ days <> []
       /\ Z.of_nat (length days)
          = ApiExport.end_ dates - ApiExport.start dates + 1.
Proof.
  rewrite ccp_get_dates. intros Hrun.
  assert (ApiExport.get_dates args w = (Ok dates, w')) as Hrun'
    by (by destruct Hrun).
  clear Hrun. rewrite get_dates_run in Hrun'.
  destruct (ApiExport.resolve_dates args (today w) w) as [[d|e] w1];
    [|done].
  injection Hrun' as Hcheck _.
  apply check_dates_Ok in Hcheck as [-> Hrange]. split; [done|].
  exists (seqZ (ApiExport.start d) (ApiExport.end_ d - ApiExport.start d + 1)).
  split; [|split].
  - apply dt_iterate_one_day. lia.
  - rewrite seqZ_cons by lia. done.
  - rewrite length_seqZ. lia.
Qed.

Lemma get_dates_range_witness :
  let dates := {| ApiExport.start := ymd2ord 2024 3 8;
                  ApiExport.end_ := ymd2ord 2024 3 14 |} in
  ApiExport.start dates <= ApiExport.end_ dates <= today world0
  /\ exists days,
       dt_iterate (ApiExport.start dates) (ApiExport.end_ dates) 1 = Ok days
       /\ days <> []
       /\ Z.of_nat (length days)
          = ApiExport.end_ dates - ApiExport.start dates + 1.
Proof.
  apply (get_dates_range args_local world0 world0). left. reflexivity.
Defined.

(** X3. The dates of the command line count for the local destination
    only. With [--dest local], [get_dates] asks the warehouse nothing and
    leaves the world as it is: the range runs from [--start-date], or
    seven days before today, to [--end-date], or yesterday, and is then
    checked; without either option it is the seven days before today and
    the check cannot fail. With [--dest bigquery] the two options are
    ignored. The two scripts have the same [get_dates]. *)
Theorem command_line_dates (args : ApiExport.Args) (w : world) :
  match ApiExport.dest args with
  | ApiExport.local =>
      ApiExport.get_dates args w
      = (ApiExport.check_dates (today w)
           {| ApiExport.start := default (today w - 7) (ApiExport.start_date args);
              ApiExport.end_ := default (today w - 1) (ApiExport.end_date args) |},
         w)
  | ApiExport.bigquery =>
      ApiExport.get_dates args w = ApiExport.get_dates args_bigquery w
  end
  /\ ApiExport.get_dates args_local w
     = (Ok {| ApiExport.start := today w - 7; ApiExport.end_ := today w - 1 |}, w)
  /\ AndhraPradeshCcp.get_dates args w = ApiExport.get_dates args w.
Proof.
  split; [|split; [|reflexivity]].
  - destruct args as [[] s e]; simpl; [reflexivity|].
    rewrite get_dates_run. unfold ApiExport.resolve_dates, ret. simpl.
    by destruct s, e.
  - rewrite get_dates_run. unfold ApiExport.resolve_dates, ret. simpl.
    unfold ApiExport.check_dates. simpl.
    destruct (Z.ltb_spec (today w - 1) (today w - 7)); [lia|].
    destruct (Z.ltb_spec (today w) (today w - 1)); [lia|done].
Qed.

Lemma ccp_dates_from_bigquery :
  AndhraPradeshCcp.get_dates_from_bigquery = ApiExport.get_dates_from_bigquery.
Proof. reflexivity. Qed.

(** X4. With [--dest bigquery] and a table of patient trainings whose
    latest [date_of_session] is [D]: the run fetches from [D - 29] to
    yesterday when [D] is at most 28 days after today, and otherwise
    [get_dates] raises "Start date cannot be later than end date.": one
    stored session dated further in the future makes every later run fail
    before it fetches. The same in both scripts. *)
Theorem watermark_in_the_future (args : ApiExport.Args) (w : world)
    (df : frame) (D : Z) :
  ApiExport.dest args = ApiExport.bigquery ->
  warehouse w !! "patient_training_sessions" = Some df ->
  ApiExport.max_date "date_of_session" df = Some D ->
  (ApiExport.get_dates args w).1
  = (if D <=? today w + 28
     then Ok {| ApiExport.start := D - 29; ApiExport.end_ := today w - 1 |}
     else Raise (Exception "Start date cannot be later than end date."))
  /\ (AndhraPradeshCcp.get_dates args w).1 = (ApiExport.get_dates args w).1.
Proof.
  intros Hdest Hwh HD. split; [|reflexivity].
  rewrite get_dates_run. unfold ApiExport.resolve_dates. rewrite Hdest.
  pose proof (api_export_dates_max w ApiExport.default_start_date
                ApiExport.default_overlap D df Hwh HD) as Hmax.
  destruct (ApiExport.get_dates_from_bigquery _ _ w) as [r w1].
  simpl in Hmax. subst r. simpl.
  unfold ApiExport.check_dates, ApiExport.default_overlap. simpl.
  destruct (Z.leb_spec D (today w + 28)).
  - destruct (Z.ltb_spec (today w - 1) (D - (30 - 1))); [lia|].
    destruct (Z.ltb_spec (today w) (today w - 1)); [lia|].
    reflexivity.
  - destruct (Z.ltb_spec (today w - 1) (D - (30 - 1))); [done|lia].
Qed.

Definition facts_of_may : frame :=
  Frame ["date_of_session"]
        [fact_row (ymd2ord 2024 3 10); fact_row (ymd2ord 2024 5 1)].

Lemma watermark_in_the_future_witness :
  let w := set_warehouse {["patient_training_sessions" := facts_of_may]} world0 in
  (ApiExport.get_dates args_bigquery w).1
  = Raise (Exception "Start date cannot be later than end date.")
  /\ (AndhraPradeshCcp.get_dates args_bigquery w).1
     = (ApiExport.get_dates args_bigquery w).1.
Proof.
  apply (watermark_in_the_future args_bigquery
           (set_warehouse {["patient_training_sessions" := facts_of_may]} world0)
           facts_of_may (ymd2ord 2024 5 1)); reflexivity.
Defined.

(** ** Replies the client does not expect *)

(** What a fetch over the transport [http_get] makes of a reply with a
    status below 400 and a JSON body [data] that is not of the expected
    shape, after its one request:
    - [data] is not an object: [TypeError];
    - no field [result]: [KeyError];
    - [result] is ["failed"] and there is no field [error]: [KeyError];
    - [result] is ["success"] and there is no field [data]: [KeyError];
    - [result] is anything but ["failed"] and ["success"]: the empty
      list, whatever else the reply holds. *)
Definition reads_fields (http_get : request -> M response) : Prop :=
  forall depth self f w resp data,
    server w (fetch_request self f :: http_sent (log w)) = Replied resp ->
    status resp < 400 -> body resp = Some data ->
    let run := run_fetch http_get (S depth) self f w in
    let after := emit (EvHttp (fetch_request self f)) w in
    match data with
    | JObj d =>
        match dict_get d "result" with
        | None => run = (Raise (KeyError "result"), after)
        | Some r =>
            if decide (r = JStr "failed") then
              dict_get d "error" = None ->
              run = (Raise (KeyError "error"), after)
            else if decide (r = JStr "success") then
              dict_get d "data" = None ->
              run = (Raise (KeyError "data"), after)
            else run = (Ok (JArr [], self), after)
        end
    | _ => run = (Raise TypeError, after)
    end.

Lemma direct_reads_fields http_get : direct http_get -> reads_fields http_get.
Proof.
  intros Hdirect depth self f w resp data Hsrv Hst Hbody run after.
  subst run after.
  rewrite (run_fetch_round http_get Hdirect depth self f w resp data
             Hsrv Hst Hbody).
  destruct data as [| | | | |d]; try reflexivity.
  unfold has_token_expired, data_or_empty, getitem, dict_item.
  destruct (dict_get d "result") as [r|]; [|reflexivity]. simpl.
  destruct (decide (r = JStr "failed")) as [->|Hfailed].
  - intros ->. reflexivity.
  - destruct (decide (r = JStr "success")) as [->|Hsuccess].
    + intros ->. reflexivity.
    + reflexivity.
Qed.

(** X5. In both scripts, for each of the three fetches: a reply whose
    body is not an object raises [TypeError]; a reply without [result],
    a failed one without [error] and a successful one without [data]
    raise [KeyError]; a reply whose [result] is neither ["failed"] nor
    ["success"] counts as no data. In every case the one request has been
    sent and the client does not log in again. *)
Theorem unexpected_replies :
  reads_fields requests_get /\ reads_fields AndhraPradeshCcp.http_get.
Proof.
  split; apply direct_reads_fields.
  - apply requests_get_direct.
  - apply retry_session_direct.
Qed.

(** A server that answers every request with [{"result": "failed"}]. *)
Definition failing_server (sent : list request) : reply :=
  replied_ok (JObj [("result", JStr "failed")]).

Lemma unexpected_replies_witness :
  run_fetch requests_get 1 client1 (NurseDetails "91234")
    (with_server failing_server world0)
  = (Raise (KeyError "error"),
     emit (EvHttp (fetch_request client1 (NurseDetails "91234")))
          (with_server failing_server world0)).
Proof.
  exact (proj1 unexpected_replies 0%nat client1 (NurseDetails "91234")
           (with_server failing_server world0)
           (Response 200 false (Some (JObj [("result", JStr "failed")])))
           (JObj [("result", JStr "failed")])
           eq_refl ltac:(simpl; lia) eq_refl eq_refl).
Defined.

(** ** A key that stays expired *)

(** The requests of [n] rounds of a fetch that is answered with an expiry
    error each time, oldest first: the fetch and a login, [n] times; from
    the second round on the fetch carries the key [k] of the login. *)
Fixpoint expiry_rounds (n : nat) (self : Report) (k : json) (f : fetch)
  : list request :=
  match n with
  | O => []
  | S n =>
      fetch_request self f :: login_request self
      :: expiry_rounds n (set_key self k) k f
  end.

(** On a server that answers the fetch [f] with an expiry error under any
    key, and accepts every login with the key [k], the fetch runs until
    no nested call is left. *)
Definition expires_for_ever (http_get : request -> M response) : Prop :=
  forall f srv r1 d1 e r2 d2 k,
    (forall self sent, srv (fetch_request self f :: sent) = Replied r1) ->
    status r1 < 400 -> body r1 = Some d1 ->
    failed_with e d1 -> e ∈ expiry_errors ->
    (forall self sent, srv (login_request self :: sent) = Replied r2) ->
    status r2 < 400 -> body r2 = Some d2 -> logged_in_with k d2 ->
    forall depth self w,
      server w = srv ->
      exists w',
        run_fetch http_get depth self f w = (Raise RecursionError, w')
        /\ http_sent (log w')
           = rev (expiry_rounds depth self k f) ++ http_sent (log w).

Lemma run_fetch_O http_get self f w :
  run_fetch http_get 0 self f w = (Raise RecursionError, w).
Proof. by destruct f. Qed.

Lemma direct_expires_for_ever http_get :
  direct http_get -> expires_for_ever http_get.
Proof.
  intros Hdirect f srv r1 d1 e r2 d2 k S1 T1 B1 F1 E1 S2 T2 B2 L2.
  induction depth as [|depth IH]; intros self w Hsrv.
  - exists w. by rewrite run_fetch_O.
  - rewrite (expired_logs_in_again http_get Hdirect depth self f w r1 d1 e);
      [|by rewrite Hsrv|done..].
    rewrite (bind_returns _ _ _ _ _
               (login_succeeds http_get Hdirect self
                  (emit (EvHttp (fetch_request self f)) w) r2 d2 k
                  ltac:(simpl; by rewrite Hsrv) T2 B2 L2)).
    destruct (IH (set_key self k)
                (emit (EvHttp (login_request self))
                   (emit (EvHttp (fetch_request self f)) w)) Hsrv)
      as (w' & Hrun & Hlog).
    exists w'. split; [done|]. rewrite Hlog. simpl.
    by rewrite <- !(assoc_L (++)).
Qed.

(** X6. Nothing but the depth of the call stack bounds the new logins of
    a fetch. In both scripts, on a server that answers a fetch with an
    expiry error whatever the key and accepts every login, the fetch and
    the login alternate until no nested call is left and the fetch ends
    in [RecursionError]: with [depth] calls allowed, [depth] fetches and
    [depth] logins are sent, and neither data nor the empty list comes
    back. *)
Theorem expired_for_ever :
  expires_for_ever requests_get /\ expires_for_ever AndhraPradeshCcp.http_get.
Proof.
  split; apply direct_expires_for_ever.
  - apply requests_get_direct.
  - apply retry_session_direct.
Qed.

(** A server on which every key has expired. *)
Definition expired_server (sent : list request) : reply :=
  match sent with
  | rq :: _ =>
      if is_login rq then replied_ok (login_body "key-2")
      else replied_ok expired_body
  | [] => Unreachable
  end.

Lemma expired_for_ever_witness :
  exists w',
    run_fetch requests_get 3 client1 (PatientTraining (ymd2ord 2024 3 1))
      (with_server expired_server world0) = (Raise RecursionError, w')
    /\ length (http_sent (log w')) = 6%nat.
Proof.
  destruct (proj1 expired_for_ever (PatientTraining (ymd2ord 2024 3 1))
              expired_server
              (Response 200 false (Some expired_body)) expired_body
              (JStr "Expired token")
              (Response 200 false (Some (login_body "key-2")))
              (login_body "key-2") (JStr "key-2")
              ltac:(reflexivity) ltac:(simpl; lia) eq_refl
              ltac:(by split) ltac:(by right; left)
              ltac:(reflexivity) ltac:(simpl; lia) eq_refl
              ltac:(by split)
              3%nat client1 (with_server expired_server world0) eq_refl)
    as (w' & Hrun & Hlog).
  exists w'. split; [exact Hrun|]. rewrite Hlog. reflexivity.
Defined.

(** ** A login that fails *)







(** ** The attempts of one call *)

Lemma attempted_S n rq w :
  attempted n rq (emit (EvHttp rq) w) = attempted (S n) rq w.
Proof. reflexivity. Qed.

(** Whatever the server does, a call through the retrying adapter makes
    at least one attempt and at most one more than the policy has
    retries, all of the same request, and does nothing else. *)
Lemma urlopen_attempts policy remaining : forall rq w,
  exists n, (1 <= n <= S remaining)%nat
            /\ (urlopen policy remaining rq w).2 = attempted n rq w.
Proof.
  induction remaining as [|remaining IH]; intros rq w;
    rewrite urlopen_unfold; unfold bind; rewrite attempt_at.
  - exists 1%nat. split; [lia|].
    destruct (server w _) as [resp|]; [|done].
    by destruct (is_retry policy 0 resp).
  - destruct (IH rq (emit (EvHttp rq) w)) as (n & Hn & Hw).
    destruct (server w _) as [resp|].
    + destruct (is_retry policy (S remaining) resp).
      * exists (S n). split; [lia|]. by rewrite Hw.
      * exists 1%nat. split; [lia|done].
    + exists (S n). split; [lia|]. by rewrite Hw.
Qed.

(** A server that cannot be reached: every retry is used. *)
Lemma urlopen_unreachable policy remaining : forall rq w,
  (forall sent, server w sent = Unreachable) ->
  urlopen policy remaining rq w
  = (Raise ConnectionError, attempted (S remaining) rq w).
Proof.
  induction remaining as [|remaining IH]; intros rq w Hsrv;
    rewrite urlopen_unfold; unfold bind; rewrite attempt_at, Hsrv; [done|].
  by rewrite IH.
Qed.

(** X8. Every call of the client in [andhra_pradesh_ccp.py] goes through
    [requests_retry_session()] and so, whatever the server does, sends
    its request at least once and at most 11 times and sends nothing
    else. A failure to connect is retried like a transient status: a
    server that cannot be reached costs 11 attempts before
    [ConnectionError] is raised. *)
Theorem at_most_eleven_attempts (rq : request) (w : world) :
  (exists n, (1 <= n <= 11)%nat
             /\ (AndhraPradeshCcp.http_get rq w).2 = attempted n rq w
             /\ log (AndhraPradeshCcp.http_get rq w).2
                = replicate n (EvHttp rq) ++ log w)
  /\ ((forall sent, server w sent = Unreachable) ->
      AndhraPradeshCcp.http_get rq w
      = (Raise ConnectionError, attempted 11 rq w)).
Proof.
  split.
  - destruct (urlopen_attempts AndhraPradeshCcp.default_retry_session 10 rq w)
      as (n & Hn & Hw).
    exists n. split; [done|]. split; [done|].
    unfold AndhraPradeshCcp.http_get, session_get. simpl total.
    by rewrite Hw, attempted_log.
  - apply (urlopen_unreachable AndhraPradeshCcp.default_retry_session 10).
Qed.

(** ** The text that [json.dumps] writes *)

(** A character from the space to the tilde. *)
Definition printable (a : ascii) : bool :=
  let n := N_of_ascii a in (32 <=? n)%N && (n <=? 126)%N.

Fixpoint all_printable (s : string) : bool :=
  match s with
  | EmptyString => true
  | String a s => printable a && all_printable s
  end.

Lemma all_printable_app (s t : string) :
  all_printable (s +:+ t) = all_printable s && all_printable t.
Proof.
  induction s as [|a s IH]; [done|]. rewrite app_cons. simpl.
  by rewrite IH, andb_assoc.
Qed.

Lemma escape_char_printable (a : ascii) : all_printable (escape_char a) = true.
Proof. by destruct a as [[] [] [] [] [] [] [] []]. Qed.

Lemma escape_chars_printable (s : string) :
  all_printable (escape_chars s) = true.
Proof.
  induction s as [|a s IH]; [done|]. simpl.
  by rewrite all_printable_app, escape_char_printable, IH.
Qed.

Lemma encode_basestring_ascii_printable (s : string) :
  all_printable (encode_basestring_ascii s) = true.
Proof.
  unfold encode_basestring_ascii. cbn [all_printable].
  by rewrite all_printable_app, escape_chars_printable.
Qed.

Lemma string_of_uint_printable (d : Decimal.uint) :
  all_printable (NilEmpty.string_of_uint d) = true.
Proof. induction d; simpl; try done. Qed.

Lemma int_repr_printable (n : Z) : all_printable (int_repr n) = true.
Proof.
  rewrite int_repr_digits, all_printable_app, string_of_uint_printable.
  by destruct (n <? 0).
Qed.

Lemma join_comma_printable (parts : list string) :
  Forall (fun p => all_printable p = true) parts ->
  all_printable (join_comma parts) = true.
Proof.
  induction 1 as [|p parts Hp Hparts IH]; [done|].
  destruct parts as [|q parts]; [done|].
  change (join_comma (p :: q :: parts))
    with (p +:+ ", " +:+ join_comma (q :: parts)).
  by rewrite !all_printable_app, Hp, IH.
Qed.

Lemma dumps_plain_printable (x : json) : all_printable (dumps false x) = true.
Proof.
  induction x as [| | | |l IH|o IH] using json_nested_ind.
  - done.
  - by destruct b.
  - apply int_repr_printable.
  - apply encode_basestring_ascii_printable.
  - change (dumps false (JArr l))
      with ("[" +:+ join_comma (map (dumps false) l) +:+ "]").
    rewrite !all_printable_app, join_comma_printable; [done|].
    induction IH; by constructor.
  - change (dumps false (JObj o))
      with ("{" +:+ join_comma
                      (map encode_item
                         (map (fun kv => (kv.1, dumps false kv.2)) o))
            +:+ "}").
    rewrite !all_printable_app, join_comma_printable; [done|].
    induction IH as [|kv o Hkv _ IHo]; constructor; [|done].
    unfold encode_item. cbn [fst snd].
    by rewrite !all_printable_app, encode_basestring_ascii_printable, Hkv.
Qed.

(** X9. Whatever the value, the text that [json.dumps] writes for it, with
    or without [sort_keys], holds no character outside the printable
    ASCII range: every other character of a string is written as an
    escape. So the text that [dict_hash] digests is the same sequence of
    bytes under any ASCII-compatible encoding, UTF-8 among them, and the
    texts that [json_dumps_list] stores are plain ASCII. *)
Theorem dumps_is_printable_ascii `{Externals} (x : json) :
  all_printable (dumps true x) = true
  /\ all_printable (dumps false x) = true
  /\ ApiExport.dict_hash x = md5_hexdigest (dumps true x)
  /\ forall l s,
       json_dumps_list (CJson (JArr l)) = Ok (CJson (JStr s)) ->
       all_printable s = true.
Proof.
  split; [|split; [|split]].
  - rewrite dumps_canon. apply dumps_plain_printable.
  - apply dumps_plain_printable.
  - reflexivity.
  - intros l s [= <-]. apply (dumps_plain_printable (JArr l)).
Qed.



(** ** The phones of the nurses to fetch *)

Lemma first_seen_elem (x : string) (names : list string) : forall seen,
  x ∈ first_seen seen names <-> x ∈ names /\ x ∉ seen.
Proof.
  induction names as [|c names IH]; intros seen; simpl.
  - split; [by intros ?%elem_of_nil|]. by intros [?%elem_of_nil _].
  - destruct (decide (c ∈ seen)) as [Hin|Hnot].
    + rewrite IH, elem_of_cons. split.
      * intros [? ?]. split; [by right|done].
      * intros [[->|?] ?]; [done|by split].
    + rewrite !elem_of_cons, IH, not_elem_of_cons. split.
      * intros [->|[? [? ?]]]; [by split; [left|]|by split; [right|]].
      * intros [[->|?] ?]; [by left|].
        destruct (decide (x = c)) as [->|]; [by left|by right].
Qed.

Lemma first_seen_NoDup (names : list string) : forall seen,
  NoDup (first_seen seen names).
Proof.
  induction names as [|c names IH]; intros seen; simpl; [constructor|].
  destruct (decide (c ∈ seen)); [apply IH|].
  constructor; [|apply IH]. rewrite first_seen_elem, not_elem_of_cons.
  by intros [_ [? _]].
Qed.

Lemma distinct_strings_first_seen (xs : list string) : forall seen,
  AndhraPradeshCcp.distinct_strings seen xs = first_seen seen xs.
Proof.
  induction xs as [|x xs IH]; intros seen; simpl; [done|].
  by rewrite !IH.
Qed.

Lemma texts_of_singletons (col : string) (l : list string) :
  omap (fun r : row => r !! col ≫= AndhraPradeshCcp.text_of_cell)
       ((fun s => ({[col := CJson (JStr s)]} : row)) <$> l)
  = l.
Proof.
  induction l as [|s l IH]; [done|]. csimpl.
  by rewrite lookup_singleton_eq, IH.
Qed.

Lemma nonempty_text_Some (c : cell) (s : string) :
  ApiExport.nonempty_text c = Some s <-> c = CJson (JStr s) /\ s <> "".
Proof.
  destruct c as [[| | |t| |]| |]; simpl; try (split; [done|by intros [? ?]]).
  destruct (decide (t = "")) as [->|Hne].
  - split; [done|]. by intros [[= <-] ?].
  - split; [by intros [= <-]|]. by intros [[= <-] ?].
Qed.

(** The texts that the query of [read_nurse_phones_from_bigquery] finds
    in the table: what some row holds under [session_conducted_by], but
    for the empty text. *)
Definition conducted (df : frame) (s : string) : Prop :=
  exists r, r ∈ rows df
            /\ r !! "session_conducted_by" = Some (CJson (JStr s))
            /\ s <> "".

(** X11. [read_nurse_phones_from_bigquery] sends one query. When the
    table of patient trainings exists, it returns the phones in ascending
    order and each once, and a phone is returned exactly when it is one
    of the comma-separated parts of a non-empty [session_conducted_by] of
    the table; a part may be empty (a value ending in a comma), and is
    then returned like any other. When the table does not exist the error
    of the query is raised. *)
Theorem nurse_phones_sorted_and_distinct (w : world) :
  let q := QDistinctNonEmpty "session_conducted_by" "patient_training_sessions" in
  match warehouse w !! "patient_training_sessions" with
  | Some df =>
      exists phones,
        AndhraPradeshCcp.read_nurse_phones_from_bigquery w
        = (Ok phones, emit (EvQuery q) w)
        /\ Sorted String.le phones
        /\ NoDup phones
        /\ forall p, p ∈ phones
                     <-> exists s, conducted df s /\ p ∈ ApiExport.split_comma s
  | None =>
      AndhraPradeshCcp.read_nurse_phones_from_bigquery w
      = (Raise (NotFound "patient_training_sessions"), emit (EvQuery q) w)
  end.
Proof.
  intros q. unfold AndhraPradeshCcp.read_nurse_phones_from_bigquery, bind,
    AndhraPradeshCcp.utils.read_bigquery, ApiExport.read_bigquery.
  cbn [ApiExport.run_query].
  destruct (warehouse w !! "patient_training_sessions") as [df|]; [|done].
  eexists. split; [reflexivity|]. cbn [rows].
  rewrite texts_of_singletons, distinct_strings_first_seen.
  split; [|split].
  - apply Sorted_merge_sort, _.
  - rewrite merge_sort_Permutation. apply first_seen_NoDup.
  - intros p. rewrite merge_sort_Permutation, first_seen_elem.
    rewrite list_elem_of_In, in_concat. split.
    + intros [(l & Hl & Hp) _].
      apply list_elem_of_In, list_elem_of_fmap in Hl as (s & -> & Hs).
      apply first_seen_elem in Hs as [Hs _].
      apply list_elem_of_omap in Hs as (r & Hr & Hs).
      destruct (r !! "session_conducted_by") as [c|] eqn:Hc; [|done].
      apply nonempty_text_Some in Hs as [-> Hne].
      exists s. split; [by exists r|]. by apply list_elem_of_In.
    + intros (s & (r & Hr & Hc & Hne) & Hp). split; [|apply not_elem_of_nil].
      exists (ApiExport.split_comma s). split; [|by apply list_elem_of_In].
      apply list_elem_of_In, list_elem_of_fmap. exists s. split; [done|].
      apply first_seen_elem. split; [|apply not_elem_of_nil].
      apply list_elem_of_omap. exists r. split; [done|].
      rewrite Hc. apply (nonempty_text_Some (CJson (JStr s)) s). by split.
Qed.

(** ** What a run of [api_export.py] does to the outside *)

Lemma emits_bind_lift {A B} P (r : result A) (k : A -> M B) :
  (forall a, r = Ok a -> emits P (k a)) -> emits P (bind (lift r) k).
Proof.
  intros Hk w. unfold bind, lift. destruct r as [a|e].
  - by apply Hk.
  - exists []. by split.
Qed.

Section ApiExportEmits.
Context `{Externals}.
Variable P : event -> Prop.
Hypothesis Phttp : forall rq, P (EvHttp rq).

Lemma emits_requests_get rq : emits P (requests_get rq).
Proof. by apply emits_urlopen. Qed.

Lemma emits_map_copied {A} (f : Report -> A -> M (json * Report)) self units :
  (forall self u, emits P (f self u)) -> emits P (map_copied f self units).
Proof.
  intros Hf. apply emits_mapM. intros u.
  emits_step; [apply Hf|emits_step].
Qed.

Lemma emits_fetch_trainings params dates :
  emits P (ApiExport.fetch_trainings params dates).
Proof.
  unfold ApiExport.fetch_trainings.
  emits_step; [apply emits_login, emits_requests_get|].
  emits_step; [apply emits_get_recursion_limit|].
  emits_step; [emits_step|].
  emits_step.
  { apply emits_map_copied. intros.
    by apply emits_get_patient_training, emits_requests_get. }
  emits_step; [emits_step|].
  emits_step; [emits_step|].
  emits_step.
  { apply emits_map_copied. intros.
    by apply emits_get_nurse_training, emits_requests_get. }
  emits_step; [emits_step|]. emits_step.
Qed.

Lemma emits_tables_of_trainings report depth patient_trainings nurse_trainings :
  emits P (ApiExport.tables_of_trainings report depth
             patient_trainings nurse_trainings).
Proof.
  unfold ApiExport.tables_of_trainings.
  destruct patient_trainings as [|p ps]; [emits_step|].
  do 5 (emits_step; [emits_step|]).
  emits_step.
  { apply emits_map_copied. intros.
    by apply emits_get_nurse_details, emits_requests_get. }
  do 4 (emits_step; [emits_step|]). emits_step.
Qed.

Lemma emits_read_data_from_api params dates :
  emits P (ApiExport.read_data_from_api params dates).
Proof.
  unfold ApiExport.read_data_from_api.
  emits_step; [apply emits_fetch_trainings|].
  destruct a as [[[report depth] patient_trainings] nurse_trainings].
  apply emits_tables_of_trainings.
Qed.

Lemma emits_add_extracted_columns df t :
  emits P (ApiExport.add_extracted_columns df t).
Proof. intros w. exists []. by split. Qed.

Lemma emits_add_extracted_to_all t data_frames :
  emits P (ApiExport.add_extracted_to_all t data_frames).
Proof.
  induction data_frames as [|[key df] data_frames IH]; simpl; [emits_step|].
  emits_step; [apply emits_add_extracted_columns|].
  emits_step; [apply IH|]. emits_step.
Qed.

Lemma emits_write_bigquery df t d :
  P (EvLoad t d df) -> emits P (ApiExport.write_bigquery df t d).
Proof.
  intros HP w. exists [EvLoad t d df]. split; [|by constructor].
  unfold ApiExport.write_bigquery. by destruct (ApiExport.load _ _ _ _).
Qed.

Lemma emits_write_data_to_excel data path :
  P (EvExcel path (merge_sort ApiExport.item_le data)) ->
  emits P (ApiExport.write_data_to_excel data path).
Proof. intros HP w. eexists [_]. split; [done|]. by constructor. Qed.

Lemma emits_get_dates_local args :
  ApiExport.dest args = ApiExport.local -> emits P (ApiExport.get_dates args).
Proof.
  intros Hdest. unfold ApiExport.get_dates.
  emits_step; [apply emits_get_today|].
  emits_step; [|emits_step].
  unfold ApiExport.resolve_dates. rewrite Hdest. emits_step.
Qed.

Hypothesis Pslack : forall m, P (EvSlack m).

Lemma emits_api_export_main args :
  emits P (ApiExport.get_dates args) ->
  (forall data,
     emits P (match ApiExport.dest args with
              | ApiExport.bigquery => ApiExport.write_data_to_bigquery data
              | ApiExport.local => ApiExport.write_data_to_excel data "data.xlsx"
              end)) ->
  emits P (ApiExport.main args).
Proof.
  intros Hdates Hwrite.
  assert (forall p e, emits P (ApiExport.main_except p e)) as Hexcept.
  { intros p e. apply (emits_weaken is_slack); [|apply emits_main_except].
    intros [] Hs; first [done | apply Pslack]. }
  intros w. unfold ApiExport.main, ApiExport.get_params.
  destruct (config w) as [params|e]; [|apply Hexcept].
  apply (emits_try P (ApiExport.main_try args params)
           (ApiExport.main_except (Some params))); [|apply Hexcept].
  unfold ApiExport.main_try.
  emits_step; [by apply Hdates|].
  emits_step; [apply emits_read_data_from_api|].
  destruct a0 as [data|]; [apply Hwrite|emits_step].
Qed.

Hypothesis Pquery : forall q, P (EvQuery q).
Hypothesis Pload : forall t d df,
  dict_get ApiExport.write_dispositions t = Some d -> P (EvLoad t d df).

Lemma emits_write_tables data_frames table_names :
  emits P (ApiExport.write_tables data_frames table_names).
Proof.
  induction table_names as [|t table_names IH]; simpl; [emits_step|].
  emits_step; [emits_step|].
  apply emits_bind_lift. intros d Hd.
  emits_step; [|apply IH].
  apply emits_write_bigquery, Pload. unfold dict_item in Hd.
  by destruct (dict_get ApiExport.write_dispositions t) as [d'|];
    [injection Hd as ->|].
Qed.

Lemma emits_write_data_to_bigquery data_frames :
  emits P (ApiExport.write_data_to_bigquery data_frames).
Proof.
  unfold ApiExport.write_data_to_bigquery.
  emits_step; [intros w; exists []; by split|].
  emits_step; [apply emits_add_extracted_to_all|].
  emits_step; [by apply emits_read_bigquery_exists|].
  emits_step; [|apply emits_write_tables].
  destruct a1; [|emits_step].
  unfold ApiExport.merge_nurses.
  emits_step; [by apply emits_read_bigquery|].
  repeat emits_step.
Qed.

End ApiExportEmits.

(** A load job of one of the three tables, under the disposition that
    [write_data_to_bigquery] gives that table. *)
Definition loads_as_disposed (e : event) : Prop :=
  match e with
  | EvLoad t d _ =>
      (t = "nurses" /\ d = WRITE_TRUNCATE)
      \/ (t = "patient_training_sessions" /\ d = WRITE_APPEND)
      \/ (t = "nurse_training_sessions" /\ d = WRITE_APPEND)
  | _ => True
  end.

Lemma write_dispositions_cases (t : string) (d : disposition) :
  dict_get ApiExport.write_dispositions t = Some d ->
  (t = "nurses" /\ d = WRITE_TRUNCATE)
  \/ (t = "patient_training_sessions" /\ d = WRITE_APPEND)
  \/ (t = "nurse_training_sessions" /\ d = WRITE_APPEND).
Proof.
  unfold ApiExport.write_dispositions. simpl.
  destruct (decide ("nurses" = t)) as [<-|_]; [intros [= <-]; by left|].
  destruct (decide ("patient_training_sessions" = t)) as [<-|_];
    [intros [= <-]; by right; left|].
  destruct (decide ("nurse_training_sessions" = t)) as [<-|_];
    [intros [= <-]; by right; right|done].
Qed.

(** X12. Whatever the command line, the parameters, the warehouse and the
    server, every load job of a run of [api_export.py] writes one of the
    three tables under its own disposition: [nurses] with
    [WRITE_TRUNCATE], the two tables of sessions with [WRITE_APPEND]. No
    run truncates a table of sessions, loads another table or uses the
    default [WRITE_EMPTY] of [write_bigquery]. *)
Theorem api_export_loads_as_disposed `{Externals} (args : ApiExport.Args) :
  emits loads_as_disposed (ApiExport.main args).
Proof.
  apply emits_api_export_main; try done.
  - by apply emits_get_dates.
  - intros data. destruct (ApiExport.dest args).
    + apply emits_write_data_to_bigquery; try done.
      intros t d df Hd. by apply write_dispositions_cases.
    + by apply emits_write_data_to_excel.
Qed.

(** No query and no load job, and no workbook but [data.xlsx]. *)
Definition stays_local (e : event) : Prop :=
  match e with
  | EvQuery _ | EvLoad _ _ _ => False
  | EvExcel path _ => path = "data.xlsx"
  | _ => True
  end.

Definition no_workbook (e : event) : Prop :=
  match e with EvExcel _ _ => False | _ => True end.

(** X13. The two destinations of [api_export.py] are kept apart. A run
    with [--dest local] sends no query to BigQuery and starts no load
    job, whatever it fetches and however it ends, and the one file it may
    write is [data.xlsx]; a run with [--dest bigquery] writes no
    workbook. *)
Theorem api_export_destinations `{Externals} (args : ApiExport.Args) :
  match ApiExport.dest args with
  | ApiExport.local => emits stays_local (ApiExport.main args)
  | ApiExport.bigquery => emits no_workbook (ApiExport.main args)
  end.
Proof.
  destruct (ApiExport.dest args) eqn:Hdest.
  - apply emits_api_export_main; try done.
    + by apply emits_get_dates.
    + intros data. rewrite Hdest.
      by apply emits_write_data_to_bigquery.
  - apply emits_api_export_main; try done.
    + by apply emits_get_dates_local.
    + intros data. rewrite Hdest. by apply emits_write_data_to_excel.
Qed.

(** ** The extraction columns *)

(** The identifiers in the tables, table after table and row after row. *)
Definition uuid_cells (data_frames : list (string * frame))
  : list (option cell) :=
  concat ((fun kv : string * frame =>
             (fun r : row => r !! "_extracted_uuid") <$> rows kv.2)
            <$> data_frames).

Definition extracted_at_cells (data_frames : list (string * frame))
  : list (option cell) :=
  concat ((fun kv : string * frame =>
             (fun r : row => r !! "_extracted_at") <$> rows kv.2)
            <$> data_frames).

Definition total_rows (data_frames : list (string * frame)) : nat :=
  length (concat ((fun kv : string * frame => rows kv.2) <$> data_frames)).

Lemma stamped_uuids t src (rs : list row) : forall first,
  (fun r : row => r !! "_extracted_uuid")
    <$> imap (fun i r => stamp_row t (src (first + i)%nat) r) rs
  = (fun i => Some (CJson (JStr (src i)))) <$> seq first (length rs).
Proof.
  induction rs as [|r rs IH]; intros first; [done|].
  rewrite imap_cons. csimpl. rewrite Nat.add_0_r. f_equal.
  - unfold stamp_row. by rewrite lookup_insert_eq.
  - rewrite <- (IH (S first)). f_equal. apply imap_ext. intros i x _. simpl.
    by rewrite Nat.add_succ_r.
Qed.

Lemma stamped_times t src (rs : list row) : forall first,
  (fun r : row => r !! "_extracted_at")
    <$> imap (fun i r => stamp_row t (src (first + i)%nat) r) rs
  = replicate (length rs) (Some (CDatetime t)).
Proof.
  induction rs as [|r rs IH]; intros first; [done|].
  rewrite imap_cons. csimpl. f_equal.
  - unfold stamp_row. by rewrite lookup_insert_ne, lookup_insert_eq.
  - rewrite <- (IH (S first)). f_equal. apply imap_ext. intros i x _. simpl.
    by rewrite Nat.add_succ_r.
Qed.

Lemma add_extracted_to_all_run `{Externals} t data_frames : forall w,
  exists stamped_frames,
    ApiExport.add_extracted_to_all t data_frames w
    = (Ok stamped_frames,
       set_uuid_drawn (uuid_drawn w + total_rows data_frames) w)
    /\ stamped_frames.*1 = data_frames.*1
    /\ uuid_cells stamped_frames
       = (fun i => Some (CJson (JStr (uuid_source w i))))
           <$> seq (uuid_drawn w) (total_rows data_frames)
    /\ extracted_at_cells stamped_frames
       = replicate (total_rows data_frames) (Some (CDatetime t)).
Proof.
  induction data_frames as [|[key df] data_frames IH]; intros w.
  - exists []. repeat split. simpl. unfold ret, total_rows. simpl.
    rewrite Nat.add_0_r. by destruct w.
  - simpl. rewrite (bind_returns _ _ _ _ _
                      (add_extracted_columns_stamped df t w)).
    destruct (IH (set_uuid_drawn (uuid_drawn w + height df) w))
      as (rest & Hrun & Hkeys & Huuid & Hat).
    rewrite (bind_returns _ _ _ _ _ Hrun).
    eexists. split; [|split; [|split]].
    + unfold ret. f_equal. unfold total_rows. csimpl.
      rewrite length_app. unfold set_uuid_drawn. simpl.
      f_equal. unfold height. lia.
    + csimpl. by rewrite Hkeys.
    + unfold uuid_cells in *. csimpl. rewrite Huuid.
      unfold stamped. cbn [rows]. rewrite stamped_uuids.
      unfold total_rows. csimpl. rewrite length_app, seq_app, fmap_app.
      reflexivity.
    + unfold extracted_at_cells in *. csimpl. rewrite Hat.
      unfold stamped. cbn [rows]. rewrite stamped_times.
      unfold total_rows. csimpl. by rewrite length_app, replicate_add.
Qed.

(** X14. In [write_data_to_bigquery] of [api_export.py], the loop that
    adds the extraction columns gives every row of every table the time
    of the run under [_extracted_at] and, under [_extracted_uuid], the
    next value that [uuid.uuid4()] returns: one draw for each row, in the
    order of the tables and of their rows, and none used twice. So the
    rows of one run have identifiers that differ from each other
    whenever the values drawn do. The tables keep their names and their
    order. *)
Theorem extraction_columns_of_a_run `{Externals} (t : Z)
    (data_frames : list (string * frame)) (w : world) :
  exists stamped_frames w',
    ApiExport.add_extracted_to_all t data_frames w = (Ok stamped_frames, w')
    /\ stamped_frames.*1 = data_frames.*1
    /\ uuid_drawn w' = (uuid_drawn w + total_rows data_frames)%nat
    /\ uuid_cells stamped_frames
       = (fun i => Some (CJson (JStr (uuid_source w i))))
           <$> seq (uuid_drawn w) (total_rows data_frames)
    /\ extracted_at_cells stamped_frames
       = replicate (total_rows data_frames) (Some (CDatetime t))
    /\ ((forall i j, uuid_source w i = uuid_source w j -> i = j) ->
        NoDup (uuid_cells stamped_frames)).
Proof.
  destruct (add_extracted_to_all_run t data_frames w)
    as (stamped_frames & Hrun & Hkeys & Huuid & Hat).
  exists stamped_frames. eexists. split; [exact Hrun|].
  split; [done|]. split; [done|]. split; [done|]. split; [done|].
  intros Hinj. rewrite Huuid. apply NoDup_fmap_2; [|apply NoDup_seq].
  intros i j [= Hij]. by apply Hinj.
Qed.

(** ** The local export *)

Global Instance item_le_total {V} : Total (@ApiExport.item_le V).
Proof. intros x y. apply (stdpp.base.total String.le). Qed.


(** ** Columns that may be missing, and the one that may not *)






(** ** A batch of [api_export.py] *)

Lemma map_cells_height f c df df' :
  map_cells f c df = Ok df' -> height df' = height df.
Proof.
  unfold map_cells. destruct (rmap _ (rows df)) as [rs|] eqn:E; [|done].
  intros [= <-]. apply rmap_Forall2 in E. unfold height. simpl.
  symmetry. by eapply Forall2_length.
Qed.

Lemma with_cols_by_name_height f cols : forall df df',
  with_cols_by_name f cols df = Ok df' -> height df' = height df.
Proof.
  induction cols as [|c cols IH]; intros df df'; cbn [with_cols_by_name].
  - by intros [= <-].
  - destruct (has_column df c); [|apply IH].
    destruct (map_cells f c df) as [df1|] eqn:E; [|done]. cbn [rbind].
    intros Hrest. rewrite (IH _ _ Hrest). by eapply map_cells_height.
Qed.

Lemma from_dicts_height data df :
  from_dicts data = Ok df -> height df = length data /\ data <> [].
Proof.
  intros Hdf. assert (data <> []) by (by destruct data).
  apply from_dicts_rows in Hdf as (ds & Hds & Hrows). split; [|done].
  unfold height. rewrite Hrows, length_fmap.
  apply rmap_Forall2 in Hds. symmetry. by eapply Forall2_length.
Qed.

Lemma fingerprints_length `{Externals} df xs :
  fingerprints (Some df) = fingerprints_of xs -> height df = length xs.
Proof.
  intros Heq. apply (f_equal length) in Heq.
  unfold fingerprints, fingerprints_of in Heq.
  by rewrite !length_fmap in Heq.
Qed.

(** X17. [read_data_from_api] of [api_export.py] hands over all three
    tables or none. When its second half returns tables, they are the
    nurses, the patient trainings and the nurse trainings, in this order;
    patient trainings and nurse trainings were both fetched and each has
    one row in its table, and at least one nurse was fetched. So a window
    with patient trainings but without nurse trainings, or without any
    nurse to be found, gives no table: it ends in an error. *)
Theorem api_export_batch_is_complete `{Externals} (report : Report)
    (depth : nat) (patient_trainings nurse_trainings : list json)
    (w w' : world) (data : list (string * frame)) :
  ApiExport.tables_of_trainings report depth patient_trainings nurse_trainings w
    = (Ok (Some data), w') ->
  patient_trainings <> [] /\ nurse_trainings <> []
  /\ exists n p t,
       data = three_tables n p t
       /\ (0 < height n)%nat
       /\ height p = length patient_trainings
       /\ height t = length nurse_trainings.
Proof.
  intros Hrun.
  destruct (api_export_tables_fingerprints _ _ _ _ _ _ _ Hrun) as [Hp Ht].
  unfold ApiExport.tables_of_trainings in Hrun.
  destruct patient_trainings as [|p0 ps0]; [done|].
  split; [done|]. revert Hrun Hp.
  generalize (p0 :: ps0). clear p0 ps0. intros patient_trainings Hrun Hp.
  apply bind_lift_inv in Hrun as (ps & Hps & Hrun).
  apply bind_lift_inv in Hrun as (ns & Hns & Hrun).
  apply bind_lift_inv in Hrun as (phones1 & _ & Hrun).
  apply bind_lift_inv in Hrun as (phones2 & _ & Hrun).
  apply bind_lift_inv in Hrun as (phones & _ & Hrun).
  apply bind_inv in Hrun as (nested & w1 & _ & Hrun).
  apply bind_lift_inv in Hrun as (nurses & _ & Hrun).
  apply bind_lift_inv in Hrun as (nurses_df & Hn & Hrun).
  apply bind_lift_inv in Hrun as (patient_df & _ & Hrun).
  apply bind_lift_inv in Hrun as (nurse_df & Hnt & Hrun).
  injection Hrun as <- _.
  assert (nurse_trainings <> []) as Hnts.
  { destruct (from_dicts ns) as [df2|] eqn:E2; [|done].
    apply from_dicts_height in E2 as [_ Hne].
    intros ->. by injection Hns as <-. }
  split; [done|]. exists nurses_df, patient_df, nurse_df.
  split; [reflexivity|]. split; [|split].
  - destruct (from_dicts nurses) as [df0|] eqn:E0; [|done].
    cbn [rbind] in Hn. apply with_cols_by_name_height in Hn.
    apply from_dicts_height in E0 as [Hlen Hne]. rewrite Hn, Hlen.
    destruct nurses; [done|simpl; lia].
  - by apply fingerprints_length.
  - by apply fingerprints_length.
Qed.

Lemma api_export_batch_is_complete_witness :
  [session_b] <> [] /\ [march_14_nurse_training] <> []
  /\ exists n p t,
       api_export_tables = three_tables n p t
       /\ (0 < height n)%nat
       /\ height p = length [session_b]
       /\ height t = length [march_14_nurse_training].
Proof.
  apply (@api_export_batch_is_complete sample_externals client1 2%nat
           [session_b] [march_14_nurse_training] world_sync world_after_tables).
  vm_compute. reflexivity.
Defined.

Lemma dict_get_set_ne {V} (d : list (string * V)) (k k' : string) (v : V) :
  k <> k' -> dict_get (dict_set d k v) k' = dict_get d k'.
Proof.
  intros Hne. induction d as [|[k0 v0] d IH]; simpl.
  - by destruct (decide (k = k')).
  - destruct (decide (k0 = k)) as [->|Hk0]; simpl.
    + by rewrite !decide_False by done.
    + by rewrite IH.
Qed.

(** The record with its fingerprint, as [x["md5"] = dict_hash(x)] leaves
    it. *)
Definition with_md5 `{Externals} (x : json) : json :=
  match x with
  | JObj d => JObj (dict_set d "md5" (JStr (ApiExport.dict_hash x)))
  | _ => x
  end.

Definition is_object (x : json) : Prop := exists d, x = JObj d.

Lemma rmap_set_md5 `{Externals} (xs : list json) :
  Forall is_object xs -> rmap ApiExport.set_md5 xs = Ok (with_md5 <$> xs).
Proof.
  induction 1 as [|x xs [d ->] _ IH]; [done|]. simpl. by rewrite IH.
Qed.

(** What a record holds under [session_conducted_by]: a text, or
    nothing. *)
Definition conducted_by_text (x : json) : Prop :=
  exists d, x = JObj d
            /\ match dict_get d "session_conducted_by" with
               | Some (JStr _) | None => True
               | Some _ => False
               end.

Definition lacks_conducted_by (x : json) : Prop :=
  exists d, x = JObj d /\ dict_get d "session_conducted_by" = None.

Lemma conducted_by_missing `{Externals} (xs : list json) :
  Forall conducted_by_text xs -> Exists lacks_conducted_by xs ->
  rmap ApiExport.conducted_by (with_md5 <$> xs)
  = Raise (KeyError "session_conducted_by").
Proof.
  induction 1 as [|x xs (d & -> & Hd) Hxs IH]; intros Hex.
  - by apply Exists_nil in Hex.
  - csimpl. unfold ApiExport.conducted_by at 1, getitem, dict_item.
    rewrite dict_get_set_ne by done.
    destruct (dict_get d "session_conducted_by") as [[| | |s| |]|] eqn:E;
      try done.
    cbn [rbind]. rewrite IH; [done|].
    apply Exists_cons in Hex as [(d' & [= <-] & Hd')|Hex]; [|done].
    congruence.
Qed.

(** X18. In [api_export.py] every patient training has to say who
    conducted it. When the patient trainings fetched are records whose
    [session_conducted_by] is a text or is missing, and it is missing
    from one of them, the second half of [read_data_from_api] raises
    [KeyError] before it asks for the details of any nurse: nothing is
    sent and no table is built. *)
Theorem conducted_by_is_required `{Externals} (report : Report) (depth : nat)
    (patient_trainings nurse_trainings : list json) (w : world) :
  Forall conducted_by_text patient_trainings ->
  Exists lacks_conducted_by patient_trainings ->
  Forall is_object nurse_trainings ->
  ApiExport.tables_of_trainings report depth patient_trainings nurse_trainings w
  = (Raise (KeyError "session_conducted_by"), w).
Proof.
  intros Htext Hlacks Hnurse. unfold ApiExport.tables_of_trainings.
  destruct patient_trainings as [|p0 ps0]; [by apply Exists_nil in Hlacks|].
  revert Htext Hlacks. generalize (p0 :: ps0). clear p0 ps0.
  intros patient_trainings Htext Hlacks.
  rewrite rmap_set_md5; cycle 1.
  { eapply Forall_impl; [exact Htext|]. intros x (d & -> & _). by exists d. }
  unfold bind at 1, lift at 1.
  rewrite rmap_set_md5 by done. unfold bind at 1, lift at 1.
  unfold ApiExport.concat_results at 1.
  by rewrite conducted_by_missing.
Qed.

Definition anonymous_session : json :=
  JObj [("date_of_session", JStr "14-03-2024"); ("total_trained", JStr "12")].

Lemma conducted_by_is_required_witness :
  @ApiExport.tables_of_trainings sample_externals client1 2
    [march_14_session; anonymous_session] [march_14_nurse_training] world_sync
  = (Raise (KeyError "session_conducted_by"), world_sync).
Proof.
  apply (@conducted_by_is_required sample_externals).
  - repeat constructor; by eexists.
  - right. left. by eexists.
  - repeat constructor. by eexists.
Defined.

(** ** An error of the Slack API *)





(** ** The environment of a run *)















Definition sample_yaml : json :=
  JObj [("service_account_key", JStr "key.json");
        ("project", JStr "noora");
        ("dataset", JStr "ccp_scratch");
        ("environments",
         JArr [JObj [("name", JStr "dev"); ("dataset", JStr "ccp_dev")];
               JObj [("name", JStr "prod"); ("dataset", JStr "ccp");
                     ("slack_channel_id", JStr "C0")]])].

(** A run in GitHub Actions on [branch]. *)
Definition actions_host (branch : string) : Config.host :=
  {| Config.getenv := fun name =>
       if decide (name = "GITHUB_REF_NAME") then Some branch
       else if decide (name = "SERVICE_ACCOUNT_KEY") then Some "{}"
       else if decide (name = "SLACK_TOKEN") then Some "xoxb"
       else if decide (name = "API_PARAMS") then Some "api"
       else None;
     Config.read_file := fun _ => Ok "params";
     Config.read_secret := fun _ => Raise (Exception "No such file");
     Config.yaml_safe_load := fun text =>
       if decide (text = Some "params") then Ok sample_yaml
       else Ok (JObj [("url", JStr "https://api.example")]);
     Config.json_loads := fun _ => Ok (JObj []);
     Config.service_account_info_error := fun _ => None |}.



Example params_on_a_branch :
  match Config.get_params (actions_host "fix-dates") "params.yaml" with
  | Ok params =>
      dict_get params "environment" = Some (Config.VJson (JStr "dev"))
      /\ dict_get params "dataset" = Some (Config.VJson (JStr "ccp_dev"))
      /\ dict_keys params
         = ["project"; "dataset"; "slack_token"; "api"; "credentials";
            "environment"; "github_ref_name"]
  | Raise _ => False
  end.
Proof. vm_compute. by repeat split. Qed.

(** ** The date of a request *)

Lemma days_before_year_parts (a b c e : Z) :
  0 <= a -> 0 <= b <= 3 -> 0 <= c <= 24 -> 0 <= e <= 3 ->
  days_before_year (400 * a + 100 * b + 4 * c + e + 1)
  = 146097 * a + 36524 * b + 1461 * c + 365 * e.
Proof.
  intros Ha Hb Hc He. unfold days_before_year.
  replace (400 * a + 100 * b + 4 * c + e + 1 - 1)
    with (400 * a + 100 * b + 4 * c + e) by lia.
  assert ((400 * a + 100 * b + 4 * c + e) / 4 = 100 * a + 25 * b + c) as ->.
  { symmetry. apply (Z.div_unique _ 4 _ e); lia. }
  assert ((400 * a + 100 * b + 4 * c + e) / 100 = 4 * a + b) as ->.
  { symmetry. apply (Z.div_unique _ 100 _ (4 * c + e)); lia. }
  assert ((400 * a + 100 * b + 4 * c + e) / 400 = a) as ->.
  { symmetry. apply (Z.div_unique _ 400 _ (100 * b + 4 * c + e)); lia. }
  lia.
Qed.

Lemma is_leap_parts (a b c e : Z) :
  0 <= a -> 0 <= b <= 3 -> 0 <= c <= 24 -> 0 <= e <= 3 ->
  is_leap (400 * a + 100 * b + 4 * c + e + 1)
  = (e =? 3) && (negb (c =? 24) || (b =? 3)).
Proof.
  intros Ha Hb Hc He. unfold is_leap.
  assert ((400 * a + 100 * b + 4 * c + e + 1) mod 4 = (e + 1) mod 4) as ->.
  { replace (400 * a + 100 * b + 4 * c + e + 1)
      with (e + 1 + (100 * a + 25 * b + c) * 4) by lia.
    apply Z.mod_add. lia. }
  assert ((400 * a + 100 * b + 4 * c + e + 1) mod 100
          = (4 * c + e + 1) mod 100) as ->.
  { replace (400 * a + 100 * b + 4 * c + e + 1)
      with (4 * c + e + 1 + (4 * a + b) * 100) by lia.
    apply Z.mod_add. lia. }
  assert ((400 * a + 100 * b + 4 * c + e + 1) mod 400
          = (100 * b + 4 * c + e + 1) mod 400) as ->.
  { replace (400 * a + 100 * b + 4 * c + e + 1)
      with (100 * b + 4 * c + e + 1 + a * 400) by lia.
    apply Z.mod_add. lia. }
  destruct (Z.eqb_spec e 3) as [->|He3].
  - rewrite Z.mod_same by lia. simpl.
    destruct (Z.eqb_spec c 24) as [->|Hc24].
    + replace (4 * 24 + 3 + 1) with 100 by lia. rewrite Z.mod_same by lia.
      simpl. destruct (Z.eqb_spec b 3) as [->|Hb3].
      * by replace (100 * 3 + 4 * 24 + 3 + 1) with 400 by lia.
      * rewrite Z.mod_small by lia.
        by destruct (Z.eqb_spec (100 * b + 4 * 24 + 3 + 1) 0); [lia|].
    + rewrite Z.mod_small by lia.
      by destruct (Z.eqb_spec (4 * c + 3 + 1) 0); [lia|].
  - rewrite Z.mod_small by lia.
    by destruct (Z.eqb_spec (e + 1) 0); [lia|].
Qed.

(** The month and the day of day [n] of a year, counting from 0: the end
    of [_ord2ymd]. *)
Definition month_day (n : Z) (leapyear : bool) : Z * Z :=
  let month := Z.shiftr (n + 50) 5 in
  let preceding :=
    days_before_month 1 month + (if (2 <? month) && leapyear then 1 else 0) in
  if n <? preceding then
    let month := month - 1 in
    let preceding :=
      preceding
      - (nth (Z.to_nat (month - 1)) days_in_month_table 0
         + (if (month =? 2) && leapyear then 1 else 0)) in
    (month, n - preceding + 1)
  else (month, n - preceding + 1).

Definition month_day_ok (leapyear : bool) (n : Z) : bool :=
  let '(m, d) := month_day n leapyear in
  (1 <=? m) && (m <=? 12) && (1 <=? d) && (d <=? 31)
  && (nth (Z.to_nat (m - 1))
          [0; 31; 59; 90; 120; 151; 181; 212; 243; 273; 304; 334] 0
      + (if (2 <? m) && leapyear then 1 else 0) + d =? n + 1).

Lemma month_day_spec (leapyear : bool) (n : Z) :
  0 <= n < (if leapyear then 366 else 365) ->
  month_day_ok leapyear n = true.
Proof.
  intros Hn.
  assert (forallb (month_day_ok leapyear) (seqZ 0 (if leapyear then 366 else 365))
          = true) as Hall by (by destruct leapyear; vm_compute).
  rewrite forallb_forall in Hall. apply Hall, list_elem_of_In, elem_of_seqZ.
  lia.
Qed.

Lemma ord2ymd_month_day (ord : Z) :
  ord2ymd ord
  = let n := ord - 1 in
    let n400 := n / 146097 in
    let n := n mod 146097 in
    let n100 := n / 36524 in
    let n := n mod 36524 in
    let n4 := n / 1461 in
    let n := n mod 1461 in
    let n1 := n / 365 in
    let n := n mod 365 in
    let year := n400 * 400 + 1 + n100 * 100 + n4 * 4 + n1 in
    if (n1 =? 4) || (n100 =? 4) then (year - 1, 12, 31)
    else
      let md := month_day n ((n1 =? 3) && (negb (n4 =? 24) || (n100 =? 3))) in
      (year, md.1, md.2).
Proof.
  unfold ord2ymd, month_day. cbv zeta.
  destruct (_ || _); [reflexivity|]. by destruct (_ <? _).
Qed.

(** The date of an ordinal is a date of the calendar, and it is the date
    of that ordinal. *)
Lemma ymd2ord_ord2ymd (ord : Z) :
  1 <= ord ->
  let '(y, m, d) := ord2ymd ord in
  ymd2ord y m d = ord /\ 1 <= m <= 12 /\ 1 <= d <= 31.
Proof.
  intros Hord. rewrite ord2ymd_month_day. cbv zeta.
  pose proof (Z.div_mod (ord - 1) 146097 ltac:(lia)) as E400.
  pose proof (Z.mod_pos_bound (ord - 1) 146097 ltac:(lia)) as B400.
  assert (0 <= (ord - 1) / 146097) as Ha by (apply Z.div_pos; lia).
  set (a := (ord - 1) / 146097) in *.
  set (r := (ord - 1) mod 146097) in *. clearbody a r.
  pose proof (Z.div_mod r 36524 ltac:(lia)) as E100.
  pose proof (Z.mod_pos_bound r 36524 ltac:(lia)) as B100.
  assert (0 <= r / 36524) as Hb by (apply Z.div_pos; lia).
  set (b := r / 36524) in *. set (r1 := r mod 36524) in *. clearbody b r1.
  pose proof (Z.div_mod r1 1461 ltac:(lia)) as E4.
  pose proof (Z.mod_pos_bound r1 1461 ltac:(lia)) as B4.
  assert (0 <= r1 / 1461) as Hc by (apply Z.div_pos; lia).
  set (c := r1 / 1461) in *. set (r2 := r1 mod 1461) in *. clearbody c r2.
  pose proof (Z.div_mod r2 365 ltac:(lia)) as E1.
  pose proof (Z.mod_pos_bound r2 365 ltac:(lia)) as B1.
  assert (0 <= r2 / 365) as He by (apply Z.div_pos; lia).
  set (e := r2 / 365) in *. set (n := r2 mod 365) in *. clearbody e n.
  destruct (Z.eqb_spec e 4) as [->|He4]; cbn [orb].
  - (* the last day of a leap year *)
    split; [|lia]. unfold ymd2ord.
    replace (a * 400 + 1 + b * 100 + c * 4 + 4 - 1)
      with (400 * a + 100 * b + 4 * c + 3 + 1) by lia.
    rewrite days_before_year_parts by lia.
    unfold days_before_month. rewrite is_leap_parts by lia.
    destruct (Z.eqb_spec c 24); [lia|]. simpl. lia.
  - destruct (Z.eqb_spec b 4) as [->|Hb4].
    + (* the last day of a cycle of 400 years *)
      split; [|lia]. unfold ymd2ord.
      replace (a * 400 + 1 + 4 * 100 + c * 4 + e - 1)
        with (400 * a + 100 * 3 + 4 * 24 + 3 + 1) by lia.
      rewrite days_before_year_parts by lia.
      unfold days_before_month. rewrite is_leap_parts by lia. simpl. lia.
    + set (leapyear := (e =? 3) && (negb (c =? 24) || (b =? 3))).
      assert (0 <= n < (if leapyear then 366 else 365)) as Hn
        by (destruct leapyear; lia).
      pose proof (month_day_spec leapyear n Hn) as Hmd.
      unfold month_day_ok in Hmd.
      destruct (month_day n leapyear) as [m d]. cbn [fst snd].
      rewrite !andb_true_iff in Hmd.
      destruct Hmd as [[[[Hm1 Hm12] Hd1] Hd31] Hsum].
      apply Z.leb_le in Hm1, Hm12, Hd1, Hd31. apply Z.eqb_eq in Hsum.
      split; [|lia]. unfold ymd2ord.
      replace (a * 400 + 1 + b * 100 + c * 4 + e)
        with (400 * a + 100 * b + 4 * c + e + 1) by lia.
      rewrite days_before_year_parts by lia.
      unfold days_before_month. rewrite is_leap_parts by lia.
      fold leapyear. lia.
Qed.

Lemma pad2_two_digits (a : Z) :
  0 <= a < 100 ->
  pad2 a = String (ascii_of_N (48 + Z.to_N (a / 10)))
             (String (ascii_of_N (48 + Z.to_N (a mod 10))) "").
Proof.
  intros Ha.
  assert (forallb (fun a =>
            String.eqb (pad2 a)
              (String (ascii_of_N (48 + Z.to_N (a / 10)))
                 (String (ascii_of_N (48 + Z.to_N (a mod 10))) "")))
            (seqZ 0 100) = true) as Hall by (by vm_compute).
  rewrite forallb_forall in Hall. apply String.eqb_eq, Hall.
  apply list_elem_of_In, elem_of_seqZ. lia.
Qed.

Lemma digit_char_inj (i j : Z) :
  0 <= i < 10 -> 0 <= j < 10 ->
  ascii_of_N (48 + Z.to_N i) = ascii_of_N (48 + Z.to_N j) -> i = j.
Proof.
  intros Hi Hj Heq. apply (f_equal N_of_ascii) in Heq.
  rewrite !N_ascii_embedding in Heq by lia. lia.
Qed.

(** Two days or months written with two digits, and what follows. *)
Lemma pad2_app_inj (a b : Z) (k1 k2 : string) :
  0 <= a < 100 -> 0 <= b < 100 ->
  pad2 a +:+ k1 = pad2 b +:+ k2 -> a = b /\ k1 = k2.
Proof.
  intros Ha Hb. rewrite !pad2_two_digits by done.
  intros [= H1 H2 Hk].
  assert (forall x, 0 <= x < 100 -> 0 <= x / 10 < 10) as Hdiv.
  { intros x Hx. split; [apply Z.div_pos|apply Z.div_lt_upper_bound]; lia. }
  pose proof (Z.mod_pos_bound a 10 ltac:(lia)).
  pose proof (Z.mod_pos_bound b 10 ltac:(lia)).
  apply digit_char_inj in H1; [|by apply Hdiv..].
  apply digit_char_inj in H2; [|done..].
  split; [|done].
  pose proof (Z.div_mod a 10 ltac:(lia)) as Ea.
  pose proof (Z.div_mod b 10 ltac:(lia)) as Eb.
  rewrite H1, H2 in Ea. congruence.
Qed.

Lemma app_empty_r (s : string) : s +:+ "" = s.
Proof. induction s as [|a s IH]; [done|]. by rewrite app_cons, IH. Qed.

Lemma dash_inj (s t : string) : "-" +:+ s = "-" +:+ t -> s = t.
Proof. intros [= H]. exact H. Qed.

Lemma strftime_dmy_inj (d1 d2 : Z) :
  1 <= d1 -> 1 <= d2 -> strftime_dmy d1 = strftime_dmy d2 -> d1 = d2.
Proof.
  intros H1 H2. unfold strftime_dmy.
  pose proof (ymd2ord_ord2ymd d1 H1) as R1.
  pose proof (ymd2ord_ord2ymd d2 H2) as R2.
  destruct (ord2ymd d1) as [[y1 m1] dd1], (ord2ymd d2) as [[y2 m2] dd2].
  destruct R1 as (<- & Hm1 & Hdd1), R2 as (<- & Hm2 & Hdd2).
  intros Heq.
  apply pad2_app_inj in Heq as [-> Heq]; [|lia..].
  apply dash_inj in Heq.
  apply pad2_app_inj in Heq as [-> Heq]; [|lia..].
  apply dash_inj in Heq.
  assert (int_repr y1 +:+ "" = int_repr y2 +:+ "") as Hy
    by (by rewrite !app_empty_r).
  by apply int_repr_inj in Hy as [-> _].
Qed.

Definition first_day : Z := ymd2ord 1000 1 1.
Definition last_day : Z := ymd2ord 9999 12 31.

(** X21. Each day of a window is asked for under its own date. For a
    window within the years of four digits, the dates [dt_iterate]
    yields are dates of the calendar (a month from 1 to 12, a day from 1
    to 31, and the ordinal of that year, month and day is the date
    itself), and the bodies of the requests for the patient trainings,
    and for the nurse trainings, of two different days differ: no day is
    asked for twice and none is asked for under the date of another. *)
Theorem each_day_has_its_own_date (start end_ : Z) (days : list Z) :
  first_day <= start -> end_ <= last_day ->
  dt_iterate start end_ 1 = Ok days ->
  NoDup (patient_training_json <$> days)
  /\ NoDup (nurse_training_json <$> days)
  /\ forall d, d ∈ days ->
        start <= d <= end_
        /\ ymd2ord (ord2ymd d).1.1 (ord2ymd d).1.2 (ord2ymd d).2 = d
        /\ 1 <= (ord2ymd d).1.2 <= 12
        /\ 1 <= (ord2ymd d).2 <= 31.
Proof.
  intros Hstart Hend Hdays.
  assert (start <= end_) as Hle.
  { unfold dt_iterate in Hdays. by destruct (Z.leb_spec start end_). }
  rewrite dt_iterate_one_day in Hdays by done. injection Hdays as <-.
  assert (1 <= first_day) as Hfirst by (by vm_compute).
  assert (forall f : Z -> dict,
            (forall d1 d2, f d1 = f d2 -> strftime_dmy d1 = strftime_dmy d2) ->
            NoDup (f <$> seqZ start (end_ - start + 1))) as Hnodup.
  { intros f Hf. apply NoDup_fmap_2_strong; [|apply NoDup_seqZ].
    intros d1 d2 H1%elem_of_seqZ H2%elem_of_seqZ Heq.
    apply strftime_dmy_inj; [lia|lia|by apply Hf]. }
  split; [|split].
  - apply Hnodup. unfold patient_training_json. by intros d1 d2 [= ->].
  - apply Hnodup. unfold nurse_training_json. by intros d1 d2 [= ->].
  - intros d Hd%elem_of_seqZ. split; [lia|].
    pose proof (ymd2ord_ord2ymd d ltac:(lia)) as Hround.
    by destruct (ord2ymd d) as [[y m] dd].
Qed.

Lemma each_day_has_its_own_date_witness :
  let days := [ymd2ord 2024 2 28; ymd2ord 2024 2 29; ymd2ord 2024 3 1] in
  NoDup (patient_training_json <$> days)
  /\ NoDup (nurse_training_json <$> days)
  /\ forall d, d ∈ days ->
        ymd2ord 2024 2 28 <= d <= ymd2ord 2024 3 1
        /\ ymd2ord (ord2ymd d).1.1 (ord2ymd d).1.2 (ord2ymd d).2 = d
        /\ 1 <= (ord2ymd d).1.2 <= 12
        /\ 1 <= (ord2ymd d).2 <= 31.
Proof.
  apply (each_day_has_its_own_date (ymd2ord 2024 2 28) (ymd2ord 2024 3 1)).
  - vm_compute. discriminate.
  - vm_compute. discriminate.
  - reflexivity.
Defined.

(** ** When a notification is posted *)

(** The messages posted to Slack, newest first. *)
Definition slack_sent (l : list event) : list slack_message :=
  omap (fun e => match e with EvSlack m => Some m | _ => None end) l.

Definition no_slack (e : event) : Prop :=
  match e with EvSlack _ => False | _ => True end.

Lemma slack_sent_none (new : list event) :
  Forall no_slack new -> slack_sent new = [].
Proof.
  induction 1 as [|e new He _ IH]; [done|]. by destruct e.
Qed.

Lemma emits_slack_sent {A} (m : M A) (w : world) :
  emits no_slack m -> slack_sent (log (m w).2) = slack_sent (log w).
Proof.
  intros Hm. destruct (Hm w) as (new & -> & Hnew).
  unfold slack_sent. rewrite omap_app.
  fold (slack_sent new). by rewrite (slack_sent_none new Hnew).
Qed.

Lemma emits_api_export_main_try `{Externals} args params :
  emits no_slack (ApiExport.main_try args params).
Proof.
  unfold ApiExport.main_try.
  emits_step; [by apply emits_get_dates|].
  emits_step; [by apply emits_read_data_from_api|].
  destruct a0 as [data|]; [|emits_step].
  destruct (ApiExport.dest args).
  - apply emits_write_data_to_bigquery; try done.
  - by apply emits_write_data_to_excel.
Qed.

Lemma send_message_to_slack_world text channel_id token w :
  (ApiExport.send_message_to_slack text channel_id token w).2
  = emit (EvSlack (SlackMessage channel_id text token)) w.
Proof.
  unfold ApiExport.send_message_to_slack.
  destruct (slack w _) as [[]|]; try done.
  repeat match goal with
         | |- context [match ?x with _ => _ end] => destruct x; try done
         end.
Qed.

(** X22. A run of [api_export.py] posts to Slack at most once, and only
    when the parameters were read, their environment is ["prod"] and the
    body of [main] raised: a run that ends well, a run in any other
    environment and a run whose [get_params] fails post nothing. A run
    that posts does not end well. *)
Theorem notification_only_for_a_failed_prod_run `{Externals}
    (args : ApiExport.Args) (w : world) :
  exists posts,
    slack_sent (log (ApiExport.main args w).2) = posts ++ slack_sent (log w)
    /\ (length posts <= 1)%nat
    /\ (posts <> [] ->
        is_ok (ApiExport.main args w).1 = false
        /\ exists params,
             config w = Ok params
             /\ environment params = "prod"
             /\ is_ok (ApiExport.main_try args params w).1 = false).
Proof.
  unfold ApiExport.main, ApiExport.get_params.
  destruct (config w) as [params|e0] eqn:Hconfig.
  - pose proof (emits_slack_sent (ApiExport.main_try args params) w
                  (emits_api_export_main_try args params)) as Htry.
    destruct (ApiExport.main_try args params w) as [[v|e] w1] eqn:Erun.
    + exists []. split; [exact Htry|]. split; [simpl; lia|done].
    + simpl in Htry.
      destruct (decide (environment params = "prod")) as [Hprod|Hdev].
      * rewrite main_except_prod by done.
        pose proof (send_message_to_slack_world
                      (sm_text (notification params e w1))
                      (slack_channel_id params) (slack_token params) w1)
          as Hworld.
        exists [SlackMessage (slack_channel_id params)
                  (sm_text (notification params e w1)) (slack_token params)].
        destruct (ApiExport.send_message_to_slack _ _ _ w1) as [[u|e'] w2];
          simpl in Hworld; subst w2;
          (split; [simpl; by rewrite <- Htry|]); (split; [simpl; lia|]);
          intros _; (split; [done|]); exists params;
          (split; [done|]); (split; [done|]); by rewrite Erun.
      * rewrite main_except_not_prod by done.
        exists []. split; [exact Htry|]. split; [simpl; lia|done].
  - exists []. split; [done|]. split; [simpl; lia|done].
Qed.

Module JsonTests.
Import Py Json.

Definition sample : json :=
  JObj [("b", JArr [JInt 1; JObj [("z", JNull); ("a", JBool true)]]);
        ("a", JStr (Stdlib.Strings.String.string_of_list_ascii (map ascii_of_nat [120; 34; 121; 92; 122; 10; 127; 233; 47]%nat)));
        ("c", JInt (-12)); ("d", JObj []); ("e", JArr [])].

Example dumps_sorted_sample :
  codes (dumps true sample) =
  [123; 34; 97; 34; 58; 32; 34; 120; 92; 34; 121; 92; 92; 122; 92; 110; 92; 117; 48; 48; 55; 102; 92; 117; 48; 48; 101; 57; 47; 34; 44; 32; 34; 98; 34; 58; 32; 91; 49; 44; 32; 123; 34; 97; 34; 58; 32; 116; 114; 117; 101; 44; 32; 34; 122; 34; 58; 32; 110; 117; 108; 108; 125; 93; 44; 32; 34; 99; 34; 58; 32; 45; 49; 50; 44; 32; 34; 100; 34; 58; 32; 123; 125; 44; 32; 34; 101; 34; 58; 32; 91; 93; 125]%nat.
Proof. vm_compute. reflexivity. Qed.

Example dumps_plain_sample :
  codes (dumps false sample) =
  [123; 34; 98; 34; 58; 32; 91; 49; 44; 32; 123; 34; 122; 34; 58; 32; 110; 117; 108; 108; 44; 32; 34; 97; 34; 58; 32; 116; 114; 117; 101; 125; 93; 44; 32; 34; 97; 34; 58; 32; 34; 120; 92; 34; 121; 92; 92; 122; 92; 110; 92; 117; 48; 48; 55; 102; 92; 117; 48; 48; 101; 57; 47; 34; 44; 32; 34; 99; 34; 58; 32; 45; 49; 50; 44; 32; 34; 100; 34; 58; 32; 123; 125; 44; 32; 34; 101; 34; 58; 32; 91; 93; 125]%nat.
Proof. vm_compute. reflexivity. Qed.

Example ymd2ord_floor : Dates.ymd2ord 2023 6 1 = 738672.
Proof. reflexivity. Qed.
Example ymd2ord_leap : Dates.ymd2ord 2024 2 29 = 738945.
Proof. reflexivity. Qed.
Example ord2ymd_leap : Dates.ord2ymd 738945 = (2024, 2, 29).
Proof. reflexivity. Qed.
Example ord2ymd_end_of_year : Dates.ord2ymd 730485 = (2000, 12, 31).
Proof. reflexivity. Qed.
Example strftime_floor : Dates.strftime_dmy 738672 = "01-06-2023".
Proof. reflexivity. Qed.
Example dt_iterate_three :
  Dates.dt_iterate 738672 738674 1 = Ok [738672; 738673; 738674].
Proof. reflexivity. Qed.
End JsonTests.
